(** * HTCondor submitter of alea: workflow construction

    A shallow embedding of [alea/submitters/htcondor.py]
    (class [SubmitterHTCondor]) and the properties of its workflow
    construction: path rewriting of ticket arguments, retry-scaled resource
    requests, combine cohorts, the one-shot registration of the limit
    threshold file and the pre-flight checks of [submit].

    Python objects that the code mutates are threaded through a state and
    exception monad: an exception leaves the state as it was when raised.
    The Pegasus API objects (Workflow, Job, catalogs) are records that log
    what the [add_*] calls put into them, in call order. *)

From Stdlib Require Import Ascii String ZArith.
From stdpp Require Import gmap strings list fin_maps pretty.

#[global] Set Warnings "-register-all".

(** ** Strings and POSIX paths *)

Module Path.

(** [s.rfind(c)] scans left to right, remembering the last hit. *)
Fixpoint rfind_from (c : ascii) (s : string) (i last : Z) : Z :=
  match s with
  | EmptyString => last
  | String a r => rfind_from c r (i + 1) (if Ascii.eqb a c then i else last)
  end.

(** [s.rfind(c)]: index of the last occurrence of [c], [-1] when absent. *)
Definition rfind (c : ascii) (s : string) : Z := rfind_from c s 0 (-1).

(** [s[n:]] for a non-negative [n]. *)
Fixpoint str_drop (n : nat) (s : string) : string :=
  match n, s with
  | O, _ => s
  | S k, String _ r => str_drop k r
  | S _, EmptyString => EmptyString
  end.

(** [posixpath.basename(p)]: [i = p.rfind('/') + 1; return p[i:]]. *)
Definition basename (p : string) : string :=
  str_drop (Z.to_nat (rfind "/" p + 1)) p.

(** [s.startswith(c)] and [s.endswith(c)] for a one-character [c]. *)
Definition startswith (c : ascii) (s : string) : bool :=
  match s with
  | String a _ => Ascii.eqb a c
  | EmptyString => false
  end.

Fixpoint endswith (c : ascii) (s : string) : bool :=
  match s with
  | EmptyString => false
  | String a EmptyString => Ascii.eqb a c
  | String _ r => endswith c r
  end.

(** [posixpath.join(a, b)]. *)
Definition join (a b : string) : string :=
  if startswith "/" b then b
  else if bool_decide (a = EmptyString) || endswith "/" a then a +:+ b
  else a +:+ "/" +:+ b.

(** [s.replace(old, new)] for a non-empty [old]: left to right, without
    overlaps; [skip] counts the characters of a match still to be dropped. *)
Fixpoint replace_from (old new s : string) (skip : nat) : string :=
  match s with
  | EmptyString => EmptyString
  | String a r =>
      match skip with
      | S k => replace_from old new r k
      | O =>
          if String.prefix old s
          then new +:+ replace_from old new r (String.length old - 1)
          else String a (replace_from old new r 0)
      end
  end.

Definition replace (old new s : string) : string := replace_from old new s 0.

(** [posixpath.dirname(p)]: the head up to the last separator, with
    trailing separators dropped unless the head consists of them only. *)
Fixpoint str_take (n : nat) (s : string) : string :=
  match n, s with
  | S k, String a r => String a (str_take k r)
  | _, _ => EmptyString
  end.

Fixpoint all_slashes (s : string) : bool :=
  match s with
  | EmptyString => true
  | String a r => Ascii.eqb a "/" && all_slashes r
  end.

Fixpoint rstrip_slashes (s : string) : string :=
  match s with
  | EmptyString => EmptyString
  | String a r => if all_slashes s then EmptyString else String a (rstrip_slashes r)
  end.

Definition dirname (p : string) : string :=
  let head := str_take (Z.to_nat (rfind "/" p + 1)) p in
  if all_slashes head then head else rstrip_slashes head.

(** The double quote character, as text. *)
Definition dquote : string := String "034" EmptyString.

(** No path separator occurs in the string. *)
Fixpoint no_slash (s : string) : bool :=
  match s with
  | EmptyString => true
  | String a r => negb (Ascii.eqb a "/") && no_slash r
  end.

End Path.

(** ** Python values, exceptions and the state monad *)

(** The values a ticket's keyword arguments hold. *)
Inductive pyval :=
  | PStr (s : string)
  | PInt (z : Z)
  | PNone
  | PDict (d : gmap string pyval).

(** The exception classes the submitter raises or lets escape. *)
Inductive exn :=
  | ValueError
  | NotImplementedError
  | RuntimeError
  | KeyError
  | TypeError
  | AttributeError
  | ZeroDivisionError
  | AssertionError
  | UnboundLocalError.

#[global] Instance exn_eq_dec : EqDecision exn.
Proof. solve_decision. Defined.

Inductive outcome (A : Type) :=
  | Returns (a : A)
  | Raises (e : exn).
Arguments Returns {A} a.
Arguments Raises {A} e.

(** A computation over a mutable state [S] that may raise. *)
Definition M (S A : Type) : Type := S → S * outcome A.

Definition ret {S A} (a : A) : M S A := λ s, (s, Returns a).
Definition raise {S A} (e : exn) : M S A := λ s, (s, Raises e).
Definition bind {S A B} (m : M S A) (k : A → M S B) : M S B :=
  λ s, match m s with
       | (s', Returns a) => k a s'
       | (s', Raises e) => (s', Raises e)
       end.
(** Reading a component of the state. *)
Definition gets {S A} (f : S → A) : M S A := λ s, (s, Returns (f s)).
Definition modify {S} (f : S → S) : M S unit := λ s, (f s, Returns tt).
(** A pure step that may raise, lifted into the monad. *)
Definition lift {S A} (o : outcome A) : M S A := λ s, (s, o).

Declare Scope py_scope.
Delimit Scope py_scope with py.
Notation "x <- m ;; k" := (bind m (λ x, k))
  (at level 100, m at next level, right associativity) : py_scope.
Notation "m ;; k" := (bind m (λ _, k))
  (at level 100, right associativity) : py_scope.
Open Scope py_scope.

(** [d[k]] raises [KeyError] on a missing key. *)
Definition getitem (d : gmap string pyval) (k : string) : outcome pyval :=
  match d !! k with
  | Some v => Returns v
  | None => Raises KeyError
  end.

(** ** ClassAd expressions

    The memory and disk requests are ClassAd expressions that HTCondor
    evaluates at every (re)submission of the node.  [_initialize_job]
    writes them as text; the fragment it uses is kept as syntax here,
    [render] gives the text back, and [eval] is the ClassAd evaluation of
    that fragment. *)

Module ClassAd.

Inductive expr :=
  | Lit (z : Z)
  | Attr (name : string)
  | IsUndefined (e : expr)
  | Or (a b : expr)
  | Eq (a b : expr)
  | Add (a b : expr)
  | Mul (a b : expr)
  | IfThenElse (c a b : expr).

Fixpoint render (e : expr) : string :=
  match e with
  | Lit z => pretty z
  | Attr name => name
  | IsUndefined a => "isundefined(" +:+ render a +:+ ")"
  | Or a b => render a +:+ " || " +:+ render b
  | Eq a b => render a +:+ " == " +:+ render b
  | Add a b => "(" +:+ render a +:+ " + " +:+ render b +:+ ")"
  | Mul a b => render a +:+ " * " +:+ render b
  | IfThenElse c a b =>
      "ifthenelse(" +:+ render c +:+ ", " +:+ render a +:+ ", "
        +:+ render b +:+ ")"
  end.

Inductive value :=
  | VInt (z : Z)
  | VBool (b : bool)
  | VUndefined
  | VError.

(** Evaluation in a job ad: an attribute the ad does not define is
    [VUndefined]; [||] is true when its left side is, and looks at the
    right side otherwise; arithmetic and comparison are strict in undefined
    operands. *)
Fixpoint eval (ad : gmap string Z) (e : expr) : value :=
  match e with
  | Lit z => VInt z
  | Attr name =>
      match ad !! name with
      | Some z => VInt z
      | None => VUndefined
      end
  | IsUndefined a =>
      match eval ad a with
      | VUndefined => VBool true
      | VError => VError
      | _ => VBool false
      end
  | Or a b =>
      match eval ad a with
      | VBool true => VBool true
      | VBool false =>
          match eval ad b with
          | VBool y => VBool y
          | VUndefined => VUndefined
          | _ => VError
          end
      | VUndefined =>
          match eval ad b with
          | VBool true => VBool true
          | VBool false | VUndefined => VUndefined
          | _ => VError
          end
      | _ => VError
      end
  | Eq a b =>
      match eval ad a, eval ad b with
      | VInt x, VInt y => VBool (bool_decide (x = y))
      | VBool x, VBool y => VBool (bool_decide (x = y))
      | VError, _ | _, VError => VError
      | VUndefined, _ | _, VUndefined => VUndefined
      | _, _ => VError
      end
  | Add a b =>
      match eval ad a, eval ad b with
      | VInt x, VInt y => VInt (x + y)
      | VError, _ | _, VError => VError
      | VUndefined, _ | _, VUndefined => VUndefined
      | _, _ => VError
      end
  | Mul a b =>
      match eval ad a, eval ad b with
      | VInt x, VInt y => VInt (x * y)
      | VError, _ | _, VError => VError
      | VUndefined, _ | _, VUndefined => VUndefined
      | _, _ => VError
      end
  | IfThenElse c a b =>
      match eval ad c with
      | VBool true => eval ad a
      | VBool false => eval ad b
      | VUndefined => VUndefined
      | _ => VError
      end
  end.

End ClassAd.

(** ** Pegasus objects *)

Inductive namespace := CONDOR | ENV | PEGASUS | SELECTOR.

(** A profile value is text, or one of the ClassAd expressions above. *)
Inductive profile_value :=
  | PText (s : string)
  | PExpr (e : ClassAd.expr).

Definition profile : Type := namespace * string * profile_value.

(** The argument vector of a job: the single name the combine job gets, or
    the escaped values of a rewritten ticket mapping
    ([_extract_all_to_tuple], whose quoting is not modelled: the mapping it
    serialises is kept). *)
Inductive job_args :=
  | NoArgs
  | ArgName (s : string)
  | ArgsOfDict (d : gmap string pyval).

(** [Job]: files are logical file names; an output carries [stage_out]. *)
Record job := Job {
  job_name : string;
  job_profiles : list profile;
  job_inputs : list string;
  job_outputs : list (string * bool);
  job_arguments : job_args;
}.

Definition add_profile (p : profile) (j : job) : job :=
  Job (job_name j) (job_profiles j ++ [p]) (job_inputs j) (job_outputs j)
      (job_arguments j).
Definition add_inputs (fs : list string) (j : job) : job :=
  Job (job_name j) (job_profiles j) (job_inputs j ++ fs) (job_outputs j)
      (job_arguments j).
Definition add_outputs (f : string) (stage_out : bool) (j : job) : job :=
  Job (job_name j) (job_profiles j) (job_inputs j)
      (job_outputs j ++ [(f, stage_out)]) (job_arguments j).
Definition add_args (a : job_args) (j : job) : job :=
  Job (job_name j) (job_profiles j) (job_inputs j) (job_outputs j) a.

Inductive dir_type := SHARED_SCRATCH | LOCAL_STORAGE.

(** [Directory] with its one [FileServer] (operation [ALL]). *)
Record directory := Directory {
  dir_kind : dir_type;
  dir_path : string;
  dir_file_server : string;
}.

Record site := Site {
  site_name : string;
  site_directories : list directory;
  site_profiles : list profile;
}.

Inductive arch := X86_64.

Record transformation := Transformation {
  tr_name : string;
  tr_site : string;
  tr_pfn : string;
  tr_is_stageable : bool;
  tr_arch : arch;
  tr_profiles : list profile;
}.

(** One [add_replica(site, lfn, pfn)] call. *)
Record replica := Replica {
  rep_site : string;
  rep_lfn : string;
  rep_pfn : string;
}.

(** [Workflow]: its jobs in the order [add_jobs] received them, and the
    catalogs once attached. *)
Record workflow := Workflow {
  wf_name : string;
  wf_jobs : list job;
  wf_replica_catalog : option (list replica);
  wf_transformation_catalog : option (list transformation);
  wf_site_catalog : option (list site);
}.

(** The arguments of [Workflow.plan] that [_plan_and_submit] fixes. *)
Record plan_call := Plan {
  plan_submit : bool;
  plan_cluster : list string;
  plan_cleanup : string;
  plan_sites : list string;
  plan_verbose : Z;
  plan_staging_sites : list (string * string);
  plan_output_sites : list string;
  plan_dir : string;
  plan_relative_dir : string;
}.

(** YAML data, as [load_yaml] returns it. *)
Inductive yaml :=
  | YStr (s : string)
  | YInt (z : Z)
  | YDict (items : list (string * yaml))
  | YList (items : list yaml).

(** What the submitter leaves on disk. *)
Inductive effect :=
  | MakeDirs (path : string)
  | DumpYaml (path : string) (data : yaml)
  | WriteTar (path : string) (members : list (string * string))
  | WriteWorkflow (path : string) (w : workflow)
  | WriteGraph (path : string).

(** ** The submitter *)

(** The attributes [__init__] sets from the configuration and never
    changes; [combine_n_jobs], [statistical_model_config] and
    [outputfolder] come from the base class. *)
Record config := Config {
  debug : bool;
  combine_n_jobs : Z;
  combine_n_outputs : Z;
  cluster_size : Z;
  request_cpus : Z;
  request_memory : Z;
  request_disk : Z;
  combine_disk : Z;
  singularity_image : string;
  top_dir : string;
  work_dir : string;
  template_path : option string;
  config_file_path : string;
  statistical_model_config : string;
  workflow_id : string;
}.

(** What a shelled-out command did. *)
Inductive shell_result :=
  | ShellTimeout
  | ShellExit (code : Z) (outerr : string).

(** The surroundings the submitter reads: the file system, the process
    environment and the helper programs. *)
Record world := World {
  path_exists : string → bool;
  environ : gmap string string;
  getuser : string;
  (** [os.walk(path)]: one [(dirpath, dirnames, filenames)] per directory *)
  os_walk : string → list (string * list string * list string);
  shell_run : string → shell_result;
  (** Python's [int] on the text a command printed *)
  parse_int : string → option Z;
  load_yaml : string → outcome yaml;
}.

(** The attributes that change after [__init__].  [files] holds the
    [File] handles [f_template_tarball], [f_limit_threshold], ... under
    their attribute names; an attribute not yet assigned is absent. *)
Record state := State {
  added_limit_threshold : bool;
  limit_threshold : option pyval;
  modified_statistical_model_config : option string;
  x509_user_proxy : option string;
  files : gmap string string;
  wf : option workflow;
  sc : option (list site);
  tc : option (list transformation);
  rc : option (list replica);
  planned : option plan_call;
  effects : list effect;
}.

(** The state [__init__] leaves. *)
Definition init_state : state :=
  State false None None None ∅ None None None None None [].

Definition set_added_limit_threshold (b : bool) (s : state) : state :=
  State b (limit_threshold s) (modified_statistical_model_config s)
    (x509_user_proxy s) (files s) (wf s) (sc s) (tc s) (rc s) (planned s)
    (effects s).
Definition set_limit_threshold (v : pyval) (s : state) : state :=
  State (added_limit_threshold s) (Some v)
    (modified_statistical_model_config s) (x509_user_proxy s) (files s)
    (wf s) (sc s) (tc s) (rc s) (planned s) (effects s).
Definition set_modified_statistical_model_config (p : string) (s : state)
  : state :=
  State (added_limit_threshold s) (limit_threshold s) (Some p)
    (x509_user_proxy s) (files s) (wf s) (sc s) (tc s) (rc s) (planned s)
    (effects s).
Definition set_x509_user_proxy (p : option string) (s : state) : state :=
  State (added_limit_threshold s) (limit_threshold s)
    (modified_statistical_model_config s) p (files s) (wf s) (sc s) (tc s)
    (rc s) (planned s) (effects s).
Definition set_file (attr lfn : string) (s : state) : state :=
  State (added_limit_threshold s) (limit_threshold s)
    (modified_statistical_model_config s) (x509_user_proxy s)
    (<[attr := lfn]> (files s)) (wf s) (sc s) (tc s) (rc s) (planned s)
    (effects s).
Definition set_wf (w : workflow) (s : state) : state :=
  State (added_limit_threshold s) (limit_threshold s)
    (modified_statistical_model_config s) (x509_user_proxy s) (files s)
    (Some w) (sc s) (tc s) (rc s) (planned s) (effects s).
Definition set_sc (c : list site) (s : state) : state :=
  State (added_limit_threshold s) (limit_threshold s)
    (modified_statistical_model_config s) (x509_user_proxy s) (files s)
    (wf s) (Some c) (tc s) (rc s) (planned s) (effects s).
Definition set_tc (c : list transformation) (s : state) : state :=
  State (added_limit_threshold s) (limit_threshold s)
    (modified_statistical_model_config s) (x509_user_proxy s) (files s)
    (wf s) (sc s) (Some c) (rc s) (planned s) (effects s).
Definition set_rc (c : list replica) (s : state) : state :=
  State (added_limit_threshold s) (limit_threshold s)
    (modified_statistical_model_config s) (x509_user_proxy s) (files s)
    (wf s) (sc s) (tc s) (Some c) (planned s) (effects s).
Definition set_planned (p : plan_call) (s : state) : state :=
  State (added_limit_threshold s) (limit_threshold s)
    (modified_statistical_model_config s) (x509_user_proxy s) (files s)
    (wf s) (sc s) (tc s) (rc s) (Some p) (effects s).
Definition add_effect (e : effect) (s : state) : state :=
  State (added_limit_threshold s) (limit_threshold s)
    (modified_statistical_model_config s) (x509_user_proxy s) (files s)
    (wf s) (sc s) (tc s) (rc s) (planned s) (effects s ++ [e]).

(** Reading an attribute that was never assigned raises. *)
Definition attr {A} (f : state → option A) : M state A :=
  λ s, match f s with
       | Some a => (s, Returns a)
       | None => (s, Raises AttributeError)
       end.
Definition file_attr (name : string) : M state string :=
  attr (λ s, files s !! name).

(** [os.environ[k]]. *)
Definition environ_get (w : world) (k : string) : outcome string :=
  match environ w !! k with
  | Some v => Returns v
  | None => Raises KeyError
  end.

(** A ticket, as [_reorganize_script] sees it once the script is
    tokenised: [script.split()[1]] and the keyword arguments
    [Submitter.runner_kwargs_from_script(shlex.split(script)[2:])] decodes
    (the decoder belongs to the base class). *)
Record ticket := Ticket {
  ticket_executable : string;
  ticket_kwargs : gmap string pyval;
}.

(** The loop variables of [_generate_workflow]; [combine_job] refers to a
    job of the workflow by its position, since the workflow holds the very
    object the loop goes on mutating. *)
Record locals := Locals {
  combine_i : Z;
  new_to_combine : bool;
  combine_job : option nat;
}.

(** [s.endswith(suffix)]. *)
Definition str_endswith (suffix s : string) : bool :=
  bool_decide (String.length suffix ≤ String.length s)%nat
  && String.eqb
       (String.substring (String.length s - String.length suffix)
          (String.length suffix) s)
       suffix.

(** [os.path.basename] of a Python value: only text has a base name. *)
Definition basename_of (v : pyval) : outcome string :=
  match v with
  | PStr p => Returns (Path.basename p)
  | _ => Raises TypeError
  end.

(** A value used where text is expected (a file name, a path). *)
Definition as_text (v : pyval) : outcome string :=
  match v with
  | PStr p => Returns p
  | _ => Raises TypeError
  end.

(** [v.keys()] exists on dictionaries only. *)
Definition keys_of (v : pyval) : outcome (gmap string pyval) :=
  match v with
  | PDict d => Returns d
  | _ => Raises AttributeError
  end.

(** [v[k] = ...] is item assignment, which only a dictionary supports. *)
Definition setitem_target (v : pyval) : outcome (gmap string pyval) :=
  match v with
  | PDict d => Returns d
  | _ => Raises TypeError
  end.

(** [v in ["generate_and_store", "generate"]]. *)
Definition supported_toydata_mode (v : pyval) : bool :=
  match v with
  | PStr m => String.eqb m "generate_and_store" || String.eqb m "generate"
  | _ => false
  end.

Definition is_generate_and_store (v : pyval) : bool :=
  match v with
  | PStr m => String.eqb m "generate_and_store"
  | _ => false
  end.

(** The recursive helper of [_modify_yaml]: every [template_filename]
    entry of a mapping becomes [value.split("/")[-1]], the text after the
    last separator, which is what [Path.basename] computes. *)
Fixpoint update_template_filenames (node : yaml) : outcome yaml :=
  match node with
  | YDict items =>
      let fix go (l : list (string * yaml)) : outcome (list (string * yaml)) :=
        match l with
        | [] => Returns []
        | (key, value) :: rest =>
            let updated :=
              if String.eqb key "template_filename" then
                match value with
                | YStr p => Returns (YStr (Path.basename p))
                | _ => Raises AttributeError
                end
              else update_template_filenames value in
            match updated with
            | Raises e => Raises e
            | Returns value' =>
                match go rest with
                | Raises e => Raises e
                | Returns rest' => Returns ((key, value') :: rest')
                end
            end
        end in
      match go items with
      | Raises e => Raises e
      | Returns items' => Returns (YDict items')
      end
  | YList items =>
      let fix go (l : list yaml) : outcome (list yaml) :=
        match l with
        | [] => Returns []
        | item :: rest =>
            match update_template_filenames item with
            | Raises e => Raises e
            | Returns item' =>
                match go rest with
                | Raises e => Raises e
                | Returns rest' => Returns (item' :: rest')
                end
            end
        end in
      match go items with
      | Raises e => Raises e
      | Returns items' => Returns (YList items')
      end
  | _ => Returns node
  end.

(** The request that grows with the retry count of the DAG node:
    [ifthenelse(isundefined(DAGNodeRetry) || DAGNodeRetry == 0, base,
    (DAGNodeRetry + 1) * base)]. *)
Definition retry_scaled (base : Z) : ClassAd.expr :=
  ClassAd.IfThenElse
    (ClassAd.Or (ClassAd.IsUndefined (ClassAd.Attr "DAGNodeRetry"))
       (ClassAd.Eq (ClassAd.Attr "DAGNodeRetry") (ClassAd.Lit 0)))
    (ClassAd.Lit base)
    (ClassAd.Mul
       (ClassAd.Add (ClassAd.Attr "DAGNodeRetry") (ClassAd.Lit 1))
       (ClassAd.Lit base)).

(** The text [_initialize_job] formats. *)
Definition retry_scaled_str (base : Z) : string :=
  "ifthenelse(isundefined(DAGNodeRetry) || "
    +:+ "DAGNodeRetry == 0, " +:+ pretty base
    +:+ ", (DAGNodeRetry + 1) * " +:+ pretty base +:+ ")".

(** The value of a request at a given retry count; [None] is the first
    submission outside of a retry, where the attribute is not defined. *)
Definition request_at (base : Z) (attempt : option Z) : ClassAd.value :=
  ClassAd.eval
    (match attempt with
     | Some a => {["DAGNodeRetry" := a]}
     | None => ∅
     end)
    (retry_scaled base).

(** [_initialize_job]. *)
Definition _initialize_job (name : string) (run_on_submit_node : bool)
    (cores memory disk : Z) : job :=
  let job := Job name [] [] [] NoArgs in
  let job := add_profile (CONDOR, "request_cpus", PText (pretty cores)) job in
  if run_on_submit_node then
    add_profile (SELECTOR, "execution_site", PText "local") job
  else
    let job :=
      add_profile (CONDOR, "request_disk", PExpr (retry_scaled disk)) job in
    add_profile (CONDOR, "request_memory", PExpr (retry_scaled memory)) job.

Section SubmitterHTCondor.

Context (self : config) (w : world).

(** The directories [__init__] derives from the workflow id. *)
Definition generated_dir : string :=
  Path.join (Path.join (work_dir self) "generated") (workflow_id self).
Definition runs_dir : string :=
  Path.join (Path.join (work_dir self) "runs") (workflow_id self).
Definition outputs_dir : string :=
  Path.join (Path.join (work_dir self) "outputs") (workflow_id self).

Definition template_tarball : string :=
  Path.join generated_dir "templates.tar.gz".
Definition workflow_file : string := Path.join generated_dir "workflow.yml".

(** The [requirements] property. *)
Definition requirements : string :=
  let _requirements :=
    "HAS_SINGULARITY && HAS_CVMFS_xenon_opensciencegrid_org"
      +:+ " && PORT_2880 && PORT_8000 && PORT_27017"
      +:+ " && (Microarch >= " +:+ Path.dquote +:+ "x86_64-v3" +:+ Path.dquote
      +:+ ")" in
  if debug self then
    _requirements +:+ " && GLIDEIN_ResourceName == "
      +:+ Path.dquote +:+ "MWT2" +:+ Path.dquote +:+ " "
  else _requirements.

Definition _get_file_name (file_path : string) : string :=
  Path.basename file_path.

(** [_validate_x509_proxy]: the proxy must be set and live for
    [min_valid_hours] more hours.  The seconds the helper prints are
    divided by 60 twice and compared with the hours; on integers that is
    the comparison with [min_valid_hours * 60 * 60] written here. *)
Definition _validate_x509_proxy (min_valid_hours : Z) : M state unit :=
  let proxy := environ w !! "X509_USER_PROXY" in
  modify (set_x509_user_proxy proxy);;
  match proxy with
  | None | Some EmptyString => raise AssertionError
  | Some p =>
      match shell_run w ("grid-proxy-info -timeleft -file " +:+ p) with
      | ShellTimeout => raise RuntimeError
      | ShellExit code outerr =>
          if bool_decide (code ≠ 0%Z) then raise RuntimeError
          else
            match parse_int w outerr with
            | None => raise ValueError
            | Some seconds =>
                if (seconds <? min_valid_hours * 60 * 60)%Z
                then raise RuntimeError
                else ret tt
            end
      end
  end.

(** [_validate_template_path]; what it logs is left out. *)
Definition _validate_template_path : M state unit :=
  match template_path self with
  | None => raise ValueError
  | Some p => if path_exists w p then ret tt else raise ValueError
  end.

(** The file names [os.walk] meets below the template path, in order. *)
Definition walked_files (top : string) : list string :=
  concat (map (λ entry, entry.2) (os_walk w top)).

(** [_check_filename_unique]. *)
Definition _check_filename_unique : M state unit :=
  match template_path self with
  | None => raise TypeError
  | Some p =>
      let all_files := walked_files p in
      if bool_decide
           (length all_files ≠ size (list_to_set all_files : gset string))
      then raise RuntimeError
      else ret tt
  end.

(** [_tar_h5_files]: every [.h5] file of the tree goes into the archive
    under its bare name.  The archive is opened before the walk starts, so
    a missing directory argument leaves an empty archive behind. *)
Definition _tar_h5_files (directory : option string)
    (output_filename : string) : M state unit :=
  match directory with
  | None =>
      modify (add_effect (WriteTar output_filename []));;
      raise TypeError
  | Some top =>
      let members :=
        concat
          (map
             (λ entry : string * list string * list string,
                map (λ filename,
                       (Path.join entry.1.1 filename,
                        Path.basename filename))
                  (filter (λ filename, str_endswith ".h5" filename = true)
                     entry.2))
             (os_walk w top)) in
      modify (add_effect (WriteTar output_filename members))
  end.

Definition _make_template_tarball : M state unit :=
  _tar_h5_files (template_path self) template_tarball.

(** [_modify_yaml]: the model configuration with bare template names is
    written next to the workflow, under the name of the original with
    [_modified] before the extension. *)
Definition _modify_yaml : M state unit :=
  let _output_file :=
    Path.replace ".yaml" "_modified.yaml"
      (_get_file_name (statistical_model_config self)) in
  let modified := Path.join generated_dir _output_file in
  modify (set_modified_statistical_model_config modified);;
  data <- lift (load_yaml w (statistical_model_config self));;
  data' <- lift (update_template_filenames data);;
  modify (add_effect (DumpYaml modified data')).

(** [_generate_sc]. *)
Definition _generate_sc : outcome (list site) :=
  let scratch := work_dir self +:+ "/scratch/" +:+ workflow_id self in
  let outputs := work_dir self +:+ "/outputs/" +:+ workflow_id self in
  match environ_get w "HOME", environ_get w "USER",
        environ_get w "X509_USER_PROXY" with
  | Raises e, _, _ => Raises e
  | _, Raises e, _ => Raises e
  | _, _, Raises e => Raises e
  | Returns home, Returns user, Returns proxy =>
      let local :=
        Site "local"
          [Directory SHARED_SCRATCH scratch ("file:///" +:+ scratch);
           Directory LOCAL_STORAGE outputs ("file:///" +:+ outputs)]
          [(ENV, "HOME", PText home);
           (ENV, "GLOBUS_LOCATION", PText EmptyString);
           (ENV, "PATH",
            PText
              ("/cvmfs/xenon.opensciencegrid.org/releases/nT/development/anaconda/envs/XENONnT_development/bin:"
               +:+ "/cvmfs/xenon.opensciencegrid.org/releases/nT/development/anaconda/condabin:/usr/bin:/bin"));
           (ENV, "LD_LIBRARY_PATH",
            PText
              ("/cvmfs/xenon.opensciencegrid.org/releases/nT/development/anaconda/envs/XENONnT_development/lib64:"
               +:+ "/cvmfs/xenon.opensciencegrid.org/releases/nT/development/anaconda/envs/XENONnT_development/lib"));
           (ENV, "PEGASUS_SUBMITTING_USER", PText user);
           (ENV, "X509_USER_PROXY", PText proxy)] in
      let staging_davs :=
        Site "staging-davs"
          [Directory SHARED_SCRATCH ("/xenon/scratch/" +:+ getuser w)
             ("gsidavs://xenon-gridftp.grid.uchicago.edu:2880/xenon/scratch/"
              +:+ getuser w)]
          [] in
      let condorpool :=
        Site "condorpool" []
          [(PEGASUS, "style", PText "condor");
           (CONDOR, "universe", PText "vanilla");
           (CONDOR, "+SingularityImage",
            PText (Path.dquote +:+ singularity_image self +:+ Path.dquote));
           (ENV, "OSG_LOCATION", PText EmptyString);
           (ENV, "GLOBUS_LOCATION", PText EmptyString);
           (ENV, "PYTHONPATH", PText EmptyString);
           (ENV, "PERL5LIB", PText EmptyString);
           (ENV, "LD_LIBRARY_PATH", PText EmptyString);
           (ENV, "PEGASUS_SUBMITTING_USER", PText user);
           (CONDOR, "x509userproxy", PText proxy)] in
      Returns [local; staging_davs; condorpool]
  end.

(** [_generate_tc]; [top_dir] is an absolute, resolved path. *)
Definition _generate_tc : list transformation :=
  let run_toymc_wrapper :=
    Transformation "run_toymc_wrapper" "local"
      (top_dir self +:+ "/alea/submitters/run_toymc_wrapper.sh") true X86_64
      [(PEGASUS, "clusters_size", PText (pretty (cluster_size self)))] in
  let combine :=
    Transformation "combine" "local"
      (top_dir self +:+ "/alea/submitters/combine.sh") true X86_64 [] in
  [run_toymc_wrapper; combine].

(** [ReplicaCatalog.add_replica] on [self.rc]. *)
Definition rc_add_replica (site lfn pfn : string) : M state unit :=
  c <- attr rc;;
  modify (set_rc (c ++ [Replica site lfn pfn])).

(** [_generate_rc]: the six inputs every job shares.  The catalog is a
    local object until the caller stores it; the [File] handles are
    attributes at once. *)
Definition _generate_rc : M state (list replica) :=
  let rc := [] in
  modify (set_file "f_template_tarball" (_get_file_name template_tarball));;
  let rc :=
    rc ++ [Replica "local" (_get_file_name template_tarball)
             ("file://" +:+ template_tarball)] in
  modify (set_file "f_running_configuration"
            (_get_file_name (config_file_path self)));;
  let rc :=
    rc ++ [Replica "local" (_get_file_name (config_file_path self))
             ("file://" +:+ config_file_path self)] in
  modified <- attr modified_statistical_model_config;;
  modify (set_file "f_statistical_model_config" (_get_file_name modified));;
  let rc :=
    rc ++ [Replica "local" (_get_file_name modified)
             ("file://" +:+ modified)] in
  modify (set_file "f_run_toymc_wrapper" "run_toymc_wrapper.sh");;
  let rc :=
    rc ++ [Replica "local" "run_toymc_wrapper.sh"
             ("file://" +:+ top_dir self
              +:+ "/alea/submitters/run_toymc_wrapper.sh")] in
  modify (set_file "f_alea_run_toymc" "alea_run_toymc");;
  let rc :=
    rc ++ [Replica "local" "alea_run_toymc"
             ("file://" +:+ top_dir self +:+ "/bin/alea_run_toymc")] in
  modify (set_file "f_combine" "combine.sh");;
  let rc :=
    rc ++ [Replica "local" "combine.sh"
             ("file://" +:+ top_dir self
              +:+ "/alea/submitters/combine.sh")] in
  ret rc.

(** [Workflow.add_jobs] on [self.wf]; the position of the job is the
    handle the caller keeps. *)
Definition wf_add_jobs (j : job) : M state nat :=
  g <- attr wf;;
  modify (set_wf (Workflow (wf_name g) (wf_jobs g ++ [j])
                    (wf_replica_catalog g) (wf_transformation_catalog g)
                    (wf_site_catalog g)));;
  ret (length (wf_jobs g)).

(** A method call on a job the workflow already holds. *)
Definition update_job (handle : nat) (f : job → job) : M state unit :=
  g <- attr wf;;
  modify (set_wf (Workflow (wf_name g) (alter f handle (wf_jobs g))
                    (wf_replica_catalog g) (wf_transformation_catalog g)
                    (wf_site_catalog g))).

(** [_add_combine_job]. *)
Definition _add_combine_job (combine_i : Z) : M state nat :=
  let combine_name := "combine" in
  let combine_job :=
    _initialize_job combine_name false (request_cpus self)
      (request_memory self * 2) (combine_disk self) in
  let combine_job :=
    add_profile (CONDOR, "requirements", PText requirements) combine_job in
  let combine_job :=
    add_outputs
      (workflow_id self +:+ "-" +:+ pretty combine_i
         +:+ "-combined_output.tar.gz")
      true combine_job in
  let combine_job :=
    add_args (ArgName (workflow_id self +:+ "-" +:+ pretty combine_i))
      combine_job in
  wf_add_jobs combine_job.

(** [_add_limit_threshold]. *)
Definition _add_limit_threshold : M state unit :=
  threshold <- attr limit_threshold;;
  name <- lift (basename_of threshold);;
  modify (set_file "f_limit_threshold" name);;
  pfn <- lift (as_text threshold);;
  rc_add_replica "local" name ("file://" +:+ pfn);;
  modify (set_added_limit_threshold true).

(** [_correct_paths_args_dict]. *)
Definition _correct_paths_args_dict (args_dict : gmap string pyval)
  : M state (gmap string pyval) :=
  model_args <- lift (getitem args_dict "statistical_model_args");;
  model_args <- lift (setitem_target model_args);;
  let model_args := <["template_path" := PStr "templates/"]> model_args in
  model_args <-
    match model_args !! "limit_threshold" with
    | Some threshold =>
        limit_threshold <- lift (basename_of threshold);;
        ret (<["limit_threshold" := PStr limit_threshold]> model_args)
    | None => ret model_args
    end;;
  let args_dict :=
    <["statistical_model_args" := PDict model_args]> args_dict in
  toydata <- lift (getitem args_dict "toydata_filename");;
  toydata <- lift (basename_of toydata);;
  let args_dict := <["toydata_filename" := PStr toydata]> args_dict in
  output <- lift (getitem args_dict "output_filename");;
  output <- lift (basename_of output);;
  let args_dict := <["output_filename" := PStr output]> args_dict in
  modified <- attr modified_statistical_model_config;;
  ret (<["statistical_model_config" := PStr (_get_file_name modified)]>
         args_dict).

(** [_reorganize_script]. *)
Definition _reorganize_script (script : ticket)
  : M state (string * gmap string pyval) :=
  let executable := _get_file_name (ticket_executable script) in
  let args_dict := ticket_kwargs script in
  added <- gets added_limit_threshold;;
  (if added then ret tt
   else
     model_args <- lift (getitem args_dict "statistical_model_args");;
     keys <- lift (keys_of model_args);;
     match keys !! "limit_threshold" with
     | Some threshold =>
         modify (set_limit_threshold threshold);;
         _add_limit_threshold
     | None => ret tt
     end);;
  args_dict <- _correct_paths_args_dict args_dict;;
  ret (executable, args_dict).

(** The body of the loop of [_generate_workflow] for the ticket at
    position [job_id]. *)
Definition ticket_step (name : string) (job_id : Z) (script : ticket)
    (l : locals) : M state locals :=
  combine_job <-
    (if new_to_combine l then
       handle <- _add_combine_job (combine_i l);;
       ret (Some handle)
     else ret (combine_job l));;
  reorganized <- _reorganize_script script;;
  let '(executable, args_dict) := reorganized in
  toydata_mode <- lift (getitem args_dict "toydata_mode");;
  if negb (supported_toydata_mode toydata_mode) then
    raise NotImplementedError
  else
    let job :=
      _initialize_job name false (request_cpus self) (request_memory self)
        (request_disk self) in
    let job :=
      add_profile (CONDOR, "requirements", PText requirements) job in
    f_template_tarball <- file_attr "f_template_tarball";;
    f_running_configuration <- file_attr "f_running_configuration";;
    f_statistical_model_config <- file_attr "f_statistical_model_config";;
    f_run_toymc_wrapper <- file_attr "f_run_toymc_wrapper";;
    f_alea_run_toymc <- file_attr "f_alea_run_toymc";;
    f_combine <- file_attr "f_combine";;
    let job :=
      add_inputs
        [f_template_tarball; f_running_configuration;
         f_statistical_model_config; f_run_toymc_wrapper; f_alea_run_toymc;
         f_combine]
        job in
    added <- gets added_limit_threshold;;
    job <-
      (if added then
         f_limit_threshold <- file_attr "f_limit_threshold";;
         ret (add_inputs [f_limit_threshold] job)
       else ret job);;
    output_filename <- lift (getitem args_dict "output_filename");;
    output_filename <- lift (as_text output_filename);;
    let job := add_outputs output_filename false job in
    handle <-
      match combine_job with
      | Some handle => ret handle
      | None => raise UnboundLocalError
      end;;
    update_job handle (add_inputs [output_filename]);;
    job <-
      (if is_generate_and_store toydata_mode then
         toydata_filename <- lift (getitem args_dict "toydata_filename");;
         toydata_filename <- lift (as_text toydata_filename);;
         update_job handle (add_inputs [toydata_filename]);;
         ret (add_outputs toydata_filename false job)
       else ret job);;
    let job := add_args (ArgsOfDict args_dict) job in
    wf_add_jobs job;;
    if bool_decide (combine_n_outputs self = 0%Z) then
      raise ZeroDivisionError
    else if bool_decide (((job_id + 1) `mod` combine_n_outputs self)%Z = 0%Z)
    then ret (Locals (combine_i l + 1) true combine_job)
    else ret (Locals (combine_i l) false combine_job).

(** The loop over [enumerate(self.combined_tickets_generator())]. *)
Fixpoint tickets_loop (name : string) (job_id : Z) (tickets : list ticket)
    (l : locals) : M state locals :=
  match tickets with
  | [] => ret l
  | script :: rest =>
      l' <- ticket_step name job_id script l;;
      tickets_loop name (job_id + 1) rest l'
  end.

(** [_generate_workflow]; [tickets] is what the ticket generator of the
    base class yields. *)
Definition _generate_workflow (name : string) (tickets : list ticket)
  : M state unit :=
  if bool_decide (combine_n_jobs self ≠ 1%Z) then raise ValueError
  else
    modify (set_wf (Workflow "alea_workflow" [] None None None));;
    sites <- lift _generate_sc;;
    modify (set_sc sites);;
    modify (set_tc _generate_tc);;
    replicas <- _generate_rc;;
    modify (set_rc replicas);;
    tickets_loop name 0 tickets (Locals 0 true None);;
    g <- attr wf;;
    replicas <- attr rc;;
    transformations <- attr tc;;
    sites <- attr sc;;
    let g :=
      Workflow (wf_name g) (wf_jobs g) (Some replicas)
        (Some transformations) (Some sites) in
    modify (set_wf g);;
    modify (add_effect (WriteWorkflow workflow_file g)).

(** [_plan_and_submit]; the monitoring properties of [pegasus_config] go
    to the planner as they are and are left out. *)
Definition _plan_and_submit : M state unit :=
  _ <- attr wf;;
  modify (set_planned
            (Plan (negb (debug self)) ["horizontal"] "none" ["condorpool"]
               (if debug self then 3 else 0)
               [("condorpool", "staging-davs")] ["local"]
               (Path.dirname runs_dir) (workflow_id self))).

(** [submit]. *)
Definition submit (tickets : list ticket) : M state unit :=
  if path_exists w runs_dir then raise RuntimeError
  else
    _validate_x509_proxy 20;;
    modify (add_effect (MakeDirs generated_dir));;
    modify (add_effect (MakeDirs runs_dir));;
    modify (add_effect (MakeDirs outputs_dir));;
    _modify_yaml;;
    _validate_template_path;;
    _check_filename_unique;;
    _make_template_tarball;;
    _generate_workflow "run_toymc_wrapper" tickets;;
    _plan_and_submit;;
    if debug self then
      modify (add_effect
                (WriteGraph (Path.join outputs_dir "workflow_graph.dot")));;
      modify (add_effect
                (WriteGraph (Path.join outputs_dir "workflow_graph.svg")))
    else ret tt.

End SubmitterHTCondor.

(** ** Notions the statements use *)

(** Some file name occurs in two different directories of a walk. *)
Definition same_name_in_two_directories
    (walk : list (string * list string * list string)) : Prop :=
  ∃ i j entry1 entry2 filename,
    i ≠ j ∧ walk !! i = Some entry1 ∧ walk !! j = Some entry2
    ∧ filename ∈ entry1.2 ∧ filename ∈ entry2.2.

(** The template archive is an effect of the given kind. *)
Definition is_archive (e : effect) : bool :=
  match e with
  | WriteTar _ _ => true
  | _ => false
  end.

(** The steps of [submit] before the archive leave the workflow alone and
    write no archive. *)
Definition before_archive (s0 s : state) : Prop :=
  wf s = wf s0
  ∧ ∀ e, e ∈ effects s → is_archive e = true → e ∈ effects s0.

(** The jobs of the workflow under construction. *)
Definition jobs_of (s : state) : list job :=
  match wf s with
  | Some g => wf_jobs g
  | None => []
  end.

(** The jobs of a given transformation, in the order they were added. *)
Definition jobs_named (name : string) (jobs : list job) : list job :=
  filter (λ j, job_name j = name) jobs.

(** The logical names of the files a job declares as outputs. *)
Definition output_names (j : job) : list string := (job_outputs j).*1.

(** [l[lo:hi]]. *)
Definition slice {A} (lo hi : nat) (l : list A) : list A :=
  take (hi - lo) (drop lo l).

(** The threshold file a ticket names, if any. *)
Definition threshold_of (t : ticket) : option pyval :=
  match ticket_kwargs t !! "statistical_model_args" with
  | Some (PDict d) => d !! "limit_threshold"
  | _ => None
  end.

(** The files the job of a ticket declares as outputs: the result, and
    the toy data when the mode stores them. *)
Definition ticket_outputs (t : ticket) : list string :=
  match ticket_kwargs t !! "output_filename" with
  | Some (PStr output) =>
      Path.basename output ::
      match ticket_kwargs t !! "toydata_mode",
            ticket_kwargs t !! "toydata_filename" with
      | Some mode, Some (PStr toydata) =>
          if is_generate_and_store mode then [Path.basename toydata] else []
      | _, _ => []
      end
  | _ => []
  end.

(** What [_add_limit_threshold] does to the state for the path [p]. *)
Definition register_threshold (p : string) (s : state) : state :=
  set_added_limit_threshold true
    (set_rc
       (default [] (rc s)
        ++ [Replica "local" (Path.basename p) ("file://" +:+ p)])
       (set_file "f_limit_threshold" (Path.basename p)
          (set_limit_threshold (PStr p) s))).

(** The state [_reorganize_script] leaves when it returns: the threshold
    of the ticket is registered if none was before. *)
Definition after_reorganize (t : ticket) (s : state) : state :=
  if added_limit_threshold s then s
  else
    match threshold_of t with
    | Some (PStr p) => register_threshold p s
    | _ => s
    end.

(** The job [_add_combine_job] adds for the cohort [combine_i]. *)
Definition combine_job_of (self : config) (combine_i : Z) : job :=
  add_args (ArgName (workflow_id self +:+ "-" +:+ pretty combine_i))
    (add_outputs
       (workflow_id self +:+ "-" +:+ pretty combine_i
          +:+ "-combined_output.tar.gz") true
       (add_profile (CONDOR, "requirements", PText (requirements self))
          (_initialize_job "combine" false (request_cpus self)
             (request_memory self * 2) (combine_disk self)))).

(** The attributes holding the inputs every compute job shares. *)
Definition shared_files : list string :=
  ["f_template_tarball"; "f_running_configuration";
   "f_statistical_model_config"; "f_run_toymc_wrapper"; "f_alea_run_toymc";
   "f_combine"].

Definition shared_inputs (s : state) : list string :=
  omap (λ name, files s !! name) shared_files.

(** The input a compute job gets on top once a threshold is registered. *)
Definition threshold_input (s : state) : list string :=
  if added_limit_threshold s
  then option_list (files s !! "f_limit_threshold")
  else [].

Definition with_jobs (g : workflow) (jobs : list job) : workflow :=
  Workflow (wf_name g) jobs (wf_replica_catalog g)
    (wf_transformation_catalog g) (wf_site_catalog g).

(** The replicas [_generate_rc] registers, given the path of the
    rewritten model configuration. *)
Definition base_replicas (self : config) (modified : string) : list replica :=
  [Replica "local" (Path.basename (template_tarball self))
     ("file://" +:+ template_tarball self);
   Replica "local" (Path.basename (config_file_path self))
     ("file://" +:+ config_file_path self);
   Replica "local" (Path.basename modified) ("file://" +:+ modified);
   Replica "local" "run_toymc_wrapper.sh"
     ("file://" +:+ top_dir self +:+ "/alea/submitters/run_toymc_wrapper.sh");
   Replica "local" "alea_run_toymc"
     ("file://" +:+ top_dir self +:+ "/bin/alea_run_toymc");
   Replica "local" "combine.sh"
     ("file://" +:+ top_dir self +:+ "/alea/submitters/combine.sh")].

(** The inputs every compute job shares. *)
Definition base_inputs (self : config) (modified : string) : list string :=
  [Path.basename (template_tarball self);
   Path.basename (config_file_path self);
   Path.basename modified;
   "run_toymc_wrapper.sh"; "alea_run_toymc"; "combine.sh"].

(** The state at the start of the loop of [_generate_workflow]. *)
Definition loop_start (self : config) (sites : list site) (modified : string)
    (s : state) : state :=
  set_rc (base_replicas self modified)
    (set_file "f_combine" "combine.sh"
       (set_file "f_alea_run_toymc" "alea_run_toymc"
          (set_file "f_run_toymc_wrapper" "run_toymc_wrapper.sh"
             (set_file "f_statistical_model_config" (Path.basename modified)
                (set_file "f_running_configuration"
                   (Path.basename (config_file_path self))
                   (set_file "f_template_tarball"
                      (Path.basename (template_tarball self))
                      (set_tc (_generate_tc self)
                         (set_sc sites
                            (set_wf
                               (Workflow "alea_workflow" [] None None None)
                               s))))))))).

(** The workflow [_generate_workflow] writes from the state the loop left. *)
Definition finished_workflow (s : state) : workflow :=
  Workflow (default EmptyString (wf_name <$> wf s)) (jobs_of s) (rc s) (tc s)
    (sc s).

(** The cohorts after the tickets [ts], for cohorts of [k] jobs: the
    compute jobs are those of the tickets, in order; cohort [i] has the
    combine job number [i], whose inputs are the outputs of the tickets
    [i * k], ..., [i * k + k - 1] as far as they have come; the loop
    variables say where the next job goes. *)
Definition cohort_inv (self : config) (name : string) (k : nat)
    (ts : list ticket) (s : state) (l : locals) : Prop :=
  ∃ q r,
    length ts = q * k + r ∧ r < k
    ∧ output_names <$> jobs_named name (jobs_of s) = ticket_outputs <$> ts
    ∧ length (jobs_named "combine" (jobs_of s))
      = (if decide (r = 0) then q else S q)
    ∧ (∀ i c, jobs_named "combine" (jobs_of s) !! i = Some c →
         job_inputs c = concat (ticket_outputs <$> take k (drop (i * k) ts))
         ∧ job_arguments c
           = ArgName (workflow_id self +:+ "-" +:+ pretty (Z.of_nat i)))
    ∧ new_to_combine l = bool_decide (r = 0)
    ∧ combine_i l = Z.of_nat q
    ∧ (r ≠ 0 →
       ∃ pre c post,
         combine_job l = Some (length pre)
         ∧ jobs_of s = pre ++ c :: post
         ∧ job_name c = "combine"
         ∧ Forall (λ j, job_name j = name) post).

(** The mapping [_correct_paths_args_dict] returns for a ticket whose
    [statistical_model_args] are [model_args] and whose toy data and output
    files are [toydata] and [output], when the rewritten model
    configuration lies at [modified]. *)
Definition rewritten_model_args (model_args : gmap string pyval)
  : gmap string pyval :=
  let with_templates :=
    <["template_path" := PStr "templates/"]> model_args in
  match model_args !! "limit_threshold" with
  | Some (PStr p) =>
      <["limit_threshold" := PStr (Path.basename p)]> with_templates
  | _ => with_templates
  end.

Definition rewritten_args (modified toydata output : string)
    (model_args args : gmap string pyval) : gmap string pyval :=
  <["statistical_model_config" := PStr (Path.basename modified)]>
    (<["output_filename" := PStr (Path.basename output)]>
       (<["toydata_filename" := PStr (Path.basename toydata)]>
          (<["statistical_model_args" :=
               PDict (rewritten_model_args model_args)]> args))).

(** A ticket [_reorganize_script] can rewrite: it has a mapping of model
    arguments, whose threshold (if any) is text, and text for the toy data
    and output files. *)
Definition rewritable (args : gmap string pyval) : Prop :=
  ∃ model_args toydata output,
    args !! "statistical_model_args" = Some (PDict model_args)
    ∧ (∀ v, model_args !! "limit_threshold" = Some v → ∃ p, v = PStr p)
    ∧ args !! "toydata_filename" = Some (PStr toydata)
    ∧ args !! "output_filename" = Some (PStr output).

(** The path of the first threshold file the tickets name. *)
Fixpoint first_threshold (ts : list ticket) : option string :=
  match ts with
  | [] => None
  | t :: rest =>
      match threshold_of t with
      | Some (PStr p) => Some p
      | _ => first_threshold rest
      end
  end.

(** The replica and the input that come with a registered threshold. *)
Definition threshold_replicas (threshold : option string) : list replica :=
  match threshold with
  | Some p => [Replica "local" (Path.basename p) ("file://" +:+ p)]
  | None => []
  end.

Definition threshold_names (threshold : option string) : list string :=
  match threshold with
  | Some p => [Path.basename p]
  | None => []
  end.

(** The registration after the tickets [ts], started without a
    threshold: the flag is up as soon as a ticket named one, the first
    one named is the one registered, once, and the inputs every job
    shares are as they were. *)
Definition registration_inv (base : list replica) (shared : list string)
    (ts : list ticket) (s : state) : Prop :=
  added_limit_threshold s = bool_decide (is_Some (first_threshold ts))
  ∧ threshold_input s = threshold_names (first_threshold ts)
  ∧ rc s = Some (base ++ threshold_replicas (first_threshold ts))
  ∧ shared_inputs s = shared
  ∧ Forall (λ t, ∀ v, threshold_of t = Some v → ∃ p, v = PStr p) ts.

(** The inputs of the compute jobs after the tickets [ts]: the shared
    ones, and the threshold file from the first ticket naming one on. *)
Definition inputs_inv (name : string) (shared : list string)
    (ts : list ticket) (s : state) : Prop :=
  length (jobs_named name (jobs_of s)) = length ts
  ∧ ∀ j job, jobs_named name (jobs_of s) !! j = Some job →
      job_inputs job
      = shared ++ threshold_names (first_threshold (take (S j) ts)).

(** ** Notions for the model configuration and for whole runs *)

(** The loops of [update_template_filenames] over the entries of a
    mapping and over the items of a list. *)
Definition update_entry (key : string) (value : yaml) : outcome yaml :=
  if String.eqb key "template_filename" then
    match value with
    | YStr p => Returns (YStr (Path.basename p))
    | _ => Raises AttributeError
    end
  else update_template_filenames value.

Fixpoint update_items (l : list (string * yaml))
  : outcome (list (string * yaml)) :=
  match l with
  | [] => Returns []
  | (key, value) :: rest =>
      match update_entry key value with
      | Raises e => Raises e
      | Returns value' =>
          match update_items rest with
          | Raises e => Raises e
          | Returns rest' => Returns ((key, value') :: rest')
          end
      end
  end.

Fixpoint update_list (l : list yaml) : outcome (list yaml) :=
  match l with
  | [] => Returns []
  | item :: rest =>
      match update_template_filenames item with
      | Raises e => Raises e
      | Returns item' =>
          match update_list rest with
          | Raises e => Raises e
          | Returns rest' => Returns (item' :: rest')
          end
      end
  end.

(** Every [template_filename] entry the rewriting reaches is text without
    a directory. *)
Fixpoint bare_templates (node : yaml) : bool :=
  match node with
  | YDict items =>
      forallb
        (λ '(key, value),
           if String.eqb key "template_filename" then
             match value with
             | YStr p => Path.no_slash p
             | _ => false
             end
           else bare_templates value)
        items
  | YList items => forallb bare_templates items
  | _ => true
  end.

Definition bare_entry (kv : string * yaml) : bool :=
  if String.eqb kv.1 "template_filename" then
    match kv.2 with
    | YStr p => Path.no_slash p
    | _ => false
    end
  else bare_templates kv.2.

(** Every [template_filename] entry the rewriting reaches is text. *)
Fixpoint text_templates (node : yaml) : bool :=
  match node with
  | YDict items =>
      forallb
        (λ '(key, value),
           if String.eqb key "template_filename" then
             match value with
             | YStr _ => true
             | _ => false
             end
           else text_templates value)
        items
  | YList items => forallb text_templates items
  | _ => true
  end.

Definition text_entry (kv : string * yaml) : bool :=
  if String.eqb kv.1 "template_filename" then
    match kv.2 with
    | YStr _ => true
    | _ => false
    end
  else text_templates kv.2.

(** A computation started in a state satisfying [P] ends in a state
    satisfying [Q] when it returns and [E] when it raises. *)
Definition triple {S A} (P : S → Prop) (m : M S A) (Q : A → S → Prop)
    (E : exn → S → Prop) : Prop :=
  ∀ s, P s →
    match m s with
    | (s', Returns a) => Q a s'
    | (s', Raises e) => E e s'
    end.

(** The exceptions [_generate_workflow] lets escape. *)
Definition workflow_error (e : exn) : Prop :=
  e = ValueError ∨ e = KeyError ∨ e = TypeError ∨ e = AttributeError
  ∨ e = NotImplementedError ∨ e = ZeroDivisionError.

(** What the construction of the workflow leaves alone: the files on
    disk, the plan, the proxy, the rewritten model configuration. *)
Definition untouched (s0 s : state) : Prop :=
  effects s = effects s0 ∧ planned s = planned s0
  ∧ x509_user_proxy s = x509_user_proxy s0
  ∧ modified_statistical_model_config s
    = modified_statistical_model_config s0.

(** A step of the construction: what is [untouched] stays so, whatever
    the outcome, and a failure is a [workflow_error]. *)
Definition kept {A} (s0 : state) (m : M state A) : Prop :=
  triple (untouched s0) m (λ _, untouched s0)
    (λ e s, untouched s0 s ∧ workflow_error e).

(** The compute job the loop builds for a ticket. *)
Definition compute_job_of (self : config) (name : string)
    (inputs outputs : list string) (args : gmap string pyval) : job :=
  Job name
    [(CONDOR, "request_cpus", PText (pretty (request_cpus self)));
     (CONDOR, "request_disk", PExpr (retry_scaled (request_disk self)));
     (CONDOR, "request_memory", PExpr (retry_scaled (request_memory self)));
     (CONDOR, "requirements", PText (requirements self))]
    inputs ((λ f, (f, false)) <$> outputs) (ArgsOfDict args).

(** The state in which a ticket can be processed: the workflow and the
    catalogs exist, the model configuration is rewritten, the six shared
    files have their handles, and so has the threshold file once
    registered. *)
Definition ready (s : state) : Prop :=
  is_Some (wf s) ∧ is_Some (rc s) ∧ is_Some (tc s) ∧ is_Some (sc s)
  ∧ is_Some (modified_statistical_model_config s)
  ∧ length (shared_inputs s) = 6
  ∧ (added_limit_threshold s = true →
     is_Some (files s !! "f_limit_threshold")).

(** A ticket the loop accepts: its arguments can be rewritten and its toy
    data mode is supported. *)
Definition accepted (t : ticket) : Prop :=
  rewritable (ticket_kwargs t)
  ∧ ∃ mode, ticket_kwargs t !! "toydata_mode" = Some mode
            ∧ supported_toydata_mode mode = true.

(** The variables [_generate_sc] reads from the environment. *)
Definition site_variables : list string :=
  ["HOME"; "USER"; "X509_USER_PROXY"].

(** A directory is served under its own path. *)
Definition served_under_path (d : directory) : Prop :=
  ∃ prefix, dir_file_server d = prefix +:+ dir_path d.

(** A replica lies on the submit host and its logical name is the base
    name of the file it points to. *)
Definition named_after_file (r : replica) : Prop :=
  rep_site r = "local"
  ∧ ∃ path, rep_pfn r = "file://" +:+ path ∧ rep_lfn r = Path.basename path.

(** What [submit] puts on disk when it goes through, in order. *)
Definition submitted_effects (self : config) (modified : string)
    (data : yaml) (members : list (string * string)) (g : workflow)
  : list effect :=
  [MakeDirs (generated_dir self); MakeDirs (runs_dir self);
   MakeDirs (outputs_dir self); DumpYaml modified data;
   WriteTar (template_tarball self) members;
   WriteWorkflow (workflow_file self) g]
  ++ (if debug self
      then [WriteGraph (Path.join (outputs_dir self) "workflow_graph.dot");
            WriteGraph (Path.join (outputs_dir self) "workflow_graph.svg")]
      else []).

(** The plan [_plan_and_submit] asks for. *)
Definition plan_of (self : config) : plan_call :=
  Plan (negb (debug self)) ["horizontal"] "none" ["condorpool"]
    (if debug self then 3 else 0) [("condorpool", "staging-davs")] ["local"]
    (Path.dirname (runs_dir self)) (workflow_id self).

(** The state [submit] has reached when the proxy is checked and the
    directories are made. *)
Definition directories_made (self : config) (w : world) (s : state) : state :=
  add_effect (MakeDirs (outputs_dir self))
    (add_effect (MakeDirs (runs_dir self))
       (add_effect (MakeDirs (generated_dir self))
          (set_x509_user_proxy (environ w !! "X509_USER_PROXY") s))).

(** A combine job as [_add_combine_job] made it, with the inputs it has
    got since. *)
Definition combine_shaped (self : config) (j : job) : Prop :=
  ∃ i inputs, j = add_inputs inputs (combine_job_of self i).

(** A compute job as the loop made it for some ticket, with the shared
    inputs first and the arguments of the ticket rewritten. *)
Definition compute_shaped (self : config) (name modified : string) (j : job)
  : Prop :=
  ∃ t model_args toydata output more,
    ticket_kwargs t !! "statistical_model_args" = Some (PDict model_args)
    ∧ ticket_kwargs t !! "toydata_filename" = Some (PStr toydata)
    ∧ ticket_kwargs t !! "output_filename" = Some (PStr output)
    ∧ j = compute_job_of self name (base_inputs self modified ++ more)
            (ticket_outputs t)
            (rewritten_args modified toydata output model_args
               (ticket_kwargs t)).

(** What the loop keeps true of the workflow under construction: the site
    and transformation catalogs are the ones it started with, the model
    configuration and the shared file handles too, the replica catalog
    starts with the six shared replicas and goes on with replicas named
    after their files, and every job is a combine job or a compute job. *)
Definition built_inv (self : config) (name : string) (sites : list site)
    (modified : string) (s : state) : Prop :=
  sc s = Some sites
  ∧ tc s = Some (_generate_tc self)
  ∧ modified_statistical_model_config s = Some modified
  ∧ shared_inputs s = base_inputs self modified
  ∧ (∃ more, rc s = Some (base_replicas self modified ++ more)
             ∧ Forall named_after_file more)
  ∧ Forall (λ j, combine_shaped self j ∨ compute_shaped self name modified j)
      (jobs_of s).

(** The configuration with another cohort size. *)
Definition with_combine_n_outputs (k : Z) (self : config) : config :=
  Config (debug self) (combine_n_jobs self) k (cluster_size self)
    (request_cpus self) (request_memory self) (request_disk self)
    (combine_disk self) (singularity_image self) (top_dir self)
    (work_dir self) (template_path self) (config_file_path self)
    (statistical_model_config self) (workflow_id self).

(** ** Sample inputs

    A small configuration, its surroundings and a few tickets, on which
    the statements below are exercised. *)

Module Sample.

Definition self : config :=
  Config false 1 2 1 1 2000 2000000 20000000 "image" "/opt/alea"
    "/scratch/user/workflows" (Some "/home/user/templates")
    "/home/user/run.yaml" "/home/user/model.yaml" "lq".

(** The same, asking for native combination of two jobs. *)
Definition self_combining : config :=
  Config false 2 2 1 1 2000 2000000 20000000 "image" "/opt/alea"
    "/scratch/user/workflows" (Some "/home/user/templates")
    "/home/user/run.yaml" "/home/user/model.yaml" "lq".

Definition environment : gmap string string :=
  <["HOME" := "/home/user"]>
    (<["USER" := "user"]> (<["X509_USER_PROXY" := "/tmp/x509"]> ∅)).

Definition model_yaml : yaml :=
  YDict
    [("likelihood_terms",
      YList
        [YDict [("template_filename", YStr "/home/user/templates/a/a.h5")]])].

(** Two templates with different names in two subdirectories. *)
Definition tree : list (string * list string * list string) :=
  [("/home/user/templates", ["a"; "b"], []);
   ("/home/user/templates/a", [], ["a.h5"]);
   ("/home/user/templates/b", [], ["b.h5"; "notes.txt"])].

(** Two templates with one name in two subdirectories. *)
Definition clashing_tree : list (string * list string * list string) :=
  [("/home/user/templates", ["a"; "b"], []);
   ("/home/user/templates/a", [], ["x.h5"]);
   ("/home/user/templates/b", [], ["x.h5"])].

Definition world_with (run_dir_exists : bool)
    (walk : list (string * list string * list string)) : world :=
  World
    (λ p, String.eqb p "/home/user/templates"
          || (run_dir_exists && String.eqb p "/scratch/user/workflows/runs/lq"))
    environment "user" (λ _, walk)
    (λ _, ShellExit 0 "80000") (λ _, Some 80000%Z)
    (λ _, Returns model_yaml).

Definition w : world := world_with false tree.
Definition w_clashing : world := world_with false clashing_tree.
Definition w_resubmitted : world := world_with true tree.

Definition model_args (threshold : option string) : gmap string pyval :=
  let d : gmap string pyval :=
    <["template_path" := PStr "/home/user/templates"]> ∅ in
  match threshold with
  | Some p => <["limit_threshold" := PStr p]> d
  | None => d
  end.

Definition kwargs (mode output : string) (threshold : option string)
  : gmap string pyval :=
  <["toydata_mode" := PStr mode]>
    (<["toydata_filename" := PStr ("/data/toy/" +:+ output)]>
       (<["output_filename" := PStr ("/data/out/" +:+ output)]>
          (<["statistical_model_config" := PStr "/home/user/model.yaml"]>
             (<["n_mc" := PInt 10]>
                (<["statistical_model_args" := PDict (model_args threshold)]>
                   ∅))))).

Definition mk_ticket (mode output : string) (threshold : option string)
  : ticket :=
  Ticket "/opt/alea/bin/alea_run_toymc" (kwargs mode output threshold).

(** Five supported tickets; the second and the fourth name a threshold
    file. *)
Definition tickets : list ticket :=
  [mk_ticket "generate" "r0.h5" None;
   mk_ticket "generate_and_store" "r1.h5" (Some "/lt/thresholds.json");
   mk_ticket "generate" "r2.h5" None;
   mk_ticket "generate" "r3.h5" (Some "/lt/other.json");
   mk_ticket "generate_and_store" "r4.h5" None].

(** A ticket with a toy data mode the submitter does not support. *)
Definition reading_ticket : ticket := mk_ticket "read" "r9.h5" None.

(** The state once [_modify_yaml] has run. *)
Definition prepared : state := (_modify_yaml self w init_state).1.

End Sample.
(** * Properties *)

(** ** Paths *)

Module PathFacts.
Import Path.

Lemma append_nil_l s : EmptyString +:+ s = s.
Proof. reflexivity. Qed.

Lemma append_cons a r s : String a r +:+ s = String a (r +:+ s).
Proof. reflexivity. Qed.

Lemma rfind_from_lower c s i last :
  (-1 ≤ last)%Z → (0 ≤ i)%Z → (-1 ≤ rfind_from c s i last)%Z.
Proof.
  revert i last. induction s as [|a r IH]; intros i last Hl Hi; simpl; [done|].
  apply IH; [destruct (Ascii.eqb a c)|]; lia.
Qed.

(** The scan from position [i] is the scan from [0], shifted. *)
Lemma rfind_from_shift c s i last :
  rfind_from c s i last =
  if bool_decide (rfind c s = -1)%Z then last else (i + rfind c s)%Z.
Proof.
  unfold rfind. revert i last.
  induction s as [|a r IH]; intros i last; simpl; [done|].
  rewrite (IH (i + 1)%Z), (IH 1%Z).
  pose proof (rfind_from_lower c r 0 (-1) ltac:(lia) ltac:(lia)) as Hlow.
  destruct (Ascii.eqb a c); repeat case_bool_decide; lia.
Qed.

Lemma rfind_cons c a r :
  rfind c (String a r) =
  if bool_decide (rfind c r = -1)%Z
  then (if Ascii.eqb a c then 0 else -1)%Z
  else (1 + rfind c r)%Z.
Proof. unfold rfind at 1. simpl. by rewrite rfind_from_shift. Qed.

Lemma rfind_no_slash s : no_slash s = true → rfind "/" s = (-1)%Z.
Proof.
  induction s as [|a r IH]; simpl; [done|].
  intros [Ha Hr]%andb_true_iff. rewrite rfind_cons, (IH Hr).
  rewrite bool_decide_eq_true_2 by done.
  by destruct (Ascii.eqb a "/").
Qed.

Lemma rfind_upper c s : (rfind c s < Z.of_nat (String.length s))%Z.
Proof.
  induction s as [|a r IH]; [done|].
  rewrite rfind_cons. simpl String.length.
  case_bool_decide; destruct (Ascii.eqb a c); lia.
Qed.

Lemma basename_cons a r :
  basename (String a r) =
  if bool_decide (rfind "/" r = -1)%Z
  then (if Ascii.eqb a "/" then r else String a r)
  else basename r.
Proof.
  unfold basename. rewrite rfind_cons.
  pose proof (rfind_from_lower "/" r 0 (-1) ltac:(lia) ltac:(lia)) as Hlow.
  fold (rfind "/" r) in Hlow.
  case_bool_decide as Hr.
  - by destruct (Ascii.eqb a "/").
  - replace (Z.to_nat (1 + rfind "/" r + 1)) with (S (Z.to_nat (rfind "/" r + 1))) by lia.
    done.
Qed.

(** A name without separators is its own base name. *)
Lemma basename_no_slash s : no_slash s = true → basename s = s.
Proof. intros Hs. unfold basename. by rewrite rfind_no_slash. Qed.

Lemma rfind_app_slash d n :
  no_slash n = true → rfind "/" (d +:+ String "/" n) = Z.of_nat (String.length d).
Proof.
  intros Hn.
  induction d as [|a r IH]; rewrite ?append_nil_l, ?append_cons;
    cbn [String.length].
  - rewrite rfind_cons, rfind_no_slash by done. done.
  - rewrite rfind_cons, IH. rewrite bool_decide_eq_false_2 by lia. lia.
Qed.

(** The base name of [d/n] is [n]: the directory does not matter. *)
Lemma basename_app_slash d n :
  no_slash n = true → basename (d +:+ String "/" n) = n.
Proof.
  intros Hn. unfold basename. rewrite rfind_app_slash by done.
  replace (Z.to_nat (Z.of_nat (String.length d) + 1)) with (S (String.length d)) by lia.
  induction d as [|a r IH]; rewrite ?append_nil_l, ?append_cons; done.
Qed.

(** A base name holds no separator. *)
Lemma no_slash_basename p : no_slash (basename p) = true.
Proof.
  induction p as [|a r IH]; [done|].
  rewrite basename_cons. case_bool_decide as Hr; [|done].
  assert (no_slash r = true) as Hns.
  { clear IH. induction r as [|b r IH]; [done|]. simpl.
    rewrite rfind_cons in Hr. case_bool_decide as Hr'; [|
      pose proof (rfind_from_lower "/" r 0 (-1) ltac:(lia) ltac:(lia)); unfold rfind in *; lia].
    destruct (Ascii.eqb b "/"); [done|]. simpl. by apply IH. }
  destruct (Ascii.eqb a "/") eqn:Ha; [done|]. simpl. by rewrite Ha.
Qed.

Lemma no_slash_app a b :
  no_slash (a +:+ b) = (no_slash a && no_slash b).
Proof.
  induction a as [|c r IH]; rewrite ?append_nil_l, ?append_cons; [done|].
  cbn [no_slash]. rewrite IH. by rewrite andb_assoc.
Qed.

Lemma no_slash_replace_from old new s k :
  no_slash new = true → no_slash s = true →
  no_slash (replace_from old new s k) = true.
Proof.
  intros Hnew. revert k. induction s as [|a r IH]; intros k; [done|].
  cbn [no_slash replace_from]. intros [Ha Hr]%andb_true_iff.
  destruct k as [|k]; [|by apply IH].
  destruct (String.prefix old (String a r)).
  - rewrite no_slash_app, Hnew. by apply IH.
  - cbn [no_slash]. rewrite Ha. by apply IH.
Qed.

Lemma endswith_slash a :
  endswith "/" a = true → ∃ a', a = a' +:+ "/".
Proof.
  induction a as [|c r IH]; [done|]. simpl.
  destruct r as [|c' r'].
  - intros ->%Ascii.eqb_eq. by exists EmptyString.
  - intros [a' Ha']%IH. exists (String c a'). by rewrite append_cons, <-Ha'.
Qed.

Lemma startswith_no_slash b : no_slash b = true → startswith "/" b = false.
Proof. destruct b as [|c r]; [done|]. simpl. by intros [->%negb_true_iff _]%andb_true_iff. Qed.

Lemma string_app_assoc (a b c : string) : (a +:+ b) +:+ c = a +:+ (b +:+ c).
Proof.
  induction a as [|x r IH]; rewrite ?append_nil_l, ?append_cons; [done|].
  by rewrite IH.
Qed.

(** Joining a bare name to a directory and taking the base name gives
    the name back. *)
Lemma basename_join a b : no_slash b = true → basename (join a b) = b.
Proof.
  intros Hb. unfold join. rewrite startswith_no_slash by done.
  case_bool_decide as Ha; simpl.
  - subst a. by apply basename_no_slash.
  - destruct (endswith "/" a) eqn:He.
    + apply endswith_slash in He as [a' ->].
      rewrite string_app_assoc. by apply basename_app_slash.
    + by apply basename_app_slash.
Qed.

Example basename_examples :
  basename "/data/out/r1.h5" = "r1.h5" ∧ basename "r1.h5" = "r1.h5"
  ∧ basename "/data/out/" = EmptyString.
Proof. by vm_compute. Qed.

Example dirname_examples :
  dirname "/scratch/user/workflows/runs/lq" = "/scratch/user/workflows/runs"
  ∧ dirname "/lq" = "/" ∧ dirname "lq" = EmptyString
  ∧ dirname "/a//b" = "/a".
Proof. by vm_compute. Qed.

Example join_examples :
  join "/a" "b" = "/a/b" ∧ join "/a/" "b" = "/a/b"
  ∧ join EmptyString "b" = "b" ∧ join "/a" "/b" = "/b".
Proof. by vm_compute. Qed.

Example replace_examples :
  replace ".yaml" "_modified.yaml" "model.yaml" = "model_modified.yaml"
  ∧ replace ".yaml" "_modified.yaml" "model.yml" = "model.yml"
  ∧ replace "aa" "b" "aaaaa" = "bba".
Proof. by vm_compute. Qed.

End PathFacts.

(** ** Reasoning about computations *)

Section monad_facts.
Context {S A B : Type}.
Implicit Types (m : M S A) (k : A → M S B).

Lemma bind_returns m k s s' b :
  bind m k s = (s', Returns b) ↔
  ∃ s1 a, m s = (s1, Returns a) ∧ k a s1 = (s', Returns b).
Proof.
  unfold bind. destruct (m s) as [s1 [a|e]]; split.
  - eauto.
  - by intros (? & ? & [= <- <-] & ?).
  - done.
  - by intros (? & ? & [=] & _).
Qed.

Lemma bind_raises m k s s' e :
  bind m k s = (s', Raises e) ↔
  m s = (s', Raises e)
  ∨ ∃ s1 a, m s = (s1, Returns a) ∧ k a s1 = (s', Raises e).
Proof.
  unfold bind. destruct (m s) as [s1 [a|e']]; split.
  - eauto.
  - by intros [[=]|(? & ? & [= <- <-] & ?)].
  - intros [= <- <-]. by left.
  - by intros [[= <- <-]|(? & ? & [=] & _)].
Qed.

Lemma bind_eq_returns m k s s1 a :
  m s = (s1, Returns a) → bind m k s = k a s1.
Proof. unfold bind. by intros ->. Qed.

Lemma bind_eq_raises m k s s1 e :
  m s = (s1, Raises e) → bind m k s = (s1, Raises e).
Proof. unfold bind. by intros ->. Qed.
End monad_facts.

(** ** Job initialisation *)

(** C9: a job initialised with [run_on_submit_node] carries the core
    count and the pin to the local site and nothing else: no memory
    request, no disk request, no requirements, no files. *)
Theorem initialize_job_on_submit_node name cores memory disk :
  let j := _initialize_job name true cores memory disk in
  job_name j = name
  ∧ job_profiles j =
      [(CONDOR, "request_cpus", PText (pretty cores));
       (SELECTOR, "execution_site", PText "local")]
  ∧ (∀ ns key v, (ns, key, v) ∈ job_profiles j →
       key ≠ "request_memory" ∧ key ≠ "request_disk"
       ∧ key ≠ "requirements")
  ∧ job_inputs j = [] ∧ job_outputs j = [] ∧ job_arguments j = NoArgs.
Proof.
  cbn. split_and!; try done.
  intros ns key v Hin.
  apply list_elem_of_In in Hin. cbn in Hin.
  destruct Hin as [[= <- <- <-]|[[= <- <- <-]|[]]]; done.
Qed.

Lemma render_retry_scaled base :
  ClassAd.render (retry_scaled base) = retry_scaled_str base.
Proof.
  unfold retry_scaled, retry_scaled_str. cbn [ClassAd.render].
  rewrite !PathFacts.string_app_assoc.
  rewrite !PathFacts.append_cons, !PathFacts.append_nil_l.
  reflexivity.
Qed.

Example render_retry_scaled_2000 :
  ClassAd.render (retry_scaled 2000)
  = "ifthenelse(isundefined(DAGNodeRetry) || DAGNodeRetry == 0, 2000, (DAGNodeRetry + 1) * 2000)".
Proof. by vm_compute. Qed.

Lemma request_at_first base : request_at base None = ClassAd.VInt base.
Proof. reflexivity. Qed.

Lemma request_at_retry base a :
  request_at base (Some a) =
  ClassAd.VInt (if bool_decide (a = 0)%Z then base else (a + 1) * base)%Z.
Proof.
  unfold request_at, retry_scaled. cbn [ClassAd.eval].
  rewrite lookup_singleton_eq. by case_bool_decide.
Qed.

(** C4: a job that is not pinned to the submit host requests memory and
    disk by the retry-scaled expression, which the text of the source
    denotes; it evaluates to the base on the first run, to
    [(attempt + 1) * base] on retry [attempt >= 1], so to [3 * base] on
    the second retry, and for a base that is not negative it never
    decreases from one attempt to the next. *)
Theorem retry_scaled_requests name cores memory disk base :
  let j := _initialize_job name false cores memory disk in
  (CONDOR, "request_memory", PExpr (retry_scaled memory)) ∈ job_profiles j
  ∧ (CONDOR, "request_disk", PExpr (retry_scaled disk)) ∈ job_profiles j
  ∧ ClassAd.render (retry_scaled base) = retry_scaled_str base
  ∧ request_at base None = ClassAd.VInt base
  ∧ request_at base (Some 0%Z) = ClassAd.VInt base
  ∧ (∀ attempt, (1 ≤ attempt)%Z →
       request_at base (Some attempt) = ClassAd.VInt ((attempt + 1) * base))
  ∧ request_at base (Some 2%Z) = ClassAd.VInt (3 * base)
  ∧ ((0 ≤ base)%Z → ∀ a b, (0 ≤ a ≤ b)%Z →
       ∃ x y, request_at base (Some a) = ClassAd.VInt x
              ∧ request_at base (Some b) = ClassAd.VInt y ∧ (x ≤ y)%Z).
Proof.
  cbn zeta. split_and!.
  - cbn. set_solver.
  - cbn. set_solver.
  - apply render_retry_scaled.
  - apply request_at_first.
  - by rewrite request_at_retry.
  - intros attempt Ha. rewrite request_at_retry.
    by rewrite bool_decide_eq_false_2 by lia.
  - by rewrite request_at_retry.
  - intros Hbase a b Hab. eexists _, _.
    rewrite !request_at_retry. split; [done|split; [done|]].
    repeat case_bool_decide; nia.
Qed.

Lemma retry_scaled_requests_witness :
  request_at 2000 (Some 1%Z) = ClassAd.VInt 4000
  ∧ ∃ x y, request_at 2000 (Some 1%Z) = ClassAd.VInt x
           ∧ request_at 2000 (Some 2%Z) = ClassAd.VInt y ∧ (x ≤ y)%Z.
Proof.
  destruct (retry_scaled_requests "run_toymc_wrapper" 1 2000 2000000 2000)
    as (_ & _ & _ & _ & _ & Hretry & _ & Hmono).
  split.
  - apply (Hretry 1%Z). lia.
  - apply (Hmono ltac:(lia) 1%Z 2%Z). lia.
Defined.

(** ** Pre-flight checks of [submit] and [_generate_workflow] *)

(** C6: with [combine_n_jobs] different from 1, [_generate_workflow]
    raises [ValueError] at once: the state is the one it started from, so
    no workflow, no catalog and no job has been made. *)
Theorem generate_workflow_rejects_combine_n_jobs self w name tickets s :
  combine_n_jobs self ≠ 1%Z →
  _generate_workflow self w name tickets s = (s, Raises ValueError).
Proof.
  intros Hn. unfold _generate_workflow.
  by rewrite bool_decide_eq_true_2.
Qed.

Lemma generate_workflow_rejects_combine_n_jobs_witness :
  _generate_workflow Sample.self_combining Sample.w "run_toymc_wrapper"
    Sample.tickets Sample.prepared
  = (Sample.prepared, Raises ValueError).
Proof.
  apply (generate_workflow_rejects_combine_n_jobs Sample.self_combining).
  vm_compute. discriminate.
Defined.

(** C8: when the run directory is there already, [submit] raises
    [RuntimeError] before anything else happens: the proxy is not looked
    at, no directory is made, nothing is written, no catalog or job is
    built; the state is untouched. *)
Theorem submit_rejects_existing_run_dir self w tickets s :
  path_exists w (runs_dir self) = true →
  submit self w tickets s = (s, Raises RuntimeError).
Proof. intros Hex. unfold submit. by rewrite Hex. Qed.

Lemma submit_rejects_existing_run_dir_witness :
  submit Sample.self Sample.w_resubmitted Sample.tickets init_state
  = (init_state, Raises RuntimeError).
Proof.
  apply (submit_rejects_existing_run_dir Sample.self Sample.w_resubmitted).
  vm_compute. reflexivity.
Defined.

(** *** Unique file names *)

Lemma size_list_to_set_le (l : list string) :
  size (list_to_set l : gset string) ≤ length l.
Proof.
  induction l as [|x l IH]; [done|]. cbn [list_to_set foldr length].
  rewrite size_union_alt, size_singleton.
  assert (size (list_to_set l ∖ {[x]} : gset string)
          ≤ size (list_to_set l : gset string)); [|lia].
  by apply subseteq_size, subseteq_difference_l.
Qed.

(** Python's [len(l) == len(set(l))] says that [l] has no duplicates. *)
Lemma length_eq_size_NoDup (l : list string) :
  length l = size (list_to_set l : gset string) → NoDup l.
Proof.
  induction l as [|x l IH]; [constructor|].
  cbn [list_to_set foldr length]. intros Hlen.
  pose proof (size_list_to_set_le l) as Hle.
  destruct (decide (x ∈ l)) as [Hin|Hout].
  - exfalso.
    rewrite subseteq_union_1_L in Hlen; [lia|].
    by apply singleton_subseteq_l, elem_of_list_to_set.
  - constructor; [done|]. apply IH.
    rewrite size_union, size_singleton in Hlen; [lia|].
    by apply disjoint_singleton_l; rewrite elem_of_list_to_set.
Qed.

Lemma concat_lookup_elem_of {A} (ls : list (list A)) i l x :
  ls !! i = Some l → x ∈ l → x ∈ concat ls.
Proof.
  intros Hi Hx. apply list_elem_of_In, in_concat. exists l.
  split; apply list_elem_of_In; [by eapply list_elem_of_lookup_2|done].
Qed.

Lemma same_name_not_NoDup walk :
  same_name_in_two_directories walk →
  ¬ NoDup (concat (map (λ entry, entry.2) walk)).
Proof.
  intros (i & j & e1 & e2 & f & Hij & Hi & Hj & Hf1 & Hf2) Hnd.
  assert (∀ i j e1 e2, i < j → walk !! i = Some e1 → walk !! j = Some e2 →
            f ∈ e1.2 → f ∈ e2.2 → False) as Hlt.
  { clear -Hnd. intros i j e1 e2 Hlt Hi Hj Hf1 Hf2.
    rewrite <-(take_drop_middle walk i e1 Hi) in Hnd.
    rewrite map_app, concat_app in Hnd. cbn [map concat] in Hnd.
    apply NoDup_app in Hnd as (_ & _ & Hnd).
    apply NoDup_app in Hnd as (_ & Hdisj & _).
    apply (Hdisj f Hf1).
    apply (concat_lookup_elem_of _ (j - S i) e2.2); [|done].
    rewrite list_lookup_fmap, lookup_drop.
    replace (S i + (j - S i)) with j by lia. by rewrite Hj. }
  destruct (decide (i < j)); [by eapply (Hlt i j)|].
  eapply (Hlt j i); [lia|done..].
Qed.

Lemma check_filename_unique_clash self w s p :
  template_path self = Some p →
  same_name_in_two_directories (os_walk w p) →
  _check_filename_unique self w s = (s, Raises RuntimeError).
Proof.
  intros Hp Hclash. unfold _check_filename_unique. rewrite Hp.
  rewrite bool_decide_eq_true_2; [done|].
  intros Hlen. by apply (same_name_not_NoDup _ Hclash), length_eq_size_NoDup.
Qed.

Lemma before_archive_refl s : before_archive s s.
Proof. by split. Qed.

Lemma before_archive_effect s0 s e :
  is_archive e = false → before_archive s0 s →
  before_archive s0 (add_effect e s).
Proof.
  intros He [Hwf Heff]. split; [done|]. cbn.
  intros e' [Hin| ->%list_elem_of_singleton]%elem_of_app Harch.
  - by apply Heff.
  - congruence.
Qed.

Lemma validate_x509_proxy_frame w hours s :
  wf (_validate_x509_proxy w hours s).1 = wf s
  ∧ effects (_validate_x509_proxy w hours s).1 = effects s.
Proof.
  unfold _validate_x509_proxy, bind, modify, raise, ret.
  repeat case_match; done.
Qed.

Lemma modify_yaml_before_archive self w s0 s :
  before_archive s0 s → before_archive s0 (_modify_yaml self w s).1.
Proof.
  intros Hs. unfold _modify_yaml, bind, modify, lift.
  assert (before_archive s0
            (set_modified_statistical_model_config
               (Path.join (generated_dir self)
                  (Path.replace ".yaml" "_modified.yaml"
                     (_get_file_name (statistical_model_config self)))) s))
    as Hs' by done.
  repeat case_match; simplify_eq/=; try done.
  by apply before_archive_effect.
Qed.

(** C7: a template directory that holds one file name in two different
    subdirectories fails the uniqueness check, which looks at the names of
    the whole tree; [submit] then ends in an exception, having written no
    archive and built no workflow. *)
Theorem submit_rejects_clashing_names self w tickets s p :
  template_path self = Some p →
  same_name_in_two_directories (os_walk w p) →
  (∀ s1, _check_filename_unique self w s1 = (s1, Raises RuntimeError))
  ∧ ∃ e, (submit self w tickets s).2 = Raises e
         ∧ wf (submit self w tickets s).1 = wf s
         ∧ ∀ x, x ∈ effects (submit self w tickets s).1 →
                is_archive x = true → x ∈ effects s.
Proof.
  intros Hp Hclash.
  pose proof (λ s1, check_filename_unique_clash self w s1 p Hp Hclash) as Hchk.
  split; [done|].
  cut (∃ s' e, submit self w tickets s = (s', Raises e)
               ∧ before_archive s s').
  { intros (s' & e & -> & ? & ?). eauto. }
  unfold submit. destruct (path_exists w (runs_dir self)).
  { eexists _, _. split; [reflexivity|apply before_archive_refl]. }
  destruct (validate_x509_proxy_frame w 20 s) as [Hwf1 Heff1].
  destruct (_validate_x509_proxy w 20 s) as [s1 [[]|e1]] eqn:H1;
    cbn [fst] in Hwf1, Heff1.
  2:{ rewrite (bind_eq_raises _ _ _ _ _ H1). eexists _, _.
      split; [reflexivity|]. split; [done|]. by rewrite Heff1. }
  rewrite (bind_eq_returns _ _ _ _ _ H1).
  assert (before_archive s s1) as Hs1.
  { split; [done|]. by rewrite Heff1. }
  unfold bind at 1 2 3. cbn [modify].
  set (s2 := add_effect _ (add_effect _ (add_effect _ s1))).
  assert (before_archive s s2) as Hs2.
  { subst s2. by repeat apply before_archive_effect. }
  pose proof (modify_yaml_before_archive self w s s2 Hs2) as Hs3.
  destruct (_modify_yaml self w s2) as [s3 [[]|e3]] eqn:H3; cbn [fst] in Hs3.
  2:{ rewrite (bind_eq_raises _ _ _ _ _ H3). by eexists _, _. }
  rewrite (bind_eq_returns _ _ _ _ _ H3).
  unfold bind at 1. unfold _validate_template_path. rewrite Hp.
  destruct (path_exists w p); cbn [ret raise].
  2:{ by eexists _, _. }
  rewrite (bind_eq_raises _ _ _ _ _ (Hchk s3)). by eexists _, _.
Qed.

Lemma submit_rejects_clashing_names_witness :
  ∃ e, (submit Sample.self Sample.w_clashing Sample.tickets init_state).2
       = Raises e.
Proof.
  destruct (submit_rejects_clashing_names Sample.self Sample.w_clashing
              Sample.tickets init_state "/home/user/templates")
    as (_ & e & He & _).
  - reflexivity.
  - exists 1, 2, ("/home/user/templates/a", [], ["x.h5"]),
      ("/home/user/templates/b", [], ["x.h5"]), "x.h5".
    cbn. split_and!; [lia|done|done|set_solver|set_solver].
  - by exists e.
Defined.

(** ** Rewriting the arguments of a ticket *)

(** The name [_modify_yaml] gives the rewritten model configuration: the
    base name of the configured file, with [_modified] before [.yaml]. *)
Lemma modify_yaml_sets_modified self w s :
  modified_statistical_model_config (_modify_yaml self w s).1
  = Some (Path.join (generated_dir self)
            (Path.replace ".yaml" "_modified.yaml"
               (Path.basename (statistical_model_config self)))).
Proof.
  unfold _modify_yaml, bind, modify, lift, _get_file_name.
  repeat case_match; simplify_eq/=; done.
Qed.

Lemma modified_config_basename self :
  Path.basename
    (Path.join (generated_dir self)
       (Path.replace ".yaml" "_modified.yaml"
          (Path.basename (statistical_model_config self))))
  = Path.replace ".yaml" "_modified.yaml"
      (Path.basename (statistical_model_config self)).
Proof.
  apply PathFacts.basename_join, PathFacts.no_slash_replace_from; [done|].
  apply PathFacts.no_slash_basename.
Qed.

(** On a rewritable mapping [_correct_paths_args_dict] returns, and
    leaves the state alone. *)
Lemma correct_paths_args_dict_runs
    (args model_args : gmap string pyval) s modified toydata output :
  modified_statistical_model_config s = Some modified →
  args !! "statistical_model_args" = Some (PDict model_args) →
  (∀ v, model_args !! "limit_threshold" = Some v → ∃ p, v = PStr p) →
  args !! "toydata_filename" = Some (PStr toydata) →
  args !! "output_filename" = Some (PStr output) →
  _correct_paths_args_dict args s
  = (s, Returns (rewritten_args modified toydata output model_args args)).
Proof.
  intros Hmod Hargs Hthr Htoy Hout.
  unfold _correct_paths_args_dict, _get_file_name.
  unfold bind at 1. unfold lift at 1, getitem at 1. rewrite Hargs.
  unfold bind at 1. unfold lift at 1. cbn [setitem_target].
  set (model_args1 := <["template_path":=PStr "templates/"]> model_args).
  assert (model_args1 !! "limit_threshold" = model_args !! "limit_threshold")
    as Hthr1 by (by apply lookup_insert_ne).
  assert ((match model_args1 !! "limit_threshold" with
           | Some threshold =>
               limit_threshold <- lift (basename_of threshold);;
               ret (<["limit_threshold":=PStr limit_threshold]> model_args1)
           | None => ret model_args1
           end) s = (s, Returns (rewritten_model_args model_args))) as Hstep.
  { rewrite Hthr1. unfold rewritten_model_args. fold model_args1.
    destruct (model_args !! "limit_threshold") as [v|] eqn:Hv; [|done].
    destruct (Hthr v eq_refl) as [p ->]. done. }
  rewrite (bind_eq_returns _ _ _ _ _ Hstep). clear Hstep.
  unfold bind, lift, getitem, attr, ret.
  rewrite lookup_insert_ne, Htoy by done. cbn [basename_of].
  rewrite !lookup_insert_ne, Hout by done. cbn [basename_of].
  by rewrite Hmod.
Qed.

(** C2, as the code has it: [template_path] becomes ["templates/"];
    [limit_threshold] (when present), [toydata_filename] and
    [output_filename] become the base names of the values the ticket gave,
    whatever their directories; [statistical_model_config] becomes the
    base name of the submitter's rewritten model configuration, not of the
    ticket's own value; every other entry, of the mapping and of its
    [statistical_model_args], stays as it was, and the submitter state is
    not touched. *)
Theorem correct_paths_args_dict_spec
    (args model_args : gmap string pyval) s modified toydata output :
  modified_statistical_model_config s = Some modified →
  args !! "statistical_model_args" = Some (PDict model_args) →
  (∀ v, model_args !! "limit_threshold" = Some v → ∃ p, v = PStr p) →
  args !! "toydata_filename" = Some (PStr toydata) →
  args !! "output_filename" = Some (PStr output) →
  ∃ args' model_args' : gmap string pyval,
    _correct_paths_args_dict args s = (s, Returns args')
    ∧ args' !! "statistical_model_args" = Some (PDict model_args')
    ∧ model_args' !! "template_path" = Some (PStr "templates/")
    ∧ (∀ p, model_args !! "limit_threshold" = Some (PStr p) →
         model_args' !! "limit_threshold" = Some (PStr (Path.basename p)))
    ∧ (model_args !! "limit_threshold" = None →
         model_args' !! "limit_threshold" = None)
    ∧ (∀ k, k ≠ "template_path" → k ≠ "limit_threshold" →
         model_args' !! k = model_args !! k)
    ∧ args' !! "toydata_filename" = Some (PStr (Path.basename toydata))
    ∧ args' !! "output_filename" = Some (PStr (Path.basename output))
    ∧ args' !! "statistical_model_config"
      = Some (PStr (Path.basename modified))
    ∧ (∀ k, k ≠ "statistical_model_args" → k ≠ "toydata_filename" →
         k ≠ "output_filename" → k ≠ "statistical_model_config" →
         args' !! k = args !! k)
    ∧ ∀ directory name, Path.no_slash name = true →
        Path.basename (directory +:+ String "/" name) = name.
Proof.
  intros Hmod Hargs Hthr Htoy Hout.
  exists (rewritten_args modified toydata output model_args args),
    (rewritten_model_args model_args).
  unfold rewritten_args, rewritten_model_args.
  split_and!.
  - by apply correct_paths_args_dict_runs.
  - by simplify_map_eq.
  - destruct (model_args !! "limit_threshold") as [[]|]; by simplify_map_eq.
  - intros p Hp. rewrite Hp. by simplify_map_eq.
  - intros Hnone. rewrite Hnone. by simplify_map_eq.
  - intros k Hk1 Hk2.
    destruct (model_args !! "limit_threshold") as [[]|]; by simplify_map_eq.
  - by simplify_map_eq.
  - by simplify_map_eq.
  - by simplify_map_eq.
  - intros k ? ? ? ?. by simplify_map_eq.
  - intros directory name. apply PathFacts.basename_app_slash.
Qed.

Lemma correct_paths_args_dict_spec_witness :
  ∃ args' : gmap string pyval,
    _correct_paths_args_dict
      (Sample.kwargs "generate" "r1.h5" (Some "/lt/thresholds.json"))
      Sample.prepared
    = (Sample.prepared, Returns args')
    ∧ args' !! "output_filename" = Some (PStr (Path.basename "/data/out/r1.h5")).
Proof.
  destruct (correct_paths_args_dict_spec
              (Sample.kwargs "generate" "r1.h5" (Some "/lt/thresholds.json"))
              (Sample.model_args (Some "/lt/thresholds.json"))
              Sample.prepared
              "/scratch/user/workflows/generated/lq/model_modified.yaml"
              "/data/toy/r1.h5" "/data/out/r1.h5")
    as (args' & ? & Hrun & _ & _ & _ & _ & _ & _ & Hout & _).
  - vm_compute. reflexivity.
  - vm_compute. reflexivity.
  - intros v Hv. exists "/lt/thresholds.json". vm_compute in Hv. congruence.
  - vm_compute. reflexivity.
  - vm_compute. reflexivity.
  - by exists args'.
Defined.

(** The ticket's own [statistical_model_config] does not decide the
    rewritten one: a ticket naming [/home/user/model.yaml] ends with
    [model_modified.yaml], not with [model.yaml]. *)
Lemma rewritten_model_config_differs :
  let args := Sample.kwargs "generate" "r0.h5" None in
  args !! "statistical_model_config" = Some (PStr "/home/user/model.yaml")
  ∧ ∃ args' : gmap string pyval,
      _correct_paths_args_dict args Sample.prepared
      = (Sample.prepared, Returns args')
      ∧ args' !! "statistical_model_config"
        = Some (PStr "model_modified.yaml")
      ∧ args' !! "statistical_model_config"
        ≠ Some (PStr (Path.basename "/home/user/model.yaml")).
Proof.
  split; [by vm_compute|].
  eexists. split; [vm_compute; reflexivity|].
  split; [by vm_compute|]. vm_compute. discriminate.
Qed.

(** ** The loop over the tickets *)

(** *** What the primitive steps return *)

Lemma ret_returns {S A} (a b : A) (s s' : S) :
  ret a s = (s', Returns b) → s' = s ∧ b = a.
Proof. by intros [= -> ->]. Qed.

Lemma gets_returns {S A} (f : S → A) (s s' : S) a :
  gets f s = (s', Returns a) → s' = s ∧ a = f s.
Proof. by intros [= -> ->]. Qed.

Lemma lift_returns {S A} (o : outcome A) (s s' : S) a :
  lift o s = (s', Returns a) → s' = s ∧ o = Returns a.
Proof. by intros [= -> ->]. Qed.

Lemma modify_returns {S} (f : S → S) (s s' : S) u :
  modify f s = (s', Returns u) → s' = f s.
Proof. by intros [= ->]. Qed.

Lemma attr_returns {A} (f : state → option A) s s' a :
  attr f s = (s', Returns a) → s' = s ∧ f s = Some a.
Proof. unfold attr. destruct (f s); by intros [= -> ->]. Qed.

Lemma file_attr_returns name s s' a :
  file_attr name s = (s', Returns a) → s' = s ∧ files s !! name = Some a.
Proof. apply (attr_returns (λ s, files s !! name)). Qed.

Lemma wf_add_jobs_returns j s s' handle :
  wf_add_jobs j s = (s', Returns handle) →
  ∃ g, wf s = Some g ∧ handle = length (wf_jobs g)
       ∧ s' = set_wf (with_jobs g (wf_jobs g ++ [j])) s.
Proof.
  unfold wf_add_jobs. intros H.
  apply bind_returns in H as (s1 & g & [-> Hg]%attr_returns & H).
  apply bind_returns in H as (s2 & [] & ->%modify_returns & H).
  apply ret_returns in H as [-> ->]. eauto.
Qed.

Lemma update_job_returns handle f s s' u :
  update_job handle f s = (s', Returns u) →
  ∃ g, wf s = Some g
       ∧ s' = set_wf (with_jobs g (alter f handle (wf_jobs g))) s.
Proof.
  unfold update_job. intros H.
  apply bind_returns in H as (s1 & g & [-> Hg]%attr_returns & H).
  apply modify_returns in H as ->. eauto.
Qed.

Lemma add_combine_job_returns self ci s s' handle :
  _add_combine_job self ci s = (s', Returns handle) →
  ∃ g, wf s = Some g ∧ handle = length (wf_jobs g)
       ∧ s' = set_wf (with_jobs g (wf_jobs g ++ [combine_job_of self ci])) s.
Proof. apply wf_add_jobs_returns. Qed.

Lemma add_limit_threshold_returns s s' u :
  _add_limit_threshold s = (s', Returns u) →
  ∃ p c, limit_threshold s = Some (PStr p) ∧ rc s = Some c
    ∧ s' = set_added_limit_threshold true
             (set_rc
                (c ++ [Replica "local" (Path.basename p) ("file://" +:+ p)])
                (set_file "f_limit_threshold" (Path.basename p) s)).
Proof.
  unfold _add_limit_threshold, rc_add_replica. intros H.
  apply bind_returns in H as (s1 & v & [-> Hv]%attr_returns & H).
  apply bind_returns in H as (s2 & name & [-> Hname]%lift_returns & H).
  apply bind_returns in H as (s3 & [] & ->%modify_returns & H).
  apply bind_returns in H as (s4 & pfn & [-> Hpfn]%lift_returns & H).
  apply bind_returns in H as (s5 & [] & H' & H).
  apply bind_returns in H' as (s6 & c & [-> Hc]%attr_returns & H').
  apply modify_returns in H' as ->. apply modify_returns in H as ->.
  destruct v; simplify_eq/=. eauto.
Qed.

Lemma correct_paths_args_dict_returns (args args' : gmap string pyval) s s' :
  _correct_paths_args_dict args s = (s', Returns args') →
  s' = s
  ∧ args' !! "toydata_mode" = args !! "toydata_mode"
  ∧ ∃ output toydata,
      args !! "output_filename" = Some (PStr output)
      ∧ args !! "toydata_filename" = Some (PStr toydata)
      ∧ args' !! "output_filename" = Some (PStr (Path.basename output))
      ∧ args' !! "toydata_filename" = Some (PStr (Path.basename toydata)).
Proof.
  unfold _correct_paths_args_dict, bind, attr, lift, ret, getitem.
  intros H.
  repeat (case_match; simplify_eq/=).
  all: rewrite !lookup_insert_ne in * by done.
  all: repeat match goal with
         | H : basename_of ?v = Returns _ |- _ => destruct v; simplify_eq/=
         end.
  all: split; [done|]; split; [by simplify_map_eq|].
  all: eexists _, _; split_and!; [done|done|by simplify_map_eq..].
Qed.

Lemma reorganize_script_returns t s s1 r :
  _reorganize_script t s = (s1, Returns r) →
  s1 = after_reorganize t s
  ∧ ∃ args' : gmap string pyval,
      r = (Path.basename (ticket_executable t), args')
      ∧ _correct_paths_args_dict (ticket_kwargs t) s1 = (s1, Returns args').
Proof.
  unfold _reorganize_script. intros H.
  apply bind_returns in H as (s2 & added & [-> ->]%gets_returns & H).
  apply bind_returns in H as (s3 & [] & Hreg & H).
  apply bind_returns in H as (s4 & args' & Hcorr & H).
  apply ret_returns in H as [-> ->].
  pose proof (correct_paths_args_dict_returns _ _ _ _ Hcorr) as [-> _].
  split; [|by eauto].
  unfold after_reorganize, threshold_of.
  destruct (added_limit_threshold s) eqn:Hflag.
  { by apply ret_returns in Hreg as [-> _]. }
  apply bind_returns in Hreg as (s5 & v & [-> Hv]%lift_returns & Hreg).
  apply bind_returns in Hreg as (s6 & d & [-> Hd]%lift_returns & Hreg).
  unfold getitem in Hv.
  destruct (ticket_kwargs t !! "statistical_model_args") as [v'|];
    simplify_eq/=.
  destruct v; simplify_eq/=.
  destruct (d !! "limit_threshold") as [thr|].
  - apply bind_returns in Hreg as (s7 & [] & ->%modify_returns & Hreg).
    apply add_limit_threshold_returns in Hreg as (p & c & Hp & Hc & ->).
    cbn in Hp, Hc. simplify_eq. unfold register_threshold. by rewrite Hc.
  - by apply ret_returns in Hreg as [-> _].
Qed.

Lemma wf_after_reorganize t s : wf (after_reorganize t s) = wf s.
Proof. unfold after_reorganize. by repeat case_match. Qed.

Lemma after_reorganize_set_wf t g s :
  after_reorganize t (set_wf g s) = set_wf g (after_reorganize t s).
Proof. unfold after_reorganize. cbn. by repeat case_match. Qed.

Lemma set_wf_set_wf g g' s : set_wf g (set_wf g' s) = set_wf g s.
Proof. done. Qed.

Lemma alter_add_inputs_twice a b handle (jobs : list job) :
  alter (add_inputs b) handle (alter (add_inputs a) handle jobs)
  = alter (add_inputs (a ++ b)) handle jobs.
Proof.
  rewrite list_alter_alter_eq. apply list_alter_ext; [|done].
  intros j _. unfold add_inputs; cbn. by rewrite <-app_assoc.
Qed.

Lemma ticket_step_returns self name job_id t l s s' l' :
  ticket_step self name job_id t l s = (s', Returns l') →
  ∃ g handle job,
    wf s = Some g
    ∧ (if new_to_combine l then handle = length (wf_jobs g)
       else combine_job l = Some handle)
    ∧ s' = set_wf
             (with_jobs g
                (alter (add_inputs (ticket_outputs t)) handle
                   (wf_jobs g ++
                    (if new_to_combine l
                     then [combine_job_of self (combine_i l)] else []))
                 ++ [job]))
             (after_reorganize t s)
    ∧ job_name job = name
    ∧ output_names job = ticket_outputs t
    ∧ job_inputs job
      = shared_inputs (after_reorganize t s)
        ++ threshold_input (after_reorganize t s)
    ∧ length (shared_inputs (after_reorganize t s)) = 6
    ∧ combine_n_outputs self ≠ 0%Z
    ∧ l' = Locals
             (if bool_decide (((job_id + 1) `mod` combine_n_outputs self)%Z = 0%Z)
              then combine_i l + 1 else combine_i l)%Z
             (bool_decide (((job_id + 1) `mod` combine_n_outputs self)%Z = 0%Z))
             (Some handle).
Proof.
  unfold ticket_step. intros H.
  apply bind_returns in H as (s1 & cj & Hcj & H).
  apply bind_returns in H as (s2 & [exe args'] & Hre & H).
  apply reorganize_script_returns in Hre as (-> & args'' & ? & Hcorr).
  simplify_eq.
  apply correct_paths_args_dict_returns in Hcorr
    as (_ & Hmode & output & toydata & Hout & Htoy & Hout' & Htoy').
  apply bind_returns in H as (s3 & mode & [-> Hm]%lift_returns & H).
  unfold getitem in Hm. rewrite Hmode in Hm.
  destruct (ticket_kwargs t !! "toydata_mode") as [mode'|] eqn:Hmode0;
    simplify_eq/=.
  destruct (supported_toydata_mode mode) eqn:Hsup; simplify_eq/=.
  assert (ticket_outputs t
          = [Path.basename output] ++
            (if is_generate_and_store mode then [Path.basename toydata]
             else [])) as ->.
  { unfold ticket_outputs. by rewrite Hout, Hmode0, Htoy. }
  set (sa := after_reorganize t s1) in *.
  apply bind_returns in H as (? & f1 & [-> Hf1]%file_attr_returns & H).
  apply bind_returns in H as (? & f2 & [-> Hf2]%file_attr_returns & H).
  apply bind_returns in H as (? & f3 & [-> Hf3]%file_attr_returns & H).
  apply bind_returns in H as (? & f4 & [-> Hf4]%file_attr_returns & H).
  apply bind_returns in H as (? & f5 & [-> Hf5]%file_attr_returns & H).
  apply bind_returns in H as (? & f6 & [-> Hf6]%file_attr_returns & H).
  apply bind_returns in H as (? & added & [-> ->]%gets_returns & H).
  apply bind_returns in H as (s4 & job1 & Hjob1 & H).
  apply bind_returns in H as (? & out & [-> Ho]%lift_returns & H).
  unfold getitem in Ho. rewrite Hout' in Ho. simplify_eq.
  apply bind_returns in H as (? & out & [-> Ho]%lift_returns & H).
  cbn in Ho. simplify_eq.
  apply bind_returns in H as (s5 & handle & Hhandle & H).
  apply bind_returns in H as (s6 & [] & Hupd & H).
  apply bind_returns in H as (s7 & job2 & Hjob2 & H).
  apply bind_returns in H as (s8 & ? & Hadd & H).
  destruct cj as [h|]; [apply ret_returns in Hhandle as [-> ->]|done].
  destruct (bool_decide (combine_n_outputs self = 0%Z)) eqn:HK; [done|].
  apply bool_decide_eq_false_1 in HK.
  assert (l' = Locals
             (if bool_decide (((job_id + 1) `mod` combine_n_outputs self)%Z = 0%Z)
              then combine_i l + 1 else combine_i l)%Z
             (bool_decide (((job_id + 1) `mod` combine_n_outputs self)%Z = 0%Z))
             (Some h) ∧ s' = s8) as [-> ->].
  { by case_bool_decide; apply ret_returns in H as [-> ->]. }
  clear H.
  assert (s4 = sa
          ∧ job_name job1 = name ∧ job_outputs job1 = []
          ∧ job_inputs job1 = shared_inputs sa ++ threshold_input sa
          ∧ length (shared_inputs sa) = 6) as (-> & Hn1 & Ho1 & Hi1 & Hlen).
  { unfold shared_inputs, threshold_input, shared_files. cbn [omap].
    cbn [list_omap]. rewrite Hf1, Hf2, Hf3, Hf4, Hf5, Hf6.
    destruct (added_limit_threshold sa).
    - apply bind_returns in Hjob1
        as (? & f7 & [-> Hf7]%file_attr_returns & Hjob1).
      apply ret_returns in Hjob1 as [-> ->]. by rewrite Hf7.
    - by apply ret_returns in Hjob1 as [-> ->]. }
  apply update_job_returns in Hupd as (g5 & Hg5 & ->).
  apply wf_add_jobs_returns in Hadd as (g7 & Hg7 & _ & ->).
  assert (∃ g, wf s = Some g
            ∧ (if new_to_combine l then h = length (wf_jobs g)
               else combine_job l = Some h)
            ∧ sa = set_wf g5 (after_reorganize t s)
            ∧ g5 = with_jobs g
                     (wf_jobs g ++
                      (if new_to_combine l
                       then [combine_job_of self (combine_i l)] else [])))
    as (g & Hg & Hh & Hsa & ->).
  { subst sa. rewrite wf_after_reorganize in Hg5.
    destruct (new_to_combine l).
    - apply bind_returns in Hcj as (? & h' & Hadd & Hret).
      apply ret_returns in Hret as [-> [= ->]].
      apply add_combine_job_returns in Hadd as (g & Hg & -> & ->).
      cbn in Hg5. simplify_eq.
      exists g. by rewrite after_reorganize_set_wf.
    - apply ret_returns in Hcj as [-> ->].
      exists g5. split_and!; try done.
      + rewrite <-(wf_after_reorganize t s) in Hg5.
        destruct (after_reorganize t s). cbn in Hg5. by subst.
      + destruct g5. unfold with_jobs; cbn. by rewrite app_nil_r. }
  rewrite Hsa in *. clear Hsa.
  set (sr := after_reorganize t s) in *.
  set (jobs1 := wf_jobs g ++ _) in *.
  exists g, h.
  destruct (is_generate_and_store mode).
  - apply bind_returns in Hjob2 as (? & v & [-> Hv]%lift_returns & Hjob2).
    unfold getitem in Hv. rewrite Htoy' in Hv. simplify_eq.
    apply bind_returns in Hjob2 as (? & v & [-> Hv]%lift_returns & Hjob2).
    cbn in Hv. simplify_eq.
    apply bind_returns in Hjob2 as (? & [] & Hupd & Hjob2).
    apply update_job_returns in Hupd as (g6 & Hg6 & ->).
    apply ret_returns in Hjob2 as [-> ->].
    cbn in Hg6, Hg7. simplify_eq. cbn.
    eexists. split_and!; [done|done| |..|done|done].
    + unfold with_jobs. cbn. by rewrite alter_add_inputs_twice.
    + done.
    + unfold output_names. cbn. by rewrite Ho1.
    + done.
    + done.
  - apply ret_returns in Hjob2 as [-> ->].
    cbn in Hg7. simplify_eq. cbn.
    eexists. split_and!; [done|done| |..|done|done].
    + done.
    + done.
    + unfold output_names. cbn. by rewrite Ho1.
    + done.
    + done.
Qed.

(** *** Workflow generation around the loop *)

Lemma generate_rc_returns self s s' c :
  _generate_rc self s = (s', Returns c) →
  ∃ modified, modified_statistical_model_config s = Some modified
    ∧ c = base_replicas self modified
    ∧ s' = set_file "f_combine" "combine.sh"
       (set_file "f_alea_run_toymc" "alea_run_toymc"
          (set_file "f_run_toymc_wrapper" "run_toymc_wrapper.sh"
             (set_file "f_statistical_model_config" (Path.basename modified)
                (set_file "f_running_configuration"
                   (Path.basename (config_file_path self))
                   (set_file "f_template_tarball"
                      (Path.basename (template_tarball self)) s))))).
Proof.
  unfold _generate_rc, bind, modify, attr, ret, _get_file_name. cbn.
  destruct (modified_statistical_model_config s) as [m|] eqn:Hm; [|done].
  intros [= <- <-]. eauto.
Qed.

Lemma generate_workflow_returns self w name tickets s s' u :
  _generate_workflow self w name tickets s = (s', Returns u) →
  combine_n_jobs self = 1%Z
  ∧ ∃ sites modified sl l,
      _generate_sc self w = Returns sites
      ∧ modified_statistical_model_config s = Some modified
      ∧ tickets_loop self name 0 tickets (Locals 0 true None)
          (loop_start self sites modified s)
        = (sl, Returns l)
      ∧ (is_Some (wf sl) ∧ is_Some (rc sl))
      ∧ s' = add_effect
               (WriteWorkflow (workflow_file self) (finished_workflow sl))
               (set_wf (finished_workflow sl) sl).
Proof.
  unfold _generate_workflow. case_bool_decide as Hn; [done|].
  intros H. split; [by destruct (decide (combine_n_jobs self = 1%Z))|].
  apply bind_returns in H as (? & [] & ->%modify_returns & H).
  apply bind_returns in H as (? & sites & [-> Hsites]%lift_returns & H).
  apply bind_returns in H as (? & [] & ->%modify_returns & H).
  apply bind_returns in H as (? & [] & ->%modify_returns & H).
  apply bind_returns in H as (? & c & Hrc & H).
  apply generate_rc_returns in Hrc as (modified & Hmod & -> & ->).
  apply bind_returns in H as (? & [] & ->%modify_returns & H).
  apply bind_returns in H as (sl & l & Hloop & H).
  apply bind_returns in H as (? & g & [-> Hg]%attr_returns & H).
  apply bind_returns in H as (? & r & [-> Hr]%attr_returns & H).
  apply bind_returns in H as (? & tr & [-> Htr]%attr_returns & H).
  apply bind_returns in H as (? & si & [-> Hsi]%attr_returns & H).
  apply bind_returns in H as (? & [] & ->%modify_returns & H).
  apply modify_returns in H as ->.
  exists sites, modified, sl, l. split_and!; [done|done|done|by eauto..|].
  unfold finished_workflow, jobs_of. by rewrite Hg, Hr, Htr, Hsi.
Qed.

Lemma tickets_loop_app self name job_id ts1 ts2 l s :
  tickets_loop self name job_id (ts1 ++ ts2) l s
  = (l1 <- tickets_loop self name job_id ts1 l;;
     tickets_loop self name (job_id + Z.of_nat (length ts1)) ts2 l1) s.
Proof.
  revert job_id l s. induction ts1 as [|t ts1 IH]; intros job_id l s.
  - cbn. by rewrite Z.add_0_r.
  - cbn [app tickets_loop length]. unfold bind in *.
    destruct (ticket_step self name job_id t l s) as [s1 [l1|e]]; [|done].
    rewrite IH.
    by replace (job_id + 1 + Z.of_nat (length ts1))%Z
      with (job_id + Z.of_nat (S (length ts1)))%Z by lia.
Qed.

(** An invariant of the loop body holds when the loop returns. *)
Lemma tickets_loop_invariant self name
    (I : list ticket → state → locals → Prop) :
  (∀ ts t s l s' l',
     I ts s l →
     ticket_step self name (Z.of_nat (length ts)) t l s = (s', Returns l') →
     I (ts ++ [t]) s' l') →
  ∀ ts ts0 s l s' l',
    I ts0 s l →
    tickets_loop self name (Z.of_nat (length ts0)) ts l s = (s', Returns l') →
    I (ts0 ++ ts) s' l'.
Proof.
  intros Hstep ts. induction ts as [|t ts IH]; intros ts0 s l s' l' HI Hloop.
  - apply ret_returns in Hloop as [-> ->]. by rewrite app_nil_r.
  - cbn [tickets_loop] in Hloop.
    apply bind_returns in Hloop as (s1 & l1 & Hs & Hloop).
    rewrite (assoc_L _ ts0 [t] ts : ts0 ++ t :: ts = (ts0 ++ [t]) ++ ts).
    apply (IH _ s1 l1); [by eapply Hstep|].
    rewrite length_app. cbn [length].
    by replace (Z.of_nat (length ts0 + 1)) with (Z.of_nat (length ts0) + 1)%Z
      by lia.
Qed.

(** *** Cohorts *)

Section cohorts.
Context (self : config) (name : string) (k : nat).
Hypothesis k_positive : 0 < k.
Hypothesis k_combine_n_outputs : combine_n_outputs self = Z.of_nat k.
Hypothesis name_not_combine : name ≠ "combine".

Lemma cohort_full_test q r :
  r < k →
  bool_decide
    ((Z.of_nat (q * k + r) + 1) `mod` combine_n_outputs self = 0)%Z
  = bool_decide (r + 1 = k).
Proof.
  intros Hr. rewrite k_combine_n_outputs. apply bool_decide_ext.
  replace (Z.of_nat (q * k + r) + 1)%Z
    with (Z.of_nat (r + 1) + Z.of_nat q * Z.of_nat k)%Z by lia.
  rewrite Z.mod_add by lia.
  destruct (decide (r + 1 = k)) as [Heq|Hne].
  - rewrite Heq, Z.mod_same by lia. done.
  - rewrite Z.mod_small by lia. lia.
Qed.

Lemma jobs_named_app n (l1 l2 : list job) :
  jobs_named n (l1 ++ l2) = jobs_named n l1 ++ jobs_named n l2.
Proof. apply filter_app. Qed.

Lemma jobs_named_nil n : jobs_named n [] = [].
Proof. done. Qed.

Lemma jobs_named_cons_eq n j (l : list job) :
  job_name j = n → jobs_named n (j :: l) = j :: jobs_named n l.
Proof. intros. by apply filter_cons_True. Qed.

Lemma jobs_named_cons_ne n j (l : list job) :
  job_name j ≠ n → jobs_named n (j :: l) = jobs_named n l.
Proof. intros. by apply filter_cons_False. Qed.

Lemma jobs_named_all n (l : list job) :
  Forall (λ j, job_name j = n) l → jobs_named n l = l.
Proof.
  induction 1 as [|j l Hj _ IH]; [done|].
  by rewrite jobs_named_cons_eq, IH.
Qed.

Lemma jobs_named_none n m (l : list job) :
  n ≠ m → Forall (λ j, job_name j = m) l → jobs_named n l = [].
Proof.
  intros Hnm. induction 1 as [|j l Hj _ IH]; [done|].
  by rewrite jobs_named_cons_ne, IH by congruence.
Qed.

Local Ltac sort_jobs :=
  repeat first
    [ rewrite jobs_named_app
    | rewrite jobs_named_nil
    | rewrite jobs_named_cons_eq by (cbn; congruence)
    | rewrite jobs_named_cons_ne by (cbn; congruence) ].

Lemma take_drop_snoc_full {A} (ts : list A) t i :
  i * k + k ≤ length ts →
  take k (drop (i * k) (ts ++ [t])) = take k (drop (i * k) ts).
Proof.
  intros Hlen. rewrite drop_app_le by lia.
  rewrite take_app_le; [done|]. rewrite length_drop. lia.
Qed.

Lemma take_drop_snoc_partial {A} (ts : list A) t i :
  i * k ≤ length ts < i * k + k →
  take k (drop (i * k) (ts ++ [t])) = take k (drop (i * k) ts) ++ [t].
Proof.
  intros Hlen. rewrite drop_app_le by lia.
  rewrite !take_ge; [done|rewrite length_drop; lia|].
  rewrite length_app, length_drop. cbn. lia.
Qed.

Lemma cohort_inv_start s g :
  wf s = Some g → wf_jobs g = [] →
  cohort_inv self name k [] s (Locals 0 true None).
Proof.
  intros Hg Hjobs. exists 0, 0. unfold jobs_of. rewrite Hg, Hjobs. cbn.
  split_and!; done.
Qed.

Lemma cohort_inv_step ts t s l s' l' :
  cohort_inv self name k ts s l →
  ticket_step self name (Z.of_nat (length ts)) t l s = (s', Returns l') →
  cohort_inv self name k (ts ++ [t]) s' l'.
Proof.
  intros (q & r & Hn & Hr & Hcomp & Hlen & Hcomb & Hntc & Hci & Hcur) Hstep.
  apply ticket_step_returns in Hstep
    as (g & handle & job & Hg & Hhandle & -> & Hname & Hout & _ & _ & _ & ->).
  unfold jobs_of in *. rewrite Hg in *.
  rewrite Hn, cohort_full_test by done.
  set (f := add_inputs (ticket_outputs t)).
  assert (∀ j, job_name (f j) = job_name j) as Hf by done.
  (* the jobs after the step: all combine jobs but the last as before,
     the last one with the outputs of the ticket on top *)
  assert (∃ before last pre post,
            jobs_named name
              (alter f handle
                 (wf_jobs g ++
                  (if new_to_combine l
                   then [combine_job_of self (combine_i l)] else []))
               ++ [job])
            = jobs_named name (wf_jobs g) ++ [job]
            ∧ jobs_named "combine"
                (alter f handle
                   (wf_jobs g ++
                    (if new_to_combine l
                     then [combine_job_of self (combine_i l)] else []))
                 ++ [job])
              = before ++ [f last]
            ∧ length before = q
            ∧ (∀ i c, before !! i = Some c →
                 jobs_named "combine" (wf_jobs g) !! i = Some c)
            ∧ job_inputs last
              = concat (ticket_outputs <$> take k (drop (q * k) ts))
            ∧ job_arguments last
              = ArgName (workflow_id self +:+ "-" +:+ pretty (Z.of_nat q))
            ∧ handle = length pre
            ∧ alter f handle
                (wf_jobs g ++
                 (if new_to_combine l
                  then [combine_job_of self (combine_i l)] else []))
              ++ [job]
              = pre ++ f last :: post
            ∧ job_name last = "combine"
            ∧ Forall (λ j, job_name j = name) post)
    as (before & last & pre & post & Hcomp' & Hcomb' & Hblen & Hbefore
        & Hlast & Hlarg & Hpre & Hjobs' & Hlname & Hpost).
  { rewrite Hntc in *. case_bool_decide as Hfull.
    - (* a new cohort *)
      subst handle r. rewrite decide_True in Hlen by done.
      replace (length (wf_jobs g)) with (length (wf_jobs g) + 0) by lia.
      rewrite alter_app_r. cbn [alter list_alter].
      exists (jobs_named "combine" (wf_jobs g)),
        (combine_job_of self (combine_i l)), (wf_jobs g), [job].
      split_and!.
      + sort_jobs. by rewrite app_nil_r.
      + sort_jobs. by rewrite app_nil_r.
      + done.
      + done.
      + by rewrite drop_ge, take_nil by lia.
      + cbn. by rewrite Hci.
      + lia.
      + by rewrite <-app_assoc.
      + done.
      + by repeat constructor.
    - (* the cohort under way *)
      destruct (Hcur Hfull) as (pre & c & post & Hh & Hjobs & Hc & Hpost).
      assert (handle = length pre) as -> by congruence.
      rewrite decide_False in Hlen by done.
      rewrite app_nil_r, Hjobs in *.
      replace (length pre) with (length pre + 0) by lia.
      rewrite alter_app_r. cbn [alter list_alter].
      assert (jobs_named "combine" (pre ++ c :: post)
              = jobs_named "combine" pre ++ [c]) as Hcombs.
      { rewrite jobs_named_app, jobs_named_cons_eq by done.
        by rewrite (jobs_named_none "combine" name post). }
      rewrite Hcombs in *.
      rewrite length_app in Hlen. cbn in Hlen.
      assert (length (jobs_named "combine" pre) = q) as Hq by lia.
      exists (jobs_named "combine" pre), c, pre, (post ++ [job]).
      split_and!.
      + sort_jobs. by rewrite <-!app_assoc.
      + sort_jobs.
        by rewrite (jobs_named_none "combine" name post), app_nil_r.
      + done.
      + intros i c' Hi. by apply lookup_app_l_Some.
      + apply (Hcomb q). by rewrite <-Hq, list_lookup_middle.
      + apply (Hcomb q). by rewrite <-Hq, list_lookup_middle.
      + lia.
      + by rewrite <-app_assoc.
      + done.
      + apply Forall_app. split; [done|by repeat constructor]. }
  assert (∃ q' r',
            (if decide (r + 1 = k) then q' = S q ∧ r' = 0
             else q' = q ∧ r' = S r)) as (q' & r' & Hqr).
  { destruct (decide (r + 1 = k)); [by exists (S q), 0|by exists q, (S r)]. }
  exists q', r'.
  unfold jobs_of. cbn [wf set_wf with_jobs wf_jobs].
  rewrite Hcomp', Hcomb'. clear Hcomp' Hcomb'.
  rewrite !length_app, !fmap_app, Hn, Hblen. cbn [length].
  split_and!.
  - destruct (decide (r + 1 = k)); lia.
  - destruct (decide (r + 1 = k)); lia.
  - rewrite Hcomp. cbn. by rewrite Hout.
  - destruct (decide (r + 1 = k)), (decide (r' = 0)); lia.
  - intros i c Hi.
    destruct (decide (i < length before)) as [Hlt|Hge].
    + rewrite lookup_app_l in Hi by done.
      rewrite take_drop_snoc_full by nia. by apply Hcomb, Hbefore.
    + assert (i = q) as ->.
      { apply lookup_lt_Some in Hi. rewrite length_app in Hi. cbn in Hi. lia. }
      rewrite <-Hblen, list_lookup_middle in Hi by done.
      injection Hi as <-.
      rewrite take_drop_snoc_partial by lia.
      rewrite fmap_app, concat_app. cbn. rewrite app_nil_r.
      by rewrite Hlast.
  - cbn. apply bool_decide_ext. destruct (decide (r + 1 = k)); lia.
  - rewrite Hci.
    destruct (decide (r + 1 = k));
      [rewrite bool_decide_eq_true_2 by done
      |rewrite bool_decide_eq_false_2 by done]; cbn; lia.
  - intros Hmid. exists pre, (f last), post. cbn.
    split_and!; [by rewrite Hpre|done|done|done].
Qed.

End cohorts.

(** *** The cohorts of a generated workflow *)

Lemma jobs_of_finished sl e :
  jobs_of (add_effect e (set_wf (finished_workflow sl) sl)) = jobs_of sl.
Proof. done. Qed.

Lemma cohort_count (q r k : nat) :
  0 < k → r < k →
  ((Z.of_nat (q * k + r) + Z.of_nat k - 1) `div` Z.of_nat k)%Z
  = Z.of_nat (if decide (r = 0) then q else S q).
Proof.
  intros Hk Hr. case_decide as H0.
  - symmetry. apply (Z.div_unique_pos _ _ _ (Z.of_nat k - 1)); lia.
  - symmetry. apply (Z.div_unique_pos _ _ _ (Z.of_nat r - 1)); lia.
Qed.

Lemma slice_cohort {A} (l : list A) i k :
  slice (i * k) (((i + 1) * k) `min` length l) l = take k (drop (i * k) l).
Proof.
  unfold slice.
  destruct (decide ((i + 1) * k ≤ length l)).
  - f_equal. lia.
  - rewrite !take_ge; [done|rewrite length_drop; lia..].
Qed.

(** C1: when [_generate_workflow] returns, with cohorts of
    [K = combine_n_outputs > 0] jobs, the workflow holds one compute job
    per ticket, in ticket order, and [ceil(N / K)] combine jobs; the
    inputs of the combine job number [i] are the outputs of the compute
    jobs at the positions [i * K], ..., [min ((i + 1) * K) N - 1] and of
    no other: the position of a ticket alone decides its cohort. *)
Theorem combine_cohorts self w name tickets s :
  let result := _generate_workflow self w name tickets s in
  let K := combine_n_outputs self in
  let N := length tickets in
  let computes := jobs_named name (jobs_of result.1) in
  let combines := jobs_named "combine" (jobs_of result.1) in
  result.2 = Returns tt →
  (0 < K)%Z →
  name ≠ "combine" →
  length computes = N
  ∧ output_names <$> computes = ticket_outputs <$> tickets
  ∧ Z.of_nat (length combines) = ((Z.of_nat N + K - 1) `div` K)%Z
  ∧ ∀ i c, combines !! i = Some c →
      job_inputs c
      = concat (output_names <$>
                  slice (i * Z.to_nat K) (((i + 1) * Z.to_nat K) `min` N)
                    computes)
      ∧ job_arguments c
        = ArgName (workflow_id self +:+ "-" +:+ pretty (Z.of_nat i)).
Proof.
  intros result K N computes combines Hret HK Hname.
  destruct result as [s' out] eqn:Hres. cbn in Hret, computes, combines.
  subst out result.
  apply generate_workflow_returns
    in Hres as (_ & sites & modified & sl & l & _ & _ & Hloop & _ & ->).
  assert (cohort_inv self name (Z.to_nat K) ([] ++ tickets) sl l)
    as (q & r & Hn & Hr & Hcomp & Hlen & Hcomb & _).
  { apply (tickets_loop_invariant self name
             (cohort_inv self name (Z.to_nat K)) (cohort_inv_step
                self name (Z.to_nat K) ltac:(lia) ltac:(lia) Hname)
             tickets [] (loop_start self sites modified s)
             (Locals 0 true None)); [|exact Hloop].
    eapply cohort_inv_start; first [reflexivity|lia]. }
  cbn [app] in *. subst computes combines. rewrite jobs_of_finished.
  assert (length (jobs_named name (jobs_of sl)) = N) as HN.
  { rewrite <-(length_fmap output_names), Hcomp. by rewrite length_fmap. }
  split_and!.
  - done.
  - done.
  - rewrite Hlen. subst N. rewrite Hn.
    rewrite <-(cohort_count q r (Z.to_nat K)) by lia.
    by rewrite Z2Nat.id by lia.
  - intros i c Hi. destruct (Hcomb i c Hi) as [-> ->]. split; [|done].
    subst N. rewrite <-HN, slice_cohort.
    by rewrite !fmap_take, !fmap_drop, Hcomp.
Qed.

Lemma combine_cohorts_witness :
  let result :=
    _generate_workflow Sample.self Sample.w "run_toymc_wrapper"
      Sample.tickets Sample.prepared in
  length (jobs_named "run_toymc_wrapper" (jobs_of result.1)) = 5
  ∧ Z.of_nat (length (jobs_named "combine" (jobs_of result.1))) = 3%Z.
Proof.
  destruct (combine_cohorts Sample.self Sample.w "run_toymc_wrapper"
              Sample.tickets Sample.prepared)
    as (Hcomputes & _ & Hcombines & _).
  - vm_compute. reflexivity.
  - vm_compute. reflexivity.
  - discriminate.
  - split; [exact Hcomputes|exact Hcombines].
Defined.

(** *** Registration of the threshold file *)

Lemma correct_paths_threshold_text (args args' : gmap string pyval) s s' :
  _correct_paths_args_dict args s = (s', Returns args') →
  ∃ d, args !! "statistical_model_args" = Some (PDict d)
       ∧ ∀ v, d !! "limit_threshold" = Some v → ∃ p, v = PStr p.
Proof.
  unfold _correct_paths_args_dict. intros H.
  apply bind_returns in H as (? & v & [-> Hv]%lift_returns & H).
  apply bind_returns in H as (? & d & [-> Hd]%lift_returns & H).
  apply bind_returns in H as (? & d' & Hthr & _).
  unfold getitem in Hv.
  destruct (args !! "statistical_model_args") as [v'|]; simplify_eq/=.
  destruct v; simplify_eq/=.
  exists d. split; [done|]. intros v Hv.
  rewrite lookup_insert_ne, Hv in Hthr by done.
  apply bind_returns in Hthr as (? & p & [-> Hp]%lift_returns & _).
  destruct v; simplify_eq/=. eauto.
Qed.

Lemma ticket_step_threshold_text self name job_id t l s s' l' :
  ticket_step self name job_id t l s = (s', Returns l') →
  ∀ v, threshold_of t = Some v → ∃ p, v = PStr p.
Proof.
  unfold ticket_step. intros H.
  apply bind_returns in H as (s1 & cj & _ & H).
  apply bind_returns in H as (s2 & [exe args'] & Hre & _).
  apply reorganize_script_returns in Hre as (_ & args'' & _ & Hcorr).
  apply correct_paths_threshold_text in Hcorr as (d & Hd & Htext).
  unfold threshold_of. by rewrite Hd.
Qed.

Lemma first_threshold_app ts1 ts2 :
  first_threshold (ts1 ++ ts2)
  = match first_threshold ts1 with
    | Some p => Some p
    | None => first_threshold ts2
    end.
Proof.
  induction ts1 as [|t ts1 IH]; [done|]. cbn.
  by destruct (threshold_of t) as [[]|].
Qed.

Lemma first_threshold_singleton t :
  first_threshold [t]
  = match threshold_of t with
    | Some (PStr p) => Some p
    | _ => None
    end.
Proof. cbn. by destruct (threshold_of t) as [[]|]. Qed.

Lemma shared_inputs_register p s :
  shared_inputs (register_threshold p s) = shared_inputs s.
Proof.
  unfold shared_inputs, shared_files. cbn.
  by rewrite !lookup_insert_ne by done.
Qed.

Lemma registration_inv_step self name base shared ts t s l s' l' job_id :
  registration_inv base shared ts s →
  ticket_step self name job_id t l s = (s', Returns l') →
  registration_inv base shared (ts ++ [t]) s'.
Proof.
  intros (Hflag & Hinput & Hrc & Hshared & Htext) Hstep.
  pose proof (ticket_step_threshold_text _ _ _ _ _ _ _ _ Hstep) as Ht.
  apply ticket_step_returns in Hstep
    as (g & handle & job & _ & _ & -> & _).
  unfold registration_inv.
  rewrite first_threshold_app, first_threshold_singleton.
  assert (added_limit_threshold (after_reorganize t s)
          = bool_decide (is_Some
              match first_threshold ts with
              | Some p => Some p
              | None => match threshold_of t with
                        | Some (PStr p) => Some p
                        | _ => None
                        end
              end)
          ∧ threshold_input (after_reorganize t s)
            = threshold_names
                match first_threshold ts with
                | Some p => Some p
                | None => match threshold_of t with
                          | Some (PStr p) => Some p
                          | _ => None
                          end
                end
          ∧ rc (after_reorganize t s)
            = Some (base ++ threshold_replicas
                match first_threshold ts with
                | Some p => Some p
                | None => match threshold_of t with
                          | Some (PStr p) => Some p
                          | _ => None
                          end
                end)
          ∧ shared_inputs (after_reorganize t s) = shared)
    as (? & ? & ? & ?).
  { unfold after_reorganize. rewrite Hflag.
    destruct (first_threshold ts) as [p0|] eqn:Hfirst.
    - rewrite bool_decide_eq_true_2 by eauto. by rewrite Hflag.
    - rewrite bool_decide_eq_false_2 by (by intros [? ?]).
      destruct (threshold_of t) as [v|] eqn:Hv.
      + destruct (Ht v eq_refl) as [p ->].
        rewrite shared_inputs_register.
        unfold threshold_input, register_threshold. cbn.
        rewrite Hrc, lookup_insert_eq. cbn.
        rewrite app_nil_r. by split_and!.
      + by split_and!. }
  split_and!; try done.
  apply Forall_app. split; [done|]. by constructor.
Qed.

(** *** The inputs of the compute jobs *)

Section compute_inputs.
Context (self : config) (name : string) (k : nat).
Hypothesis k_positive : 0 < k.
Hypothesis k_combine_n_outputs : combine_n_outputs self = Z.of_nat k.
Hypothesis name_not_combine : name ≠ "combine".

(** A step touches a combine job and appends a compute job. *)
Lemma compute_jobs_step ts s l g handle job c f :
  cohort_inv self name k ts s l →
  wf s = Some g →
  (if new_to_combine l then handle = length (wf_jobs g)
   else combine_job l = Some handle) →
  job_name job = name →
  job_name c = "combine" →
  (∀ j, job_name (f j) = job_name j) →
  jobs_named name
    (alter f handle (wf_jobs g ++ (if new_to_combine l then [c] else []))
     ++ [job])
  = jobs_named name (wf_jobs g) ++ [job].
Proof.
  intros (q & r & _ & _ & _ & _ & _ & Hntc & _ & Hcur) Hg Hhandle Hjob Hc Hf.
  unfold jobs_of in Hcur. rewrite Hg in Hcur.
  rewrite jobs_named_app, (jobs_named_cons_eq name job), jobs_named_nil
    by done.
  f_equal. rewrite Hntc in *. case_bool_decide as Hfull.
  - subst handle.
    replace (length (wf_jobs g)) with (length (wf_jobs g) + 0) by lia.
    rewrite alter_app_r. cbn [alter list_alter].
    rewrite jobs_named_app, jobs_named_cons_ne, jobs_named_nil, app_nil_r;
      [done|]. rewrite Hf. congruence.
  - destruct (Hcur Hfull) as (pre & c0 & post & Hh & Hjobs & Hc0 & Hpost).
    assert (handle = length pre) as -> by congruence.
    rewrite app_nil_r, Hjobs.
    replace (length pre) with (length pre + 0) by lia.
    rewrite alter_app_r. cbn [alter list_alter].
    rewrite !jobs_named_app, !jobs_named_cons_ne; [done|congruence|].
    rewrite Hf. congruence.
Qed.

Lemma inputs_inv_step base shared ts t s l s' l' :
  cohort_inv self name k ts s l →
  registration_inv base shared ts s →
  inputs_inv name shared ts s →
  ticket_step self name (Z.of_nat (length ts)) t l s = (s', Returns l') →
  inputs_inv name shared (ts ++ [t]) s'.
Proof.
  intros Hcohort Hreg [Hlen Hinputs] Hstep.
  pose proof (registration_inv_step _ _ _ _ _ _ _ _ _ _ _ Hreg Hstep)
    as (_ & Hthr' & _ & Hshared' & _).
  apply ticket_step_returns in Hstep
    as (g & handle & job & Hg & Hhandle & -> & Hname & _ & Hin & _).
  change (shared_inputs (set_wf ?g ?s)) with (shared_inputs s) in Hshared'.
  change (threshold_input (set_wf ?g ?s)) with (threshold_input s) in Hthr'.
  rewrite Hshared', Hthr' in Hin.
  unfold inputs_inv, jobs_of in *. rewrite Hg in *.
  cbn [wf set_wf with_jobs wf_jobs].
  rewrite (compute_jobs_step ts s l g handle job) by done.
  rewrite !length_app, Hlen. split; [done|].
  intros j job' Hj.
  destruct (decide (j < length ts)) as [Hlt|Hge].
  - rewrite lookup_app_l in Hj by lia.
    rewrite take_app_le by lia. by apply Hinputs.
  - assert (j = length ts) as ->.
    { apply lookup_lt_Some in Hj. rewrite length_app in Hj. cbn in Hj. lia. }
    rewrite <-Hlen, list_lookup_middle in Hj by done.
    injection Hj as <-. by rewrite take_ge by (rewrite length_app; cbn; lia).
Qed.

End compute_inputs.

(** *** The threshold file in a generated workflow *)

Lemma shared_inputs_loop_start self sites modified s :
  shared_inputs (loop_start self sites modified s)
  = base_inputs self modified.
Proof.
  unfold shared_inputs, shared_files, loop_start, base_inputs. cbn.
  by simplify_map_eq.
Qed.

Lemma registration_inv_start self sites modified s :
  added_limit_threshold s = false →
  registration_inv (base_replicas self modified) (base_inputs self modified)
    [] (loop_start self sites modified s).
Proof.
  intros Hflag. unfold registration_inv.
  rewrite shared_inputs_loop_start. unfold threshold_input. cbn.
  rewrite Hflag. split_and!; try done.
Qed.

Lemma first_threshold_None ts :
  (∀ t, t ∈ ts → threshold_of t = None) → first_threshold ts = None.
Proof.
  induction ts as [|t ts IH]; [done|]. intros Hnone. cbn.
  rewrite (Hnone t) by left. apply IH. intros t' Ht'. apply Hnone. by right.
Qed.

Lemma first_threshold_Some ts :
  Forall (λ t, ∀ v, threshold_of t = Some v → ∃ p, v = PStr p) ts →
  (∃ t, t ∈ ts ∧ is_Some (threshold_of t)) →
  is_Some (first_threshold ts).
Proof.
  induction 1 as [|t ts Ht _ IH]; intros (t' & Hin & Hsome).
  - by apply elem_of_nil in Hin.
  - cbn. destruct (threshold_of t) as [v|] eqn:Hv.
    + destruct (Ht v eq_refl) as [p ->]. eauto.
    + apply elem_of_cons in Hin as [->|Hin].
      * rewrite Hv in Hsome. by destruct Hsome.
      * apply IH. eauto.
Qed.

(** With the first ticket naming a threshold at position [i], the
    threshold is known from the ticket [i] on. *)
Lemma first_threshold_take ts i t p j :
  ts !! i = Some t →
  threshold_of t = Some (PStr p) →
  (∀ i' t', i' < i → ts !! i' = Some t' → threshold_of t' = None) →
  first_threshold (take (S j) ts) = if decide (i ≤ j) then Some p else None.
Proof.
  revert i j. induction ts as [|t0 ts IH]; intros i j Hi Ht Hbefore; [done|].
  destruct i as [|i]; cbn in Hi.
  - injection Hi as ->. cbn. by rewrite Ht, decide_True by lia.
  - cbn. rewrite (Hbefore 0 t0) by (done || lia).
    destruct j as [|j].
    + by rewrite decide_False by lia.
    + rewrite (IH i j Hi Ht).
      * by destruct (decide (i ≤ j)), (decide (S i ≤ S j)); try lia.
      * intros i' t' Hlt Hi'. apply (Hbefore (S i') t'); [lia|done].
Qed.

(** C5: in one build, started with the flag down, the threshold file is
    registered at most once: the replica catalog that [_generate_workflow]
    leaves, and writes, is the six replicas of [_generate_rc] followed by
    the replica of the first threshold a ticket names, and by nothing
    else: one entry as soon as some ticket names a threshold, however many
    do, and none when no ticket does. *)
Theorem limit_threshold_registered_once self w name tickets s :
  let result := _generate_workflow self w name tickets s in
  result.2 = Returns tt →
  added_limit_threshold s = false →
  ∃ modified registered,
    modified_statistical_model_config s = Some modified
    ∧ rc result.1 = Some (base_replicas self modified ++ registered)
    ∧ wf_replica_catalog <$> wf result.1
      = Some (Some (base_replicas self modified ++ registered))
    ∧ registered = threshold_replicas (first_threshold tickets)
    ∧ length registered ≤ 1
    ∧ ((∃ t, t ∈ tickets ∧ is_Some (threshold_of t)) →
       length registered = 1)
    ∧ ((∀ t, t ∈ tickets → threshold_of t = None) → registered = []).
Proof.
  intros result Hret Hflag.
  destruct result as [s' out] eqn:Hres. cbn in Hret. subst out result.
  apply generate_workflow_returns
    in Hres as (_ & sites & modified & sl & l & _ & Hmod & Hloop & _ & ->).
  assert (registration_inv (base_replicas self modified)
            (base_inputs self modified) ([] ++ tickets) sl)
    as (_ & _ & Hrc & _ & Htext).
  { apply (tickets_loop_invariant self name
             (λ ts s _, registration_inv (base_replicas self modified)
                          (base_inputs self modified) ts s)
             (λ ts t s0 l0 s1 l1 Hinv,
                registration_inv_step self name _ _ ts t s0 l0 s1 l1 _ Hinv)
             tickets [] (loop_start self sites modified s)
             (Locals 0 true None) sl l); [|exact Hloop].
    by apply registration_inv_start. }
  cbn [app] in *.
  exists modified, (threshold_replicas (first_threshold tickets)).
  split_and!.
  - done.
  - exact Hrc.
  - cbn. by rewrite Hrc.
  - done.
  - destruct (first_threshold tickets); cbn; lia.
  - intros Hsome.
    by destruct (first_threshold_Some tickets Htext Hsome) as [p ->].
  - intros Hnone. by rewrite first_threshold_None.
Qed.

Lemma limit_threshold_registered_once_witness :
  ∃ registered,
    rc (_generate_workflow Sample.self Sample.w "run_toymc_wrapper"
          Sample.tickets Sample.prepared).1
    = Some (base_replicas Sample.self
              "/scratch/user/workflows/generated/lq/model_modified.yaml"
            ++ registered)
    ∧ length registered = 1.
Proof.
  destruct (limit_threshold_registered_once Sample.self Sample.w
              "run_toymc_wrapper" Sample.tickets Sample.prepared)
    as (modified & registered & Hmod & Hrc & _ & _ & _ & Hone & _).
  - vm_compute. reflexivity.
  - vm_compute. reflexivity.
  - exists registered. vm_compute in Hmod. injection Hmod as <-.
    split; [exact Hrc|]. apply Hone.
    exists (Sample.mk_ticket "generate" "r3.h5" (Some "/lt/other.json")).
    split.
    + apply (list_elem_of_lookup_2 _ 3). reflexivity.
    + exists (PStr "/lt/other.json"). vm_compute. reflexivity.
Defined.

(** C10: in a build started with the flag down, let the ticket at
    position [i] be the first to name a threshold file.  That file is the
    one registered, and every compute job from position [i] on declares it
    as an input after the six shared ones, whether or not its own ticket
    names a threshold; the compute jobs before position [i] declare the
    six shared inputs only. *)
Theorem threshold_input_from_registration self w name tickets s :
  let result := _generate_workflow self w name tickets s in
  let computes := jobs_named name (jobs_of result.1) in
  result.2 = Returns tt →
  added_limit_threshold s = false →
  (0 < combine_n_outputs self)%Z →
  name ≠ "combine" →
  ∃ modified,
    modified_statistical_model_config s = Some modified
    ∧ length computes = length tickets
    ∧ ∀ i t p,
        tickets !! i = Some t →
        threshold_of t = Some (PStr p) →
        (∀ i' t', i' < i → tickets !! i' = Some t' →
                  threshold_of t' = None) →
        rc result.1
        = Some (base_replicas self modified
                ++ [Replica "local" (Path.basename p) ("file://" +:+ p)])
        ∧ ∀ j job, computes !! j = Some job →
            (i ≤ j →
             job_inputs job = base_inputs self modified ++ [Path.basename p])
            ∧ (j < i → job_inputs job = base_inputs self modified).
Proof.
  intros result computes Hret Hflag HK Hname.
  destruct result as [s' out] eqn:Hres. cbn in Hret, computes.
  subst out result.
  apply generate_workflow_returns
    in Hres as (_ & sites & modified & sl & l & _ & Hmod & Hloop & _ & ->).
  set (k := Z.to_nat (combine_n_outputs self)).
  set (base := base_replicas self modified).
  set (shared := base_inputs self modified).
  assert (cohort_inv self name k ([] ++ tickets) sl l
          ∧ registration_inv base shared ([] ++ tickets) sl
          ∧ inputs_inv name shared ([] ++ tickets) sl)
    as (_ & (_ & _ & Hrc & _) & Hlen & Hinputs).
  { apply (tickets_loop_invariant self name
             (λ ts s l, cohort_inv self name k ts s l
                        ∧ registration_inv base shared ts s
                        ∧ inputs_inv name shared ts s))
      with (s := loop_start self sites modified s) (l := Locals 0 true None).
    - intros ts t s0 l0 s1 l1 (Hc & Hr & Hi) Hstep. split_and!.
      + eapply cohort_inv_step; eauto; lia.
      + by eapply registration_inv_step.
      + eapply (inputs_inv_step self name k); eauto; lia.
    - split_and!.
      + eapply cohort_inv_start; first [reflexivity|lia].
      + by apply registration_inv_start.
      + by split.
    - exact Hloop. }
  cbn [app] in *. subst computes. rewrite jobs_of_finished.
  exists modified. split; [done|]. split; [done|].
  intros i t p Hi Ht Hbefore.
  assert (first_threshold tickets = Some p) as Hfirst.
  { rewrite <-(take_ge tickets (S (length tickets))) by lia.
    rewrite (first_threshold_take tickets i t p) by done.
    apply lookup_lt_Some in Hi. by rewrite decide_True by lia. }
  split.
  { cbn. by rewrite Hrc, Hfirst. }
  intros j job Hj. rewrite (Hinputs j job Hj).
  rewrite (first_threshold_take tickets i t p) by done.
  split; intros Hij.
  - by rewrite decide_True by lia.
  - rewrite decide_False by lia. apply app_nil_r.
Qed.

Lemma threshold_input_from_registration_witness :
  ∃ job,
    jobs_named "run_toymc_wrapper"
      (jobs_of
         (_generate_workflow Sample.self Sample.w "run_toymc_wrapper"
            Sample.tickets Sample.prepared).1) !! 2
    = Some job
    ∧ job_inputs job
      = base_inputs Sample.self
          "/scratch/user/workflows/generated/lq/model_modified.yaml"
        ++ [Path.basename "/lt/thresholds.json"].
Proof.
  destruct (threshold_input_from_registration Sample.self Sample.w
              "run_toymc_wrapper" Sample.tickets Sample.prepared)
    as (modified & Hmod & _ & Hjobs).
  - vm_compute. reflexivity.
  - vm_compute. reflexivity.
  - vm_compute. reflexivity.
  - discriminate.
  - vm_compute in Hmod. injection Hmod as <-.
    destruct (Hjobs 1
                (Sample.mk_ticket "generate_and_store" "r1.h5"
                   (Some "/lt/thresholds.json"))
                "/lt/thresholds.json") as [_ Hinputs].
    + reflexivity.
    + vm_compute. reflexivity.
    + intros i' t' Hlt Hi'. destruct i' as [|i']; [|lia].
      injection Hi' as <-. vm_compute. reflexivity.
    + destruct (jobs_named "run_toymc_wrapper"
                  (jobs_of
                     (_generate_workflow Sample.self Sample.w
                        "run_toymc_wrapper" Sample.tickets
                        Sample.prepared).1) !! 2) as [job|] eqn:Hjob.
      * exists job. split; [reflexivity|].
        apply (Hinputs 2 job Hjob). lia.
      * vm_compute in Hjob. discriminate.
Defined.

(** ** Unsupported toy data modes *)

Lemma wf_add_jobs_runs j s g :
  wf s = Some g →
  wf_add_jobs j s
  = (set_wf (with_jobs g (wf_jobs g ++ [j])) s, Returns (length (wf_jobs g))).
Proof. intros Hg. unfold wf_add_jobs, bind, attr, modify, ret. by rewrite Hg. Qed.

Lemma add_limit_threshold_runs p c s :
  limit_threshold s = Some (PStr p) →
  rc s = Some c →
  _add_limit_threshold s
  = (set_added_limit_threshold true
       (set_rc (c ++ [Replica "local" (Path.basename p) ("file://" +:+ p)])
          (set_file "f_limit_threshold" (Path.basename p) s)),
     Returns tt).
Proof.
  intros Hp Hc.
  unfold _add_limit_threshold, rc_add_replica, bind, attr, lift, modify.
  rewrite Hp. cbn. by rewrite Hc.
Qed.

Lemma modified_after_reorganize t s :
  modified_statistical_model_config (after_reorganize t s)
  = modified_statistical_model_config s.
Proof. unfold after_reorganize. by repeat case_match. Qed.

Lemma effects_after_reorganize t s :
  effects (after_reorganize t s) = effects s.
Proof. unfold after_reorganize. by repeat case_match. Qed.

(** A rewritable ticket is rewritten, whatever its toy data mode. *)
Lemma reorganize_script_runs t s modified :
  is_Some (rc s) →
  modified_statistical_model_config s = Some modified →
  rewritable (ticket_kwargs t) →
  ∃ args' : gmap string pyval,
    _reorganize_script t s
    = (after_reorganize t s,
       Returns (Path.basename (ticket_executable t), args'))
    ∧ args' !! "toydata_mode" = ticket_kwargs t !! "toydata_mode".
Proof.
  intros [c Hc] Hmod (model_args & toydata & output & Hargs & Hthr & Htoy
                      & Hout).
  exists (rewritten_args modified toydata output model_args (ticket_kwargs t)).
  split; [|unfold rewritten_args; by rewrite !lookup_insert_ne by done].
  assert (∀ s', modified_statistical_model_config s' = Some modified →
            _correct_paths_args_dict (ticket_kwargs t) s'
            = (s', Returns (rewritten_args modified toydata output model_args
                              (ticket_kwargs t)))) as Hcorr.
  { intros s' Hmod'. by apply correct_paths_args_dict_runs. }
  unfold _reorganize_script, _get_file_name.
  rewrite (bind_eq_returns _ _ s s (added_limit_threshold s)) by reflexivity.
  cbv beta. unfold after_reorganize, threshold_of. rewrite Hargs.
  destruct (added_limit_threshold s) eqn:Hflag.
  { rewrite (bind_eq_returns _ _ s s tt) by reflexivity. cbv beta.
    unfold bind. by rewrite (Hcorr s Hmod). }
  assert (lift (getitem (ticket_kwargs t) "statistical_model_args") s
          = (s, Returns (PDict model_args))) as Hget.
  { unfold lift, getitem. by rewrite Hargs. }
  destruct (model_args !! "limit_threshold") as [v|] eqn:Hv.
  - destruct (Hthr v eq_refl) as [p ->].
    rewrite (bind_eq_returns _ _ s (register_threshold p s) tt).
    + cbv beta. unfold bind.
      by rewrite (Hcorr (register_threshold p s) Hmod).
    + rewrite (bind_eq_returns _ _ _ _ _ Hget). cbv beta.
      rewrite (bind_eq_returns _ _ s s model_args) by reflexivity.
      cbv beta. rewrite Hv.
      rewrite (bind_eq_returns _ _ s (set_limit_threshold (PStr p) s) tt)
        by reflexivity.
      cbv beta. rewrite (add_limit_threshold_runs p c) by done.
      unfold register_threshold. by rewrite Hc.
  - rewrite (bind_eq_returns _ _ s s tt).
    + cbv beta. unfold bind. by rewrite (Hcorr s Hmod).
    + rewrite (bind_eq_returns _ _ _ _ _ Hget). cbv beta.
      rewrite (bind_eq_returns _ _ s s model_args) by reflexivity.
      cbv beta. by rewrite Hv.
Qed.

(** A rewritable ticket with an unsupported mode stops the loop with
    [NotImplementedError]: its compute job is not built; the combine job
    of a cohort it would have opened is in the workflow already. *)
Lemma ticket_step_unsupported self name job_id t l s g modified mode :
  wf s = Some g →
  is_Some (rc s) →
  modified_statistical_model_config s = Some modified →
  rewritable (ticket_kwargs t) →
  ticket_kwargs t !! "toydata_mode" = Some mode →
  supported_toydata_mode mode = false →
  ∃ s',
    ticket_step self name job_id t l s = (s', Raises NotImplementedError)
    ∧ jobs_of s'
      = wf_jobs g
        ++ (if new_to_combine l
            then [combine_job_of self (combine_i l)] else [])
    ∧ effects s' = effects s.
Proof.
  intros Hg Hrc Hmod Hrw Hmode Hsup. unfold ticket_step.
  set (s1 := if new_to_combine l
             then set_wf
                    (with_jobs g
                       (wf_jobs g ++ [combine_job_of self (combine_i l)])) s
             else s).
  assert (∃ cj,
            (if new_to_combine l
             then handle <- _add_combine_job self (combine_i l);;
                  ret (Some handle)
             else ret (combine_job l)) s = (s1, Returns cj)) as [cj Hcj].
  { subst s1. destruct (new_to_combine l); [|by eexists].
    eexists. unfold _add_combine_job.
    by rewrite (bind_eq_returns _ _ _ _ _ (wf_add_jobs_runs _ s g Hg)). }
  rewrite (bind_eq_returns _ _ _ _ _ Hcj).
  destruct (reorganize_script_runs t s1 modified) as (args' & Hre & Hmode');
    [by subst s1; destruct (new_to_combine l)..|done|].
  rewrite (bind_eq_returns _ _ _ _ _ Hre).
  unfold bind at 1. unfold lift at 1, getitem at 1.
  rewrite Hmode', Hmode, Hsup. cbn [negb].
  eexists. split; [reflexivity|].
  unfold jobs_of. rewrite wf_after_reorganize, effects_after_reorganize.
  subst s1. destruct (new_to_combine l); cbn; rewrite ?Hg, ?app_nil_r; done.
Qed.

Lemma generate_workflow_raises_in_loop self w name tickets s sites modified
    s' e :
  combine_n_jobs self = 1%Z →
  _generate_sc self w = Returns sites →
  modified_statistical_model_config s = Some modified →
  tickets_loop self name 0 tickets (Locals 0 true None)
    (loop_start self sites modified s)
  = (s', Raises e) →
  _generate_workflow self w name tickets s = (s', Raises e).
Proof.
  intros Hn Hsc Hmod Hloop. unfold _generate_workflow.
  rewrite bool_decide_eq_false_2 by (by intros ?).
  unfold bind at 1. unfold modify at 1.
  unfold bind at 1. unfold lift at 1. rewrite Hsc.
  unfold bind at 1. unfold modify at 1.
  unfold bind at 1. unfold modify at 1.
  assert (_generate_rc self
            (set_tc (_generate_tc self)
               (set_sc sites
                  (set_wf (Workflow "alea_workflow" [] None None None) s)))
          = (set_file "f_combine" "combine.sh"
               (set_file "f_alea_run_toymc" "alea_run_toymc"
                  (set_file "f_run_toymc_wrapper" "run_toymc_wrapper.sh"
                     (set_file "f_statistical_model_config"
                        (Path.basename modified)
                        (set_file "f_running_configuration"
                           (Path.basename (config_file_path self))
                           (set_file "f_template_tarball"
                              (Path.basename (template_tarball self))
                              (set_tc (_generate_tc self)
                                 (set_sc sites
                                    (set_wf
                                       (Workflow "alea_workflow" [] None
                                          None None) s)))))))),
             Returns (base_replicas self modified))) as Hrc.
  { unfold _generate_rc, bind, modify, attr, ret, _get_file_name. cbn.
    by rewrite Hmod. }
  rewrite (bind_eq_returns _ _ _ _ _ Hrc).
  unfold bind at 1. unfold modify at 1.
  by rewrite (bind_eq_raises _ _ _ _ _ Hloop).
Qed.

Lemma loop_frame self name tickets s0 l0 s' l' :
  tickets_loop self name 0 tickets l0 s0 = (s', Returns l') →
  modified_statistical_model_config s'
  = modified_statistical_model_config s0
  ∧ effects s' = effects s0.
Proof.
  intros Hloop.
  apply (tickets_loop_invariant self name
           (λ _ s _, modified_statistical_model_config s
                     = modified_statistical_model_config s0
                     ∧ effects s = effects s0)) with (ts := tickets)
    (ts0 := []) (s := s0) (l := l0) (l' := l'); [|done|done].
  intros ts t s l s1 l1 [Hm He] Hstep.
  apply ticket_step_returns in Hstep as (g & h & job & _ & _ & -> & _).
  cbn. by rewrite modified_after_reorganize, effects_after_reorganize.
Qed.

Lemma cohort_position (q r k : nat) :
  0 < k → r < k →
  (Z.of_nat (q * k + r) `mod` Z.of_nat k)%Z = Z.of_nat r
  ∧ (Z.of_nat (q * k + r) `div` Z.of_nat k)%Z = Z.of_nat q.
Proof.
  intros Hk Hr.
  replace (Z.of_nat (q * k + r))
    with (Z.of_nat r + Z.of_nat q * Z.of_nat k)%Z by lia.
  rewrite Z.mod_add, Z.div_add by lia.
  rewrite Z.mod_small, Z.div_small by lia. lia.
Qed.

(** C3, as the code has it: the tickets up to the first unsupported one
    are processed as usual; at that ticket, once its arguments are
    rewritten, [_generate_workflow] raises [NotImplementedError] before the
    compute job of the ticket is built.  The workflow then holds the jobs
    added for the earlier tickets, and the combine job of the cohort the
    ticket would have opened if it comes first in one (its position is a
    multiple of [combine_n_outputs]); nothing has been written. *)
Theorem unsupported_mode_aborts self w name before unsupported after s :
  let earlier := _generate_workflow self w name before s in
  let result :=
    _generate_workflow self w name (before ++ unsupported :: after) s in
  earlier.2 = Returns tt →
  rewritable (ticket_kwargs unsupported) →
  (∃ mode, ticket_kwargs unsupported !! "toydata_mode" = Some mode
           ∧ supported_toydata_mode mode = false) →
  result.2 = Raises NotImplementedError
  ∧ effects result.1 = effects s
  ∧ ∃ opening,
      jobs_of result.1 = jobs_of earlier.1 ++ opening
      ∧ (opening = [] ∨ ∃ i, opening = [combine_job_of self i])
      ∧ (before = [] → opening = [combine_job_of self 0])
      ∧ ((0 < combine_n_outputs self)%Z → name ≠ "combine" →
         opening
         = if decide ((Z.of_nat (length before)
                       `mod` combine_n_outputs self)%Z = 0%Z)
           then [combine_job_of self
                   (Z.of_nat (length before) `div` combine_n_outputs self)]
           else []).
Proof.
  intros earlier result Hret Hrw (mode & Hmode & Hsup).
  destruct earlier as [s1 out] eqn:Hearlier. cbn in Hret. subst out.
  apply generate_workflow_returns in Hearlier
    as (Hn & sites & modified & sl & l & Hsc & Hmod & Hloop & [[g Hg] Hrc]
        & ->).
  destruct (loop_frame _ _ _ _ _ _ _ Hloop) as [Hmod' Heff'].
  destruct (ticket_step_unsupported self name (Z.of_nat (length before))
              unsupported l sl g modified mode)
    as (s' & Hstep & Hjobs & Heff); try done.
  { by rewrite Hmod'. }
  assert (result = (s', Raises NotImplementedError)) as ->.
  { subst result. apply (generate_workflow_raises_in_loop _ _ _ _ _ sites modified);
      try done.
    rewrite tickets_loop_app, (bind_eq_returns _ _ _ _ _ Hloop).
    cbn [tickets_loop]. rewrite Z.add_0_l.
    by rewrite (bind_eq_raises _ _ _ _ _ Hstep). }
  cbn [fst snd]. split; [done|]. split.
  { by rewrite Heff, Heff'. }
  exists (if new_to_combine l then [combine_job_of self (combine_i l)] else []).
  rewrite jobs_of_finished. split_and!.
  - unfold jobs_of at 2. by rewrite Hg.
  - destruct (new_to_combine l); eauto.
  - intros ->. by apply ret_returns in Hloop as [-> ->].
  - intros HK Hname.
    set (k := Z.to_nat (combine_n_outputs self)).
    assert (cohort_inv self name k ([] ++ before) sl l)
      as (q & r & Hlen & Hr & _ & _ & _ & -> & -> & _).
    { apply (tickets_loop_invariant self name (cohort_inv self name k)
               (cohort_inv_step self name k ltac:(lia) ltac:(lia) Hname)
               before [] (loop_start self sites modified s)
               (Locals 0 true None)); [|exact Hloop].
      eapply cohort_inv_start; first [reflexivity|lia]. }
    cbn [app] in Hlen. rewrite Hlen.
    replace (combine_n_outputs self) with (Z.of_nat k) by lia.
    destruct (cohort_position q r k) as [-> ->]; [lia..|].
    destruct (decide (r = 0)) as [->|Hne].
    + by rewrite bool_decide_eq_true_2, decide_True by done.
    + by rewrite bool_decide_eq_false_2, decide_False by lia.
Qed.

Lemma unsupported_mode_aborts_witness :
  (_generate_workflow Sample.self Sample.w "run_toymc_wrapper"
     (take 2 Sample.tickets ++ Sample.reading_ticket :: drop 2 Sample.tickets)
     Sample.prepared).2
  = Raises NotImplementedError.
Proof.
  apply (unsupported_mode_aborts Sample.self Sample.w "run_toymc_wrapper"
           (take 2 Sample.tickets) Sample.reading_ticket
           (drop 2 Sample.tickets) Sample.prepared).
  - vm_compute. reflexivity.
  - exists (Sample.model_args None), "/data/toy/r9.h5", "/data/out/r9.h5".
    split_and!; [by vm_compute| |by vm_compute..].
    intros v Hv. vm_compute in Hv. discriminate.
  - exists (PStr "read"). split; by vm_compute.
Defined.

(** When the abort comes, the workflow is not empty: with one supported
    ticket before the unsupported one, it holds the combine job of the
    first cohort and the compute job of the first ticket. *)
Lemma unsupported_mode_leaves_jobs :
  let result :=
    _generate_workflow Sample.self Sample.w "run_toymc_wrapper"
      [Sample.mk_ticket "generate" "r0.h5" None; Sample.reading_ticket]
      Sample.prepared in
  result.2 = Raises NotImplementedError
  ∧ job_name <$> jobs_of result.1 = ["combine"; "run_toymc_wrapper"]
  ∧ jobs_of result.1 ≠ [].
Proof.
  split_and!; [by vm_compute..|]. vm_compute. discriminate.
Qed.

(** ** A complete submission *)

(** On the sample inputs every check passes and [submit] returns. *)
Example submit_sample_returns :
  (submit Sample.self Sample.w Sample.tickets init_state).2 = Returns tt.
Proof. vm_compute. reflexivity. Qed.

(** The archive holds the two templates under their bare names, and the
    file that is no template is left out. *)
Example submit_sample_archive :
  filter (λ e, is_archive e = true)
    (effects (submit Sample.self Sample.w Sample.tickets init_state).1)
  = [WriteTar "/scratch/user/workflows/generated/lq/templates.tar.gz"
       [("/home/user/templates/a/a.h5", "a.h5");
        ("/home/user/templates/b/b.h5", "b.h5")]].
Proof. vm_compute. reflexivity. Qed.

(** Five compute jobs in cohorts of two give three combine jobs; the
    workflow lists each combine job ahead of its cohort. *)
Example submit_sample_jobs :
  job_name <$> jobs_of (submit Sample.self Sample.w Sample.tickets init_state).1
  = ["combine"; "run_toymc_wrapper"; "run_toymc_wrapper";
     "combine"; "run_toymc_wrapper"; "run_toymc_wrapper";
     "combine"; "run_toymc_wrapper"].
Proof. vm_compute. reflexivity. Qed.

(** Without debugging the plan is submitted, on the pool, through the
    staging site. *)
Example submit_sample_plan :
  planned (submit Sample.self Sample.w Sample.tickets init_state).1
  = Some (Plan true ["horizontal"] "none" ["condorpool"] 0
            [("condorpool", "staging-davs")] ["local"]
            "/scratch/user/workflows/runs" "lq").
Proof. vm_compute. reflexivity. Qed.

(** ** File names, the model configuration and the template archive *)

Lemma basename_split p :
  ∃ head, p = head +:+ Path.basename p
          ∧ (head = EmptyString ∨ Path.endswith "/" head = true).
Proof.
  induction p as [|a r (head & Hr & Hhead)].
  { exists EmptyString. split; [done|by left]. }
  rewrite PathFacts.basename_cons. case_bool_decide as Hfind.
  - destruct (Ascii.eqb a "/") eqn:Ha.
    + apply Ascii.eqb_eq in Ha as ->. exists "/". split; [done|by right].
    + exists EmptyString. split; [done|by left].
  - exists (String a head). rewrite PathFacts.append_cons, <-Hr.
    split; [done|right].
    destruct head as [|b head'].
    + exfalso. apply Hfind. rewrite PathFacts.append_nil_l in Hr.
      apply PathFacts.rfind_no_slash. rewrite Hr.
      apply PathFacts.no_slash_basename.
    + destruct Hhead as [|Hhead]; [done|]. exact Hhead.
Qed.

(** X1: [_get_file_name] splits a path at its last separator: the name it
    returns holds no separator, the path is a head that is empty or ends
    with a separator followed by that name, a name so obtained is its own
    file name, and the directory it is joined to does not matter. *)
Theorem get_file_name_spec file_path :
  Path.no_slash (_get_file_name file_path) = true
  ∧ (∃ head, file_path = head +:+ _get_file_name file_path
             ∧ (head = EmptyString ∨ Path.endswith "/" head = true))
  ∧ _get_file_name (_get_file_name file_path) = _get_file_name file_path
  ∧ ∀ directory,
      _get_file_name (Path.join directory (_get_file_name file_path))
      = _get_file_name file_path.
Proof.
  unfold _get_file_name.
  pose proof (PathFacts.no_slash_basename file_path) as Hbare.
  split_and!.
  - done.
  - apply basename_split.
  - by apply PathFacts.basename_no_slash.
  - intros directory. by apply PathFacts.basename_join.
Qed.

Lemma yaml_nested_ind (P : yaml → Prop) :
  (∀ s, P (YStr s)) →
  (∀ z, P (YInt z)) →
  (∀ items, Forall (λ kv, P kv.2) items → P (YDict items)) →
  (∀ items, Forall P items → P (YList items)) →
  ∀ node, P node.
Proof.
  intros Hstr Hint Hdict Hlist. fix IH 1. intros [s|z|items|items].
  - apply Hstr.
  - apply Hint.
  - apply Hdict. induction items as [|[key value] rest IHrest];
      constructor; [apply IH|apply IHrest].
  - apply Hlist. induction items as [|item rest IHrest];
      constructor; [apply IH|apply IHrest].
Qed.

Lemma update_template_filenames_dict items :
  update_template_filenames (YDict items)
  = match update_items items with
    | Raises e => Raises e
    | Returns items' => Returns (YDict items')
    end.
Proof.
  cbn [update_template_filenames].
  assert (∀ l, (fix go (l : list (string * yaml)) :=
        match l with
        | [] => Returns []
        | (key, value) :: rest =>
            match
              (if String.eqb key "template_filename"
               then match value with
                    | YStr p => Returns (YStr (Path.basename p))
                    | _ => Raises AttributeError
                    end
               else update_template_filenames value)
            with
            | Returns value' =>
                match go rest with
                | Returns rest' => Returns ((key, value') :: rest')
                | Raises e => Raises e
                end
            | Raises e => Raises e
            end
        end) l = update_items l) as ->; [|done].
  induction l as [|[key value] rest IH]; [done|].
  cbn [update_items]. unfold update_entry. by rewrite <-IH.
Qed.

Lemma update_template_filenames_list items :
  update_template_filenames (YList items)
  = match update_list items with
    | Raises e => Raises e
    | Returns items' => Returns (YList items')
    end.
Proof.
  cbn [update_template_filenames].
  assert (∀ l, (fix go (l : list yaml) :=
        match l with
        | [] => Returns []
        | item :: rest =>
            match update_template_filenames item with
            | Returns item' =>
                match go rest with
                | Returns rest' => Returns (item' :: rest')
                | Raises e => Raises e
                end
            | Raises e => Raises e
            end
        end) l = update_list l) as ->; [|done].
  induction l as [|item rest IH]; [done|].
  cbn [update_list]. by rewrite <-IH.
Qed.

Lemma bare_templates_dict items :
  bare_templates (YDict items) = forallb bare_entry items.
Proof.
  cbn [bare_templates]. induction items as [|[key value] rest IH]; [done|].
  cbn [forallb]. by rewrite IH.
Qed.

Lemma update_template_filenames_bare node node' :
  update_template_filenames node = Returns node' →
  bare_templates node' = true.
Proof.
  revert node'. induction node as [s|z|items IH|items IH] using yaml_nested_ind;
    intros node'.
  - by intros [= <-].
  - by intros [= <-].
  - rewrite update_template_filenames_dict.
    destruct (update_items items) as [items'|] eqn:Hitems; [|done].
    intros [= <-]. rewrite bare_templates_dict.
    revert items' Hitems.
    induction IH as [|[key value] rest Hvalue _ IHrest]; intros items'.
    { by intros [= <-]. }
    cbn [update_items].
    destruct (update_entry key value) as [value'|] eqn:Hentry; [|done].
    destruct (update_items rest) as [rest'|]; [|done].
    intros [= <-]. cbn [forallb]. rewrite (IHrest rest') by done.
    rewrite andb_true_r. unfold bare_entry, update_entry in *. cbn [fst snd] in *.
    destruct (String.eqb key "template_filename").
    + destruct value; simplify_eq. apply PathFacts.no_slash_basename.
    + by apply Hvalue.
  - rewrite update_template_filenames_list.
    destruct (update_list items) as [items'|] eqn:Hitems; [|done].
    intros [= <-]. cbn [bare_templates].
    revert items' Hitems.
    induction IH as [|item rest Hitem _ IHrest]; intros items'.
    { by intros [= <-]. }
    cbn [update_list].
    destruct (update_template_filenames item) as [item'|]; [|done].
    destruct (update_list rest) as [rest'|]; [|done].
    intros [= <-]. cbn [forallb].
    by rewrite (Hitem item'), (IHrest rest').
Qed.

Lemma update_template_filenames_fixed node :
  bare_templates node = true →
  update_template_filenames node = Returns node.
Proof.
  induction node as [s|z|items IH|items IH] using yaml_nested_ind.
  - done.
  - done.
  - rewrite update_template_filenames_dict, bare_templates_dict.
    intros Hbare.
    assert (update_items items = Returns items) as ->; [|done].
    induction IH as [|[key value] rest Hvalue _ IHrest]; [done|].
    cbn [forallb] in Hbare. apply andb_true_iff in Hbare as [Hkv Hrest].
    cbn [update_items]. rewrite (IHrest Hrest).
    assert (update_entry key value = Returns value) as ->; [|done].
    unfold bare_entry, update_entry in *. cbn [fst snd] in *.
    destruct (String.eqb key "template_filename").
    + destruct value; try done. by rewrite PathFacts.basename_no_slash.
    + by apply Hvalue.
  - rewrite update_template_filenames_list. cbn [bare_templates].
    intros Hbare.
    assert (update_list items = Returns items) as ->; [|done].
    induction IH as [|item rest Hitem _ IHrest]; [done|].
    cbn [forallb] in Hbare. apply andb_true_iff in Hbare as [Hi Hrest].
    cbn [update_list]. by rewrite (Hitem Hi), (IHrest Hrest).
Qed.

Lemma text_templates_dict items :
  text_templates (YDict items) = forallb text_entry items.
Proof.
  cbn [text_templates]. induction items as [|[key value] rest IH]; [done|].
  cbn [forallb]. by rewrite IH.
Qed.

Lemma update_template_filenames_outcome node :
  match update_template_filenames node with
  | Returns _ => text_templates node = true
  | Raises e => e = AttributeError ∧ text_templates node = false
  end.
Proof.
  induction node as [s|z|items IH|items IH] using yaml_nested_ind.
  - done.
  - done.
  - rewrite update_template_filenames_dict, text_templates_dict.
    assert (match update_items items with
            | Returns _ => forallb text_entry items = true
            | Raises e => e = AttributeError ∧ forallb text_entry items = false
            end) as Hitems; [|by destruct (update_items items)].
    induction IH as [|[key value] rest Hvalue _ IHrest]; [done|].
    cbn [update_items forallb].
    assert (match update_entry key value with
            | Returns _ => text_entry (key, value) = true
            | Raises e => e = AttributeError ∧ text_entry (key, value) = false
            end) as Hentry.
    { unfold update_entry, text_entry. cbn [fst snd] in *.
      destruct (String.eqb key "template_filename"); [by destruct value|done]. }
    destruct (update_entry key value) as [value'|e].
    + rewrite Hentry. by destruct (update_items rest).
    + by destruct Hentry as [-> ->].
  - rewrite update_template_filenames_list. cbn [text_templates].
    assert (match update_list items with
            | Returns _ => forallb text_templates items = true
            | Raises e =>
                e = AttributeError ∧ forallb text_templates items = false
            end) as Hitems; [|by destruct (update_list items)].
    induction IH as [|item rest Hitem _ IHrest]; [done|].
    cbn [update_list forallb].
    destruct (update_template_filenames item) as [item'|e].
    + rewrite Hitem. by destruct (update_list rest).
    + by destruct Hitem as [-> ->].
Qed.

(** X2: when the rewriting of the model configuration returns, every
    [template_filename] it reached is a bare name, and rewriting the result
    again changes nothing. *)
Theorem update_template_filenames_idempotent node node' :
  update_template_filenames node = Returns node' →
  bare_templates node' = true
  ∧ update_template_filenames node' = Returns node'.
Proof.
  intros Hrun. apply update_template_filenames_bare in Hrun.
  split; [done|]. by apply update_template_filenames_fixed.
Qed.

Lemma update_template_filenames_idempotent_witness :
  bare_templates
    (YDict
       [("likelihood_terms",
         YList [YDict [("template_filename", YStr "a.h5")]])])
  = true
  ∧ update_template_filenames
      (YDict
         [("likelihood_terms",
           YList [YDict [("template_filename", YStr "a.h5")]])])
    = Returns
        (YDict
           [("likelihood_terms",
             YList [YDict [("template_filename", YStr "a.h5")]])]).
Proof.
  apply (update_template_filenames_idempotent Sample.model_yaml).
  vm_compute. reflexivity.
Defined.

(** X3: the rewriting of the model configuration returns exactly when every
    [template_filename] entry it reaches is text; otherwise it fails with
    [AttributeError] (the value has no [split]), and with nothing else. *)
Theorem update_template_filenames_succeeds_iff node :
  ((∃ node', update_template_filenames node = Returns node')
   ↔ text_templates node = true)
  ∧ ∀ e, update_template_filenames node = Raises e → e = AttributeError.
Proof.
  pose proof (update_template_filenames_outcome node) as Hout.
  destruct (update_template_filenames node) as [node'|e].
  - split; [|done]. split; [done|by eexists].
  - destruct Hout as [-> Htext]. split; [|by intros ? [= <-]].
    split; [by intros [? ?]|congruence].
Qed.

(** X4: [_modify_yaml] names the rewritten configuration before it reads the
    original, so the attribute is set whatever happens next.  When it
    returns, the original was loaded and the one file written, under that
    name, holds the rewritten data, with bare template names only.  When it
    raises, nothing was written: the loader failed with that exception, or
    a [template_filename] entry was not text. *)
Theorem modify_yaml_outcome self w s :
  let result := _modify_yaml self w s in
  let modified :=
    Path.join (generated_dir self)
      (Path.replace ".yaml" "_modified.yaml"
         (_get_file_name (statistical_model_config self))) in
  modified_statistical_model_config result.1 = Some modified
  ∧ match result.2 with
    | Returns _ =>
        ∃ data data',
          load_yaml w (statistical_model_config self) = Returns data
          ∧ update_template_filenames data = Returns data'
          ∧ bare_templates data' = true
          ∧ result.1
            = add_effect (DumpYaml modified data')
                (set_modified_statistical_model_config modified s)
    | Raises e =>
        result.1 = set_modified_statistical_model_config modified s
        ∧ (load_yaml w (statistical_model_config self) = Raises e
           ∨ e = AttributeError
             ∧ ∃ data,
                 load_yaml w (statistical_model_config self) = Returns data
                 ∧ text_templates data = false)
    end.
Proof.
  intros result modified. subst result.
  unfold _modify_yaml. fold modified. unfold bind, modify, lift.
  destruct (load_yaml w (statistical_model_config self)) as [data|e];
    [|by split; [|split; [|left]]].
  pose proof (update_template_filenames_outcome data) as Hout.
  destruct (update_template_filenames data) as [data'|e] eqn:Hupd;
    cbn [fst snd].
  - split; [done|]. exists data, data'. split_and!; try done.
    by apply (update_template_filenames_bare data).
  - destruct Hout as [-> Htext]. split; [done|]. split; [done|right].
    split; [done|by exists data].
Qed.

Lemma check_filename_unique_NoDup self w s p :
  template_path self = Some p →
  NoDup (walked_files w p) →
  _check_filename_unique self w s = (s, Returns tt).
Proof.
  intros Hp Hnd. unfold _check_filename_unique. rewrite Hp.
  rewrite bool_decide_eq_false_2; [done|].
  intros Hne. apply Hne. symmetry. by apply size_list_to_set.
Qed.

Lemma check_filename_unique_returns self w s s' u p :
  template_path self = Some p →
  _check_filename_unique self w s = (s', Returns u) →
  s' = s ∧ NoDup (walked_files w p).
Proof.
  intros Hp. unfold _check_filename_unique. rewrite Hp.
  case_bool_decide as Hlen; [done|]. intros [= <-]. split; [done|].
  apply length_eq_size_NoDup.
  by destruct (decide (length (walked_files w p)
                       = size (list_to_set (walked_files w p) : gset string))).
Qed.

(** X5: [_check_filename_unique] returns exactly when no file name occurs
    twice in the walk of the template path, and raises [RuntimeError]
    exactly when one does; the state is not changed. *)
Theorem check_filename_unique_iff self w s p :
  template_path self = Some p →
  (_check_filename_unique self w s = (s, Returns tt)
   ↔ NoDup (walked_files w p))
  ∧ (_check_filename_unique self w s = (s, Raises RuntimeError)
     ↔ ¬ NoDup (walked_files w p)).
Proof.
  intros Hp. split; split.
  - intros H. by apply (check_filename_unique_returns _ _ _ _ _ _ Hp) in H as [_ ?].
  - by apply check_filename_unique_NoDup.
  - intros H Hnd.
    by rewrite (check_filename_unique_NoDup _ _ _ _ Hp Hnd) in H.
  - intros Hdup. unfold _check_filename_unique. rewrite Hp.
    rewrite bool_decide_eq_true_2; [done|].
    intros Hlen. by apply Hdup, length_eq_size_NoDup.
Qed.

Lemma check_filename_unique_iff_witness :
  _check_filename_unique Sample.self Sample.w init_state
  = (init_state, Returns tt)
  ∧ _check_filename_unique Sample.self Sample.w_clashing init_state
    = (init_state, Raises RuntimeError).
Proof.
  split.
  - apply (check_filename_unique_iff Sample.self Sample.w init_state
             "/home/user/templates"); [reflexivity|].
    apply (bool_decide_unpack _). by vm_compute.
  - apply (check_filename_unique_iff Sample.self Sample.w_clashing init_state
             "/home/user/templates"); [reflexivity|].
    vm_compute. intros Hnd. apply NoDup_cons in Hnd as [Hin _].
    apply Hin. left.
Defined.

Lemma filter_concat {A} (P : A → Prop) `{!∀ x, Decision (P x)}
    (ls : list (list A)) :
  filter P (concat ls) = concat (filter P <$> ls).
Proof.
  induction ls as [|l ls IH]; [done|]. cbn. by rewrite filter_app, IH.
Qed.

Lemma tar_members_names w top :
  (concat
     (map
        (λ entry : string * list string * list string,
           map (λ filename,
                  (Path.join entry.1.1 filename, Path.basename filename))
             (filter (λ filename, str_endswith ".h5" filename = true)
                entry.2))
        (os_walk w top))).*2
  = Path.basename <$>
      filter (λ filename, str_endswith ".h5" filename = true)
        (walked_files w top).
Proof.
  unfold walked_files. induction (os_walk w top) as [|entry walk IH]; [done|].
  cbn [map concat]. rewrite filter_app, !fmap_app, IH. f_equal.
  by rewrite <-list_fmap_compose.
Qed.

Lemma tar_members_sources w top m :
  m ∈ concat
        (map
           (λ entry : string * list string * list string,
              map (λ filename,
                     (Path.join entry.1.1 filename, Path.basename filename))
                (filter (λ filename, str_endswith ".h5" filename = true)
                   entry.2))
           (os_walk w top)) →
  ∃ entry filename,
    entry ∈ os_walk w top ∧ filename ∈ entry.2
    ∧ str_endswith ".h5" filename = true
    ∧ m = (Path.join entry.1.1 filename, Path.basename filename).
Proof.
  induction (os_walk w top) as [|entry walk IH]; cbn [map concat].
  { by intros ?%elem_of_nil. }
  intros [Hm|Hm]%elem_of_app.
  - apply list_elem_of_fmap in Hm as (filename & -> & Hf).
    apply list_elem_of_filter in Hf as [Hh5 Hf].
    exists entry, filename. split_and!; [left|done..].
  - destruct (IH Hm) as (entry' & filename & ? & ? & ? & ?).
    exists entry', filename. split_and!; [by right|done..].
Qed.

Lemma fmap_basename_bare (l : list string) :
  Forall (λ f, Path.no_slash f = true) l → Path.basename <$> l = l.
Proof.
  induction 1 as [|f l Hf _ IH]; [done|].
  cbn. by rewrite PathFacts.basename_no_slash, IH.
Qed.

(** X6: after a successful uniqueness check, and with file names as
    [os.walk] yields them (without separator), the archive written by
    [_make_template_tarball] holds the files of the tree ending in [.h5],
    in walk order, each read from its own directory and stored under its
    bare name; no two members have the same name. *)
Theorem template_tarball_members self w s p :
  template_path self = Some p →
  Forall (λ f, Path.no_slash f = true) (walked_files w p) →
  (_check_filename_unique self w s).2 = Returns tt →
  ∃ members,
    _make_template_tarball self w s
    = (add_effect (WriteTar (template_tarball self) members) s, Returns tt)
    ∧ members.*2
      = filter (λ f, str_endswith ".h5" f = true) (walked_files w p)
    ∧ NoDup members.*2
    ∧ ∀ m, m ∈ members →
        ∃ entry, entry ∈ os_walk w p ∧ m.2 ∈ entry.2
                 ∧ m.1 = Path.join entry.1.1 m.2.
Proof.
  intros Hp Hbare Hcheck.
  destruct (_check_filename_unique self w s) as [s' out] eqn:Hres.
  cbn in Hcheck. subst out.
  apply (check_filename_unique_returns _ _ _ _ _ _ Hp) in Hres as [_ Hnd].
  unfold _make_template_tarball, _tar_h5_files. rewrite Hp.
  eexists. split; [reflexivity|].
  assert (Forall (λ f, Path.no_slash f = true)
            (filter (λ f, str_endswith ".h5" f = true) (walked_files w p)))
    as Hbare'.
  { apply Forall_forall. intros f [_ Hf]%list_elem_of_filter.
    by eapply Forall_forall in Hbare. }
  rewrite tar_members_names, fmap_basename_bare by done.
  split_and!; [done|by apply NoDup_filter|].
  intros m Hm.
  apply tar_members_sources in Hm as (entry & filename & He & Hf & _ & ->).
  exists entry. cbn [fst snd].
  assert (Path.no_slash filename = true) as Hfn.
  { eapply Forall_forall in Hbare; [done|].
    unfold walked_files. apply list_elem_of_In, in_concat. exists entry.2.
    split; [|by apply list_elem_of_In].
    apply in_map_iff. exists entry. split; [done|by apply list_elem_of_In]. }
  by rewrite PathFacts.basename_no_slash.
Qed.

Lemma template_tarball_members_witness :
  ∃ members,
    _make_template_tarball Sample.self Sample.w init_state
    = (add_effect (WriteTar (template_tarball Sample.self) members) init_state,
       Returns tt)
    ∧ members.*2 = ["a.h5"; "b.h5"].
Proof.
  destruct (template_tarball_members Sample.self Sample.w init_state
              "/home/user/templates")
    as (members & Hrun & Hnames & _).
  - reflexivity.
  - vm_compute. repeat constructor.
  - vm_compute. reflexivity.
  - exists members. split; [exact Hrun|]. rewrite Hnames. vm_compute. reflexivity.
Defined.

(** ** What workflow generation touches, and how it fails *)

Section triples.
Context {S : Type}.
Implicit Types (P : S → Prop) (E : exn → S → Prop).

Lemma triple_ret {A} P (Q : A → S → Prop) E a :
  (∀ s, P s → Q a s) → triple P (ret a) Q E.
Proof. intros H s Hs. by apply H. Qed.

Lemma triple_raise {A} P (Q : A → S → Prop) E e :
  (∀ s, P s → E e s) → triple P (raise e) Q E.
Proof. intros H s Hs. by apply H. Qed.

Lemma triple_gets {A} P (Q : A → S → Prop) E (f : S → A) :
  (∀ s, P s → Q (f s) s) → triple P (gets f) Q E.
Proof. intros H s Hs. by apply H. Qed.

Lemma triple_modify P (Q : unit → S → Prop) E (f : S → S) :
  (∀ s, P s → Q tt (f s)) → triple P (modify f) Q E.
Proof. intros H s Hs. by apply H. Qed.

Lemma triple_lift {A} P (Q : A → S → Prop) E (o : outcome A) :
  (∀ s, P s → match o with Returns a => Q a s | Raises e => E e s end) →
  triple P (lift o) Q E.
Proof. intros H s Hs. specialize (H s Hs). unfold lift. by destruct o. Qed.

Lemma triple_bind {A B} P (R : A → S → Prop) (Q : B → S → Prop) E
    (m : M S A) (k : A → M S B) :
  triple P m R E → (∀ a, triple (R a) (k a) Q E) → triple P (bind m k) Q E.
Proof.
  intros Hm Hk s Hs. specialize (Hm s Hs). unfold bind.
  destruct (m s) as [s1 [a|e]]; [by apply Hk|done].
Qed.

Lemma triple_consequence {A} P P' (Q Q' : A → S → Prop) E E' (m : M S A) :
  triple P m Q E →
  (∀ s, P' s → P s) → (∀ a s, Q a s → Q' a s) → (∀ e s, E e s → E' e s) →
  triple P' m Q' E'.
Proof.
  intros Hm HP HQ HE s Hs. specialize (Hm s (HP s Hs)).
  destruct (m s) as [s1 [a|e]]; auto.
Qed.

(** A sequence whose first part keeps the precondition. *)
Lemma triple_seq {A B} P (Q : B → S → Prop) E (m : M S A) (k : A → M S B) :
  triple P m (λ _, P) E → (∀ a, triple P (k a) Q E) → triple P (bind m k) Q E.
Proof. intros Hm Hk. by apply (triple_bind P (λ _, P)). Qed.
End triples.

Lemma triple_attr {A} (P : state → Prop) (Q : A → state → Prop) E
    (f : state → option A) :
  (∀ s, P s → match f s with
              | Some a => Q a s
              | None => E AttributeError s
              end) →
  triple P (attr f) Q E.
Proof. intros H s Hs. specialize (H s Hs). unfold attr. by destruct (f s). Qed.

Section kept.
Context (s0 : state).

Lemma kept_lift {A} (o : outcome A) :
  (∀ e, o = Raises e → workflow_error e) → kept s0 (lift o).
Proof.
  intros Ho. apply triple_lift. intros s Hs. destruct o as [a|e]; [done|].
  split; [done|by apply Ho].
Qed.

Lemma getitem_error d k e : getitem d k = Raises e → e = KeyError.
Proof. unfold getitem. destruct (d !! k); congruence. Qed.

Lemma basename_of_error v e : basename_of v = Raises e → e = TypeError.
Proof. destruct v; cbn; congruence. Qed.

Lemma as_text_error v e : as_text v = Raises e → e = TypeError.
Proof. destruct v; cbn; congruence. Qed.

Lemma keys_of_error v e : keys_of v = Raises e → e = AttributeError.
Proof. destruct v; cbn; congruence. Qed.

Lemma setitem_target_error v e : setitem_target v = Raises e → e = TypeError.
Proof. destruct v; cbn; congruence. Qed.

Lemma generate_sc_error self w e :
  _generate_sc self w = Raises e → e = KeyError.
Proof.
  unfold _generate_sc, environ_get.
  repeat case_match; congruence.
Qed.

Lemma kept_pure_errors :
  (∀ d k, kept s0 (lift (getitem d k)))
  ∧ (∀ v, kept s0 (lift (basename_of v)))
  ∧ (∀ v, kept s0 (lift (as_text v)))
  ∧ (∀ v, kept s0 (lift (keys_of v)))
  ∧ (∀ v, kept s0 (lift (setitem_target v))).
Proof.
  split_and!; intros; apply kept_lift; intros e He; unfold workflow_error.
  - apply getitem_error in He. auto 10.
  - apply basename_of_error in He. auto 10.
  - apply as_text_error in He. auto 10.
  - apply keys_of_error in He. auto 10.
  - apply setitem_target_error in He. auto 10.
Qed.

Lemma kept_attr {A} (f : state → option A) : kept s0 (attr f).
Proof.
  apply triple_attr. intros s Hs. destruct (f s); [done|].
  split; [done|]. unfold workflow_error. auto 10.
Qed.

Lemma kept_modify (f : state → state) :
  (∀ s, untouched s0 s → untouched s0 (f s)) → kept s0 (modify f).
Proof. intros Hf. by apply triple_modify. Qed.

Lemma kept_ret {A} (a : A) : kept s0 (ret a).
Proof. by apply triple_ret. Qed.

Lemma kept_gets {A} (f : state → A) : kept s0 (gets f).
Proof. by apply triple_gets. Qed.

Lemma kept_raise {A} e : workflow_error e → kept s0 (raise e : M state A).
Proof. intros He. by apply triple_raise. Qed.

Lemma kept_bind {A B} (m : M state A) (k : A → M state B) :
  kept s0 m → (∀ a, kept s0 (k a)) → kept s0 (bind m k).
Proof. apply triple_seq. Qed.
End kept.

(** One step through a computation made of the primitives. *)
Ltac kept_prim :=
  lazymatch goal with
  | |- kept _ (bind _ _) => apply kept_bind; [|intros ?]
  | |- kept _ (ret _) => apply kept_ret
  | |- kept _ (gets _) => apply kept_gets
  | |- kept _ (attr _) => apply kept_attr
  | |- kept _ (file_attr _) => apply kept_attr
  | |- kept _ (modify _) => apply kept_modify; by intros ? ?
  | |- kept _ (lift (getitem _ _)) => apply kept_pure_errors
  | |- kept _ (lift (basename_of _)) => apply kept_pure_errors
  | |- kept _ (lift (as_text _)) => apply kept_pure_errors
  | |- kept _ (lift (keys_of _)) => apply kept_pure_errors
  | |- kept _ (lift (setitem_target _)) => apply kept_pure_errors
  | |- kept _ (if ?b then _ else _) => destruct b
  | |- kept _ (match ?x with _ => _ end) => destruct x
  end.

Lemma kept_wf_add_jobs s0 j : kept s0 (wf_add_jobs j).
Proof. unfold wf_add_jobs. repeat kept_prim. Qed.

Lemma kept_update_job s0 handle f : kept s0 (update_job handle f).
Proof. unfold update_job. repeat kept_prim. Qed.

Lemma kept_add_limit_threshold s0 : kept s0 _add_limit_threshold.
Proof. unfold _add_limit_threshold, rc_add_replica. repeat kept_prim. Qed.

Lemma kept_correct_paths_args_dict s0 args :
  kept s0 (_correct_paths_args_dict args).
Proof. unfold _correct_paths_args_dict. repeat kept_prim. Qed.

Lemma kept_reorganize_script s0 t : kept s0 (_reorganize_script t).
Proof.
  unfold _reorganize_script. repeat kept_prim.
  all: first [apply kept_add_limit_threshold
             |apply kept_correct_paths_args_dict].
Qed.

(** The same, through the calls of the loop body as well. *)
Ltac kept_step :=
  first
    [ apply kept_wf_add_jobs
    | apply kept_update_job
    | apply kept_reorganize_script
    | kept_prim ].

Lemma triple_pure {S A} (P : S → Prop) (φ : Prop) (m : M S A) Q E :
  (φ → triple P m Q E) → triple (λ s, P s ∧ φ) m Q E.
Proof. intros H s [Hs Hφ]. by apply H. Qed.

(** A part of a sequence that is [kept]. *)
Ltac kept_part s0 :=
  lazymatch goal with
  | |- triple _ ?m _ _ => change (kept s0 m)
  end;
  repeat kept_step.

(** Through a sequence whose parts are [kept], down to its last step. *)
Ltac walk s0 :=
  lazymatch goal with
  | |- triple _ (bind _ _) _ _ =>
      apply triple_seq; [kept_part s0|intros ?]
  | |- triple _ (if ?b then _ else _) _ _ => destruct b
  | |- triple _ (let '(_, _) := ?x in _) _ _ => destruct x
  | |- triple _ (match ?x with _ => _ end) _ _ => destruct x
  end.

Lemma ticket_step_triple self name job_id t l s0 :
  new_to_combine l = true ∨ is_Some (combine_job l) →
  triple (untouched s0) (ticket_step self name job_id t l)
    (λ l' s, untouched s0 s ∧ is_Some (combine_job l'))
    (λ e s, untouched s0 s ∧ workflow_error e).
Proof.
  intros Hl. unfold ticket_step.
  apply (triple_bind _ (λ cj s, untouched s0 s ∧ is_Some cj)).
  { destruct (new_to_combine l).
    - apply (triple_bind _ (λ _, untouched s0)).
      + apply kept_wf_add_jobs.
      + intros handle. apply triple_ret. eauto.
    - destruct Hl as [|Hl]; [done|]. by apply triple_ret. }
  intros cj. apply (triple_pure (untouched s0) (is_Some cj)).
  intros [handle ->].
  repeat walk s0.
  all: try (apply triple_raise; intros ? ?; split; [done|];
            unfold workflow_error; auto 10).
  all: apply triple_ret; intros ? ?; cbn; eauto.
Qed.

Lemma tickets_loop_triple self name tickets job_id l s0 :
  new_to_combine l = true ∨ is_Some (combine_job l) →
  triple (untouched s0) (tickets_loop self name job_id tickets l)
    (λ _, untouched s0) (λ e s, untouched s0 s ∧ workflow_error e).
Proof.
  revert job_id l. induction tickets as [|t rest IH]; intros job_id l Hl.
  { by apply triple_ret. }
  cbn [tickets_loop].
  apply (triple_bind _ (λ l' s, untouched s0 s ∧ is_Some (combine_job l'))).
  { by apply ticket_step_triple. }
  intros l'. apply (triple_pure (untouched s0) (is_Some (combine_job l'))).
  intros Hl'. apply IH. by right.
Qed.

Lemma kept_generate_rc self s0 : kept s0 (_generate_rc self).
Proof. unfold _generate_rc. repeat kept_step. Qed.

Lemma generate_workflow_triple self w name tickets s0 :
  triple (untouched s0) (_generate_workflow self w name tickets)
    (λ _ s, ∃ g,
       wf s = Some g
       ∧ untouched s0
           (State (added_limit_threshold s) (limit_threshold s)
              (modified_statistical_model_config s) (x509_user_proxy s)
              (files s) (wf s) (sc s) (tc s) (rc s) (planned s) (effects s0))
       ∧ effects s = effects s0 ++ [WriteWorkflow (workflow_file self) g])
    (λ e s, untouched s0 s ∧ workflow_error e).
Proof.
  unfold _generate_workflow. case_bool_decide.
  { apply triple_raise. intros s Hs. split; [done|].
    unfold workflow_error. auto. }
  apply triple_seq; [kept_part s0|intros _].
  apply triple_seq.
  { apply kept_lift. intros e ->%generate_sc_error. unfold workflow_error. auto. }
  intros sites.
  apply triple_seq; [kept_part s0|intros _].
  apply triple_seq; [kept_part s0|intros _].
  apply triple_seq; [apply kept_generate_rc|intros replicas].
  apply triple_seq; [kept_part s0|intros _].
  apply triple_seq; [apply tickets_loop_triple; by left|intros _].
  apply (triple_bind _ (λ g s, untouched s0 s ∧ wf s = Some g)).
  { apply triple_attr. intros s Hs. destruct (wf s); [done|].
    split; [done|]. unfold workflow_error. auto 10. }
  intros g s [Hs Hg]. unfold bind, attr, modify.
  destruct (rc s); [|split; [done|unfold workflow_error; auto 10]].
  destruct (tc s); [|split; [done|unfold workflow_error; auto 10]].
  destruct (sc s); [|split; [done|unfold workflow_error; auto 10]].
  eexists. cbn. split_and!; [done|by destruct Hs as (?&?&?&?)|].
  destruct Hs as (-> & _). done.
Qed.

Lemma untouched_refl s : untouched s s.
Proof. by split_and!. Qed.

(** X7: [_generate_workflow] writes the workflow file as its last step and
    only then: when it returns, the one thing it has put on disk is the
    workflow it leaves in [self.wf]; when it raises, at whatever point, it
    has written nothing.  The plan, the proxy and the name of the rewritten
    model configuration are never changed. *)
Theorem generate_workflow_writes_on_success_only self w name tickets s :
  let result := _generate_workflow self w name tickets s in
  planned result.1 = planned s
  ∧ x509_user_proxy result.1 = x509_user_proxy s
  ∧ modified_statistical_model_config result.1
    = modified_statistical_model_config s
  ∧ match result.2 with
    | Returns _ =>
        ∃ g, wf result.1 = Some g
             ∧ effects result.1
               = effects s ++ [WriteWorkflow (workflow_file self) g]
    | Raises _ => effects result.1 = effects s
    end.
Proof.
  intros result. subst result.
  pose proof (generate_workflow_triple self w name tickets s s
                (untouched_refl s)) as H.
  destruct (_generate_workflow self w name tickets s) as [s' [[]|e]];
    cbn [fst snd].
  - destruct H as (g & Hg & (_ & ? & ? & ?) & Heff). split_and!; try done.
    by exists g.
  - by destruct H as [(? & ? & ? & ?) _].
Qed.

(** X8: the exceptions the code of [_generate_workflow] itself raises are
    [ValueError], [KeyError], [TypeError], [AttributeError],
    [NotImplementedError] and [ZeroDivisionError] (the calls into the
    Pegasus API are taken to succeed).  In particular the variable
    [combine_job] is bound whenever the loop uses it: the first ticket
    opens a cohort. *)
Theorem generate_workflow_errors self w name tickets s e :
  (_generate_workflow self w name tickets s).2 = Raises e →
  e = ValueError ∨ e = KeyError ∨ e = TypeError ∨ e = AttributeError
  ∨ e = NotImplementedError ∨ e = ZeroDivisionError.
Proof.
  pose proof (generate_workflow_triple self w name tickets s s
                (untouched_refl s)) as H.
  destruct (_generate_workflow self w name tickets s) as [s' [[]|e']];
    cbn [snd]; [done|].
  intros [= ->]. by destruct H as [_ He].
Qed.

Lemma generate_workflow_errors_witness :
  NotImplementedError = ValueError ∨ NotImplementedError = KeyError
  ∨ NotImplementedError = TypeError ∨ NotImplementedError = AttributeError
  ∨ NotImplementedError = NotImplementedError
  ∨ NotImplementedError = ZeroDivisionError.
Proof.
  apply (generate_workflow_errors Sample.self Sample.w "run_toymc_wrapper"
           [Sample.reading_ticket] Sample.prepared).
  vm_compute. reflexivity.
Defined.

(** ** When workflow generation returns *)

Lemma shared_inputs_lookups s :
  length (shared_inputs s) = 6 →
  ∃ f1 f2 f3 f4 f5 f6,
    files s !! "f_template_tarball" = Some f1
    ∧ files s !! "f_running_configuration" = Some f2
    ∧ files s !! "f_statistical_model_config" = Some f3
    ∧ files s !! "f_run_toymc_wrapper" = Some f4
    ∧ files s !! "f_alea_run_toymc" = Some f5
    ∧ files s !! "f_combine" = Some f6
    ∧ shared_inputs s = [f1; f2; f3; f4; f5; f6].
Proof.
  unfold shared_inputs, shared_files. cbn [omap list_omap].
  destruct (files s !! "f_template_tarball") as [f1|];
    destruct (files s !! "f_running_configuration") as [f2|];
    destruct (files s !! "f_statistical_model_config") as [f3|];
    destruct (files s !! "f_run_toymc_wrapper") as [f4|];
    destruct (files s !! "f_alea_run_toymc") as [f5|];
    destruct (files s !! "f_combine") as [f6|]; cbn; intros Hlen;
    try (exfalso; lia).
  by eexists _, _, _, _, _, _.
Qed.

Lemma files_after_reorganize t s name :
  name ≠ "f_limit_threshold" →
  files (after_reorganize t s) !! name = files s !! name.
Proof.
  intros Hname. unfold after_reorganize, register_threshold.
  repeat case_match; try done. cbn. by rewrite lookup_insert_ne.
Qed.

Lemma shared_inputs_after_reorganize t s :
  shared_inputs (after_reorganize t s) = shared_inputs s.
Proof.
  unfold shared_inputs, shared_files. cbn [omap list_omap].
  by rewrite !files_after_reorganize by done.
Qed.

Lemma threshold_file_after_reorganize t s :
  (added_limit_threshold s = true → is_Some (files s !! "f_limit_threshold")) →
  added_limit_threshold (after_reorganize t s) = true →
  is_Some (files (after_reorganize t s) !! "f_limit_threshold").
Proof.
  unfold after_reorganize, register_threshold.
  destruct (added_limit_threshold s) eqn:Hflag; [by auto|].
  intros _. destruct (threshold_of t) as [[p| | |]|]; rewrite ?Hflag; try done.
  intros _. cbn. rewrite lookup_insert_eq. eauto.
Qed.

Lemma set_wf_same g s : wf s = Some g → set_wf g s = s.
Proof. destruct s. cbn. by intros ->. Qed.

Lemma with_jobs_same g : with_jobs g (wf_jobs g) = g.
Proof. by destruct g. Qed.

(** A rewritable ticket is rewritten to [rewritten_args]. *)
Lemma reorganize_script_rewrites t s modified model_args toydata output :
  is_Some (rc s) →
  modified_statistical_model_config s = Some modified →
  ticket_kwargs t !! "statistical_model_args" = Some (PDict model_args) →
  (∀ v, model_args !! "limit_threshold" = Some v → ∃ p, v = PStr p) →
  ticket_kwargs t !! "toydata_filename" = Some (PStr toydata) →
  ticket_kwargs t !! "output_filename" = Some (PStr output) →
  _reorganize_script t s
  = (after_reorganize t s,
     Returns (Path.basename (ticket_executable t),
              rewritten_args modified toydata output model_args
                (ticket_kwargs t))).
Proof.
  intros [c Hc] Hmod Hargs Hthr Htoy Hout.
  assert (∀ s', modified_statistical_model_config s' = Some modified →
            _correct_paths_args_dict (ticket_kwargs t) s'
            = (s', Returns (rewritten_args modified toydata output model_args
                              (ticket_kwargs t)))) as Hcorr.
  { intros s' Hmod'. by apply correct_paths_args_dict_runs. }
  unfold _reorganize_script, _get_file_name.
  rewrite (bind_eq_returns _ _ s s (added_limit_threshold s)) by reflexivity.
  cbv beta. unfold after_reorganize, threshold_of. rewrite Hargs.
  destruct (added_limit_threshold s) eqn:Hflag.
  { rewrite (bind_eq_returns _ _ s s tt) by reflexivity. cbv beta.
    unfold bind. by rewrite (Hcorr s Hmod). }
  assert (lift (getitem (ticket_kwargs t) "statistical_model_args") s
          = (s, Returns (PDict model_args))) as Hget.
  { unfold lift, getitem. by rewrite Hargs. }
  destruct (model_args !! "limit_threshold") as [v|] eqn:Hv.
  - destruct (Hthr v eq_refl) as [p ->].
    rewrite (bind_eq_returns _ _ s (register_threshold p s) tt).
    + cbv beta. unfold bind.
      by rewrite (Hcorr (register_threshold p s) Hmod).
    + rewrite (bind_eq_returns _ _ _ _ _ Hget). cbv beta.
      rewrite (bind_eq_returns _ _ s s model_args) by reflexivity.
      cbv beta. rewrite Hv.
      rewrite (bind_eq_returns _ _ s (set_limit_threshold (PStr p) s) tt)
        by reflexivity.
      cbv beta. rewrite (add_limit_threshold_runs p c) by done.
      unfold register_threshold. by rewrite Hc.
  - rewrite (bind_eq_returns _ _ s s tt).
    + cbv beta. unfold bind. by rewrite (Hcorr s Hmod).
    + rewrite (bind_eq_returns _ _ _ _ _ Hget). cbv beta.
      rewrite (bind_eq_returns _ _ s s model_args) by reflexivity.
      cbv beta. by rewrite Hv.
Qed.

Lemma update_job_runs handle f s g :
  wf s = Some g →
  update_job handle f s
  = (set_wf (with_jobs g (alter f handle (wf_jobs g))) s, Returns tt).
Proof. intros Hg. unfold update_job, bind, attr, modify. by rewrite Hg. Qed.

Lemma ticket_outputs_rewritable t mode toydata output :
  ticket_kwargs t !! "output_filename" = Some (PStr output) →
  ticket_kwargs t !! "toydata_filename" = Some (PStr toydata) →
  ticket_kwargs t !! "toydata_mode" = Some mode →
  ticket_outputs t
  = Path.basename output ::
    (if is_generate_and_store mode then [Path.basename toydata] else []).
Proof. intros Hout Htoy Hmode. unfold ticket_outputs. by rewrite Hout, Hmode, Htoy. Qed.

(** The step of the loop on an accepted ticket, in a ready state: the
    combine job of a new cohort is added, the threshold is registered if
    need be, the combine job under way gets the outputs of the ticket as
    inputs and the compute job of the ticket is added.  Only then is the
    position tested against [combine_n_outputs]. *)
Lemma ticket_step_runs self name job_id t l s g modified model_args toydata
    output mode :
  wf s = Some g →
  is_Some (rc s) →
  modified_statistical_model_config s = Some modified →
  length (shared_inputs s) = 6 →
  (added_limit_threshold s = true → is_Some (files s !! "f_limit_threshold")) →
  ticket_kwargs t !! "statistical_model_args" = Some (PDict model_args) →
  (∀ v, model_args !! "limit_threshold" = Some v → ∃ p, v = PStr p) →
  ticket_kwargs t !! "toydata_filename" = Some (PStr toydata) →
  ticket_kwargs t !! "output_filename" = Some (PStr output) →
  ticket_kwargs t !! "toydata_mode" = Some mode →
  supported_toydata_mode mode = true →
  new_to_combine l = true ∨ is_Some (combine_job l) →
  ∃ handle,
    (if new_to_combine l then handle = length (wf_jobs g)
     else combine_job l = Some handle)
    ∧ ticket_step self name job_id t l s
      = (set_wf
           (with_jobs g
              (alter (add_inputs (ticket_outputs t)) handle
                 (wf_jobs g ++
                  (if new_to_combine l
                   then [combine_job_of self (combine_i l)] else []))
               ++ [compute_job_of self name
                     (shared_inputs (after_reorganize t s)
                      ++ threshold_input (after_reorganize t s))
                     (ticket_outputs t)
                     (rewritten_args modified toydata output model_args
                        (ticket_kwargs t))]))
           (after_reorganize t s),
         if bool_decide (combine_n_outputs self = 0%Z)
         then Raises ZeroDivisionError
         else Returns
                (Locals
                   (if bool_decide
                         (((job_id + 1) `mod` combine_n_outputs self)%Z = 0%Z)
                    then combine_i l + 1 else combine_i l)%Z
                   (bool_decide
                      (((job_id + 1) `mod` combine_n_outputs self)%Z = 0%Z))
                   (Some handle))).
Proof.
  intros Hg Hrc Hmod Hlen Hthrfile Hargs Hthr Htoy Hout Hmode Hsup Hl.
  set (opening := if new_to_combine l
                  then [combine_job_of self (combine_i l)] else []).
  set (g1 := with_jobs g (wf_jobs g ++ opening)).
  set (sr := after_reorganize t s).
  assert (∃ handle,
            (if new_to_combine l then handle = length (wf_jobs g)
             else combine_job l = Some handle)
            ∧ (if new_to_combine l
               then handle <- _add_combine_job self (combine_i l);;
                    ret (Some handle)
               else ret (combine_job l)) s
              = (set_wf g1 s, Returns (Some handle))) as (handle & Hh & Hcj).
  { subst g1 opening. destruct (new_to_combine l).
    - exists (length (wf_jobs g)). split; [done|].
      unfold _add_combine_job.
      by rewrite (bind_eq_returns _ _ _ _ _ (wf_add_jobs_runs _ s g Hg)).
    - destruct Hl as [|[handle Hhandle]]; [done|].
      exists handle. split; [done|]. rewrite Hhandle, app_nil_r.
      by rewrite with_jobs_same, set_wf_same. }
  exists handle. split; [done|].
  unfold ticket_step. rewrite (bind_eq_returns _ _ _ _ _ Hcj). cbv beta.
  rewrite (bind_eq_returns _ _ _ _ _
             (reorganize_script_rewrites t (set_wf g1 s) modified model_args
                toydata output Hrc Hmod Hargs Hthr Htoy Hout)).
  cbv beta iota.
  rewrite after_reorganize_set_wf. fold sr.
  set (args' := rewritten_args modified toydata output model_args
                  (ticket_kwargs t)).
  assert (args' !! "toydata_mode" = Some mode
          ∧ args' !! "output_filename" = Some (PStr (Path.basename output))
          ∧ args' !! "toydata_filename" = Some (PStr (Path.basename toydata)))
    as (Hmode' & Hout' & Htoy').
  { subst args'. unfold rewritten_args. by simplify_map_eq. }
  rewrite (bind_eq_returns _ _ (set_wf g1 sr) (set_wf g1 sr) mode)
    by (unfold lift, getitem; by rewrite Hmode').
  cbv beta. rewrite Hsup. cbn [negb].
  destruct (shared_inputs_lookups sr) as (f1 & f2 & f3 & f4 & f5 & f6 & Hf1
    & Hf2 & Hf3 & Hf4 & Hf5 & Hf6 & Hshared).
  { subst sr. by rewrite shared_inputs_after_reorganize. }
  rewrite (bind_eq_returns _ _ (set_wf g1 sr) (set_wf g1 sr) f1)
    by (unfold file_attr, attr; cbn [files set_wf]; by rewrite Hf1).
  rewrite (bind_eq_returns _ _ (set_wf g1 sr) (set_wf g1 sr) f2)
    by (unfold file_attr, attr; cbn [files set_wf]; by rewrite Hf2).
  rewrite (bind_eq_returns _ _ (set_wf g1 sr) (set_wf g1 sr) f3)
    by (unfold file_attr, attr; cbn [files set_wf]; by rewrite Hf3).
  rewrite (bind_eq_returns _ _ (set_wf g1 sr) (set_wf g1 sr) f4)
    by (unfold file_attr, attr; cbn [files set_wf]; by rewrite Hf4).
  rewrite (bind_eq_returns _ _ (set_wf g1 sr) (set_wf g1 sr) f5)
    by (unfold file_attr, attr; cbn [files set_wf]; by rewrite Hf5).
  rewrite (bind_eq_returns _ _ (set_wf g1 sr) (set_wf g1 sr) f6)
    by (unfold file_attr, attr; cbn [files set_wf]; by rewrite Hf6).
  rewrite (bind_eq_returns _ _ (set_wf g1 sr) (set_wf g1 sr)
             (added_limit_threshold sr)) by reflexivity.
  cbv beta.
  set (job0 := add_inputs [f1; f2; f3; f4; f5; f6] _).
  assert (∃ job1,
            (if added_limit_threshold sr
             then f_limit_threshold <- file_attr "f_limit_threshold";;
                  ret (add_inputs [f_limit_threshold] job0)
             else ret job0) (set_wf g1 sr)
            = (set_wf g1 sr, Returns job1)
            ∧ job1
              = Job name
                  (job_profiles
                     (compute_job_of self name [] [] ∅))
                  (shared_inputs sr ++ threshold_input sr) [] NoArgs)
    as (job1 & Hjob1 & Hjob1eq).
  { pose proof (threshold_file_after_reorganize t s Hthrfile) as Hfile.
    fold sr in Hfile. unfold threshold_input. rewrite Hshared.
    destruct (added_limit_threshold sr).
    - destruct (Hfile eq_refl) as [f7 Hf7]. eexists. split.
      + rewrite (bind_eq_returns _ _ (set_wf g1 sr) (set_wf g1 sr) f7)
          by (unfold file_attr, attr; cbn [files set_wf]; by rewrite Hf7).
        reflexivity.
      + rewrite Hf7. reflexivity.
    - eexists. split; [reflexivity|]. by rewrite app_nil_r. }
  rewrite (bind_eq_returns _ _ _ _ _ Hjob1). cbv beta. clear Hjob1.
  rewrite (bind_eq_returns _ _ (set_wf g1 sr) (set_wf g1 sr)
             (PStr (Path.basename output)))
    by (unfold lift, getitem; by rewrite Hout').
  cbv beta.
  rewrite (bind_eq_returns _ _ (set_wf g1 sr) (set_wf g1 sr)
             (Path.basename output)) by reflexivity.
  cbv beta.
  rewrite (bind_eq_returns _ _ (set_wf g1 sr) (set_wf g1 sr) handle)
    by reflexivity.
  cbv beta.
  rewrite (bind_eq_returns _ _ _ _ _
             (update_job_runs handle _ (set_wf g1 sr) g1 eq_refl)).
  cbv beta. rewrite set_wf_set_wf.
  rewrite (ticket_outputs_rewritable t mode toydata output) by done.
  match goal with |- bind _ _ ?st = _ => set (s5 := st) end.
  assert (wf s5
          = Some (with_jobs g1
                    (alter (add_inputs [Path.basename output]) handle
                       (wf_jobs g1)))) as Hg5 by done.
  destruct (is_generate_and_store mode).
  - set (g6 := with_jobs g1
                 (alter (add_inputs [Path.basename toydata]) handle
                    (alter (add_inputs [Path.basename output]) handle
                       (wf_jobs g1)))).
    rewrite (bind_eq_returns _ _ s5 (set_wf g6 s5)
               (add_outputs (Path.basename toydata) false
                  (add_outputs (Path.basename output) false job1))).
    2:{ rewrite (bind_eq_returns _ _ s5 s5 (PStr (Path.basename toydata)))
          by (unfold lift, getitem; by rewrite Htoy').
        cbv beta.
        rewrite (bind_eq_returns _ _ s5 s5 (Path.basename toydata))
          by reflexivity.
        cbv beta.
        rewrite (bind_eq_returns _ _ _ _ _ (update_job_runs _ _ _ _ Hg5)).
        reflexivity. }
    cbv beta.
    rewrite (bind_eq_returns _ _ _ _ _
               (wf_add_jobs_runs _ (set_wf g6 s5) g6 eq_refl)).
    cbv beta. subst g6 s5. rewrite !set_wf_set_wf. cbn [wf_jobs with_jobs].
    rewrite alter_add_inputs_twice. subst job1 g1. cbn.
    by case_bool_decide; [|case_bool_decide].
  - rewrite (bind_eq_returns _ _ s5 s5
               (add_outputs (Path.basename output) false job1))
      by reflexivity.
    cbv beta.
    rewrite (bind_eq_returns _ _ _ _ _ (wf_add_jobs_runs _ s5 _ Hg5)).
    cbv beta. subst s5. rewrite !set_wf_set_wf. cbn [wf_jobs with_jobs].
    subst job1 g1. cbn.
    by case_bool_decide; [|case_bool_decide].
Qed.

Lemma ready_after_reorganize t s : ready s → ready (after_reorganize t s).
Proof.
  intros (Hwf & Hrc & Htc & Hsc & Hmod & Hlen & Hfile).
  unfold ready.
  rewrite wf_after_reorganize, modified_after_reorganize,
    shared_inputs_after_reorganize.
  split_and!; try done.
  - unfold after_reorganize, register_threshold. by repeat case_match.
  - unfold after_reorganize, register_threshold. by repeat case_match.
  - unfold after_reorganize, register_threshold. by repeat case_match.
  - by apply threshold_file_after_reorganize.
Qed.

Lemma ready_set_wf g s : ready s → ready (set_wf g s).
Proof. intros (_ & ? & ? & ? & ? & ? & ?). by split_and!. Qed.

Lemma threshold_file_loop_start self sites modified s :
  files (loop_start self sites modified s) !! "f_limit_threshold"
  = files s !! "f_limit_threshold".
Proof.
  unfold loop_start.
  cbn [files set_rc set_file set_tc set_sc set_wf].
  by rewrite !lookup_insert_ne by done.
Qed.

Lemma ready_loop_start self sites modified s :
  modified_statistical_model_config s = Some modified →
  added_limit_threshold s = false ∨ is_Some (files s !! "f_limit_threshold") →
  ready (loop_start self sites modified s).
Proof.
  intros Hmod Hflag. unfold ready.
  rewrite shared_inputs_loop_start, threshold_file_loop_start.
  split_and!; try done.
  intros Hup. destruct Hflag as [Hdown|]; [|done].
  change (added_limit_threshold s = true) in Hup. congruence.
Qed.

(** On accepted tickets, with cohorts that are not empty, the loop
    returns. *)
Lemma tickets_loop_runs self name tickets job_id l s :
  combine_n_outputs self ≠ 0%Z →
  ready s →
  Forall accepted tickets →
  new_to_combine l = true ∨ is_Some (combine_job l) →
  ∃ s' l', tickets_loop self name job_id tickets l s = (s', Returns l')
           ∧ ready s'.
Proof.
  intros HK. revert job_id l s.
  induction tickets as [|t rest IH]; intros job_id l s Hready Hacc Hl.
  { by eexists _, _. }
  apply Forall_cons in Hacc
    as [[(model_args & toydata & output & Hargs & Hthr & Htoy & Hout)
         (mode & Hmode & Hsup)] Hrest].
  pose proof Hready as ([g Hg] & Hrc & _ & _ & [modified Hmod] & Hlen & Hfile).
  destruct (ticket_step_runs self name job_id t l s g modified model_args
              toydata output mode) as (handle & _ & Hstep); try done.
  rewrite bool_decide_eq_false_2 in Hstep by done.
  cbn [tickets_loop]. rewrite (bind_eq_returns _ _ _ _ _ Hstep).
  apply IH; [|done|right; by eexists].
  by apply ready_set_wf, ready_after_reorganize.
Qed.

(** The loop returns on accepted tickets only. *)
Lemma ticket_step_accepted self name job_id t l s s' l' :
  ticket_step self name job_id t l s = (s', Returns l') → accepted t.
Proof.
  unfold ticket_step. intros H.
  apply bind_returns in H as (s1 & cj & _ & H).
  apply bind_returns in H as (s2 & [exe args'] & Hre & H).
  apply reorganize_script_returns in Hre as (_ & args'' & ? & Hcorr).
  simplify_eq.
  pose proof (correct_paths_threshold_text _ _ _ _ Hcorr)
    as (model_args & Hargs & Hthr).
  apply correct_paths_args_dict_returns in Hcorr
    as (_ & Hmode & output & toydata & Hout & Htoy & _).
  apply bind_returns in H as (s3 & mode & [-> Hm]%lift_returns & H).
  unfold getitem in Hm. rewrite Hmode in Hm.
  destruct (ticket_kwargs t !! "toydata_mode") as [mode'|] eqn:Hmode0;
    simplify_eq/=.
  destruct (supported_toydata_mode mode) eqn:Hsup; simplify_eq/=.
  split; [by exists model_args, toydata, output|by exists mode].
Qed.

Lemma tickets_loop_accepted self name tickets l s s' l' :
  tickets_loop self name 0 tickets l s = (s', Returns l') →
  Forall accepted tickets
  ∧ (tickets = [] ∨ combine_n_outputs self ≠ 0%Z).
Proof.
  intros Hloop.
  apply (tickets_loop_invariant self name
           (λ ts _ _, Forall accepted ts
                      ∧ (ts = [] ∨ combine_n_outputs self ≠ 0%Z)))
    with (ts := tickets) (ts0 := []) (s := s) (l := l) (s' := s') (l' := l');
    [|by split; [|left]|done].
  intros ts t s1 l1 s2 l2 [Hacc _] Hstep. split.
  - apply Forall_app. split; [done|].
    constructor; [|done]. by eapply ticket_step_accepted.
  - right. by apply ticket_step_returns in Hstep
      as (_ & _ & _ & _ & _ & _ & _ & _ & _ & _ & ? & _).
Qed.

(** With its checks passed, [_generate_workflow] is the loop started from
    [loop_start], followed by the attachment of the catalogs and the
    writing of the workflow. *)
Lemma generate_workflow_loop self w name tickets s sites modified :
  combine_n_jobs self = 1%Z →
  _generate_sc self w = Returns sites →
  modified_statistical_model_config s = Some modified →
  _generate_workflow self w name tickets s
  = match tickets_loop self name 0 tickets (Locals 0 true None)
            (loop_start self sites modified s) with
    | (sl, Returns _) =>
        match wf sl, rc sl, tc sl, sc sl with
        | Some _, Some _, Some _, Some _ =>
            (add_effect
               (WriteWorkflow (workflow_file self) (finished_workflow sl))
               (set_wf (finished_workflow sl) sl), Returns tt)
        | _, _, _, _ => (sl, Raises AttributeError)
        end
    | (sl, Raises e) => (sl, Raises e)
    end.
Proof.
  intros Hn Hsc Hmod. unfold _generate_workflow.
  rewrite bool_decide_eq_false_2 by (by intros ?).
  unfold bind at 1. unfold modify at 1.
  unfold bind at 1. unfold lift at 1. rewrite Hsc.
  unfold bind at 1. unfold modify at 1.
  unfold bind at 1. unfold modify at 1.
  unfold bind at 1.
  assert (_generate_rc self
            (set_tc (_generate_tc self)
               (set_sc sites
                  (set_wf (Workflow "alea_workflow" [] None None None) s)))
          = (set_file "f_combine" "combine.sh"
               (set_file "f_alea_run_toymc" "alea_run_toymc"
                  (set_file "f_run_toymc_wrapper" "run_toymc_wrapper.sh"
                     (set_file "f_statistical_model_config"
                        (Path.basename modified)
                        (set_file "f_running_configuration"
                           (Path.basename (config_file_path self))
                           (set_file "f_template_tarball"
                              (Path.basename (template_tarball self))
                              (set_tc (_generate_tc self)
                                 (set_sc sites
                                    (set_wf
                                       (Workflow "alea_workflow" [] None
                                          None None) s)))))))),
             Returns (base_replicas self modified))) as ->.
  { unfold _generate_rc, bind, modify, attr, ret, _get_file_name. cbn.
    by rewrite Hmod. }
  unfold bind at 1. unfold modify at 1.
  unfold bind at 1. fold (loop_start self sites modified s).
  destruct (tickets_loop self name 0 tickets (Locals 0 true None)
              (loop_start self sites modified s)) as [sl [l|e]]; [|done].
  unfold bind, attr, modify, finished_workflow, jobs_of.
  destruct (wf sl) as [g|]; [|done].
  destruct (rc sl); [|done]. destruct (tc sl); [|done].
  by destruct (sc sl).
Qed.

Lemma generate_sc_runs self w :
  (∀ v, v ∈ site_variables → is_Some (environ w !! v)) →
  ∃ sites, _generate_sc self w = Returns sites
           ∧ site_name <$> sites = ["local"; "staging-davs"; "condorpool"].
Proof.
  intros Henv. unfold _generate_sc, environ_get.
  destruct (Henv "HOME") as [home ->]; [set_solver|].
  destruct (Henv "USER") as [user ->]; [set_solver|].
  destruct (Henv "X509_USER_PROXY") as [proxy ->]; [set_solver|].
  by eexists.
Qed.

Lemma generate_sc_returns self w sites :
  _generate_sc self w = Returns sites →
  (∀ v, v ∈ site_variables → is_Some (environ w !! v))
  ∧ site_name <$> sites = ["local"; "staging-davs"; "condorpool"].
Proof.
  unfold _generate_sc, environ_get.
  destruct (environ w !! "HOME") as [home|] eqn:Hhome; [|done].
  destruct (environ w !! "USER") as [user|] eqn:Huser; [|done].
  destruct (environ w !! "X509_USER_PROXY") as [proxy|] eqn:Hproxy; [|done].
  intros [= <-]. split; [|done].
  intros v Hv. unfold site_variables in Hv.
  apply elem_of_cons in Hv as [->|Hv]; [by eexists|].
  apply elem_of_cons in Hv as [->|Hv]; [by eexists|].
  apply list_elem_of_singleton in Hv as ->. by eexists.
Qed.

(** A step that returns found the handle of the threshold file, if the
    flag was up. *)
Lemma ticket_step_threshold_file self name job_id t l s s' l' :
  ticket_step self name job_id t l s = (s', Returns l') →
  added_limit_threshold s = true →
  is_Some (files s !! "f_limit_threshold").
Proof.
  unfold ticket_step. intros H Hflag.
  apply bind_returns in H as (s1 & cj & Hcj & H).
  assert (added_limit_threshold s1 = true
          ∧ files s1 = files s) as [Hflag1 Hfiles1].
  { destruct (new_to_combine l).
    - apply bind_returns in Hcj as (? & h & Hadd & Hret).
      apply ret_returns in Hret as [-> _].
      by apply add_combine_job_returns in Hadd as (g & _ & _ & ->).
    - by apply ret_returns in Hcj as [-> _]. }
  apply bind_returns in H as (s2 & [exe args'] & Hre & H).
  apply reorganize_script_returns in Hre as (-> & _).
  unfold after_reorganize in H. rewrite Hflag1 in H.
  apply bind_returns in H as (? & mode & [-> _]%lift_returns & H).
  destruct (negb (supported_toydata_mode mode)); [done|].
  apply bind_returns in H as (? & f1 & [-> _]%file_attr_returns & H).
  apply bind_returns in H as (? & f2 & [-> _]%file_attr_returns & H).
  apply bind_returns in H as (? & f3 & [-> _]%file_attr_returns & H).
  apply bind_returns in H as (? & f4 & [-> _]%file_attr_returns & H).
  apply bind_returns in H as (? & f5 & [-> _]%file_attr_returns & H).
  apply bind_returns in H as (? & f6 & [-> _]%file_attr_returns & H).
  apply bind_returns in H as (? & added & [-> ->]%gets_returns & H).
  apply bind_returns in H as (s4 & job1 & Hjob1 & _).
  rewrite Hflag1 in Hjob1.
  apply bind_returns in Hjob1 as (? & f7 & [-> Hf7]%file_attr_returns & _).
  rewrite <-Hfiles1. by eexists.
Qed.

Lemma tickets_loop_first self name job_id t rest l s s' l' :
  tickets_loop self name job_id (t :: rest) l s = (s', Returns l') →
  ∃ s1 l1, ticket_step self name job_id t l s = (s1, Returns l1).
Proof.
  cbn [tickets_loop]. intros H.
  apply bind_returns in H as (s1 & l1 & Hstep & _). eauto.
Qed.

Lemma flag_loop_start self sites modified s :
  added_limit_threshold (loop_start self sites modified s)
  = added_limit_threshold s.
Proof. reflexivity. Qed.

(** X9: the calls into the Pegasus API being taken to succeed,
    [_generate_workflow] returns exactly when [combine_n_jobs] is 1,
    the environment has [HOME], [USER] and [X509_USER_PROXY], the model
    configuration has been rewritten ([_modify_yaml] has set its name),
    every ticket is accepted (its arguments can be rewritten and its toy
    data mode is supported) and, if there is a ticket at all,
    [combine_n_outputs] is not zero and a threshold flagged as registered
    has its file handle. *)
Theorem generate_workflow_returns_iff self w name tickets s :
  (∃ s', _generate_workflow self w name tickets s = (s', Returns tt))
  ↔ combine_n_jobs self = 1%Z
    ∧ (∀ v, v ∈ site_variables → is_Some (environ w !! v))
    ∧ is_Some (modified_statistical_model_config s)
    ∧ Forall accepted tickets
    ∧ (tickets = []
       ∨ combine_n_outputs self ≠ 0%Z
         ∧ (added_limit_threshold s = true →
            is_Some (files s !! "f_limit_threshold"))).
Proof.
  split.
  - intros [s' Hrun].
    apply generate_workflow_returns in Hrun
      as (Hn & sites & modified & sl & l & Hsc & Hmod & Hloop & _).
    apply generate_sc_returns in Hsc as [Henv _].
    pose proof (tickets_loop_accepted _ _ _ _ _ _ _ Hloop) as [Hacc HK].
    split_and!; [done|done|by eexists|done|].
    destruct tickets as [|t rest]; [by left|right].
    destruct HK as [|HK]; [done|]. split; [done|].
    apply tickets_loop_first in Hloop as (s1 & l1 & Hstep).
    intros Hflag.
    apply ticket_step_threshold_file in Hstep;
      [|by rewrite flag_loop_start].
    by rewrite threshold_file_loop_start in Hstep.
  - intros (Hn & Henv & [modified Hmod] & Hacc & HK).
    destruct (generate_sc_runs self w Henv) as (sites & Hsc & _).
    rewrite (generate_workflow_loop self w name tickets s sites modified)
      by done.
    assert (∃ sl l,
              tickets_loop self name 0 tickets (Locals 0 true None)
                (loop_start self sites modified s) = (sl, Returns l)
              ∧ is_Some (wf sl) ∧ is_Some (rc sl) ∧ is_Some (tc sl)
              ∧ is_Some (sc sl))
      as (sl & l & -> & [? ->] & [? ->] & [? ->] & [? ->]); [|by eexists].
    destruct HK as [->|[HK Hfile]]; [by eexists _, _|].
    destruct (tickets_loop_runs self name tickets 0 (Locals 0 true None)
                (loop_start self sites modified s) HK)
      as (sl & l & Hloop & Hready).
    + apply ready_loop_start; [done|].
      destruct (added_limit_threshold s); [right; by apply Hfile|by left].
    + done.
    + by left.
    + exists sl, l. by destruct Hready as (? & ? & ? & ? & _).
Qed.

(** With [combine_n_outputs] zero the first ticket fails at the test of
    its position, with its two jobs in the workflow. *)
Lemma tickets_loop_zero self name job_id t rest l s g :
  combine_n_outputs self = 0%Z →
  wf s = Some g →
  ready s →
  accepted t →
  new_to_combine l = true →
  ∃ s' job,
    tickets_loop self name job_id (t :: rest) l s
    = (s', Raises ZeroDivisionError)
    ∧ effects s' = effects s
    ∧ jobs_of s'
      = wf_jobs g
        ++ [add_inputs (ticket_outputs t) (combine_job_of self (combine_i l));
            job]
    ∧ job_name job = name
    ∧ output_names job = ticket_outputs t.
Proof.
  intros HK Hg (_ & Hrc & _ & _ & [modified Hmod] & Hlen & Hfile)
    [(model_args & toydata & output & Hargs & Hthr & Htoy & Hout)
     (mode & Hmode & Hsup)] Hnew.
  destruct (ticket_step_runs self name job_id t l s g modified model_args
              toydata output mode)
    as (handle & Hhandle & Hstep); try done; [by left|].
  rewrite bool_decide_eq_true_2 in Hstep by done.
  rewrite Hnew in Hhandle, Hstep. subst handle.
  cbn [tickets_loop]. rewrite (bind_eq_raises _ _ _ _ _ Hstep).
  eexists _, _. split; [reflexivity|]. split.
  { cbn [effects set_wf]. by rewrite effects_after_reorganize. }
  unfold jobs_of. cbn [wf set_wf with_jobs wf_jobs].
  replace (length (wf_jobs g)) with (length (wf_jobs g) + 0) by lia.
  rewrite alter_app_r. cbn [alter list_alter].
  rewrite <-app_assoc. split; [reflexivity|]. split; [done|].
  unfold output_names, compute_job_of. cbn [job_outputs].
  rewrite <-list_fmap_compose. by rewrite list_fmap_id.
Qed.

Lemma wf_loop_start self sites modified s :
  wf (loop_start self sites modified s)
  = Some (Workflow "alea_workflow" [] None None None).
Proof. reflexivity. Qed.

Lemma effects_loop_start self sites modified s :
  effects (loop_start self sites modified s) = effects s.
Proof. reflexivity. Qed.

(** X10: with [combine_n_outputs] zero, workflow generation fails on the
    first ticket with [ZeroDivisionError], at the test of its position:
    by then the combine job of the first cohort and the compute job of the
    ticket are in the workflow, the former with the outputs of the latter
    as inputs; nothing has been written. *)
Theorem zero_combine_n_outputs self w name t rest s :
  combine_n_outputs self = 0%Z →
  combine_n_jobs self = 1%Z →
  (∀ v, v ∈ site_variables → is_Some (environ w !! v)) →
  is_Some (modified_statistical_model_config s) →
  (added_limit_threshold s = true → is_Some (files s !! "f_limit_threshold")) →
  accepted t →
  let result := _generate_workflow self w name (t :: rest) s in
  result.2 = Raises ZeroDivisionError
  ∧ effects result.1 = effects s
  ∧ ∃ job,
      jobs_of result.1
      = [add_inputs (ticket_outputs t) (combine_job_of self 0); job]
      ∧ job_name job = name
      ∧ output_names job = ticket_outputs t.
Proof.
  intros HK Hn Henv [modified Hmod] Hfile Hacc result. subst result.
  destruct (generate_sc_runs self w Henv) as (sites & Hsc & _).
  rewrite (generate_workflow_loop self w name (t :: rest) s sites modified)
    by done.
  destruct (tickets_loop_zero self name 0 t rest (Locals 0 true None)
              (loop_start self sites modified s) _ HK
              (wf_loop_start self sites modified s))
    as (s' & job & -> & Heff & Hjobs & Hname & Hout).
  - apply ready_loop_start; [done|].
    destruct (added_limit_threshold s); [right; by apply Hfile|by left].
  - done.
  - reflexivity.
  - cbn [fst snd]. rewrite Heff, effects_loop_start.
    split; [done|]. split; [done|]. by exists job.
Qed.

Lemma zero_combine_n_outputs_witness :
  (_generate_workflow
     (Config false 1 0 1 1 2000 2000000 20000000 "image" "/opt/alea"
        "/scratch/user/workflows" (Some "/home/user/templates")
        "/home/user/run.yaml" "/home/user/model.yaml" "lq")
     Sample.w "run_toymc_wrapper" Sample.tickets Sample.prepared).2
  = Raises ZeroDivisionError.
Proof.
  apply (zero_combine_n_outputs
           (Config false 1 0 1 1 2000 2000000 20000000 "image" "/opt/alea"
              "/scratch/user/workflows" (Some "/home/user/templates")
              "/home/user/run.yaml" "/home/user/model.yaml" "lq")
           Sample.w "run_toymc_wrapper"
           (Sample.mk_ticket "generate" "r0.h5" None)
           (drop 1 Sample.tickets) Sample.prepared).
  - reflexivity.
  - reflexivity.
  - intros v Hv. apply (bool_decide_unpack _). revert v Hv.
    apply Forall_forall. repeat constructor; by vm_compute.
  - by eexists.
  - intros Hflag. vm_compute in Hflag. discriminate.
  - split.
    + exists (Sample.model_args None), "/data/toy/r0.h5", "/data/out/r0.h5".
      split_and!; [by vm_compute| |by vm_compute..].
      intros v Hv. vm_compute in Hv. discriminate.
    + exists (PStr "generate"). split; by vm_compute.
Defined.

(** ** The catalogs, the rewriting of a ticket and the proxy *)

(** X11: [_generate_sc] needs [HOME], [USER] and [X509_USER_PROXY] in the
    environment and fails with [KeyError] when one is missing.  Otherwise
    it returns the sites [local], [staging-davs] and [condorpool], in this
    order; every directory is served under its own path; the proxy and the
    submitting user given to the submit host and to the pool are the ones
    of the environment. *)
Theorem generate_sc_outcome self w :
  match _generate_sc self w with
  | Returns sites =>
      site_name <$> sites = ["local"; "staging-davs"; "condorpool"]
      ∧ Forall (λ s, Forall served_under_path (site_directories s)) sites
      ∧ ∃ home user proxy local staging condorpool,
          environ w !! "HOME" = Some home
          ∧ environ w !! "USER" = Some user
          ∧ environ w !! "X509_USER_PROXY" = Some proxy
          ∧ sites = [local; staging; condorpool]
          ∧ (ENV, "HOME", PText home) ∈ site_profiles local
          ∧ (ENV, "X509_USER_PROXY", PText proxy) ∈ site_profiles local
          ∧ (CONDOR, "x509userproxy", PText proxy) ∈ site_profiles condorpool
          ∧ (ENV, "PEGASUS_SUBMITTING_USER", PText user)
            ∈ site_profiles local
          ∧ (ENV, "PEGASUS_SUBMITTING_USER", PText user)
            ∈ site_profiles condorpool
  | Raises e =>
      e = KeyError ∧ ∃ v, v ∈ site_variables ∧ environ w !! v = None
  end.
Proof.
  destruct (_generate_sc self w) as [sites|e] eqn:Hsc.
  - pose proof (generate_sc_returns _ _ _ Hsc) as [_ Hnames].
    split; [done|].
    unfold _generate_sc, environ_get in Hsc.
    destruct (environ w !! "HOME") as [home|]; [|done].
    destruct (environ w !! "USER") as [user|]; [|done].
    destruct (environ w !! "X509_USER_PROXY") as [proxy|]; [|done].
    injection Hsc as <-. split.
    + repeat constructor.
      * by exists "file:///".
      * by exists "file:///".
      * by exists "gsidavs://xenon-gridftp.grid.uchicago.edu:2880".
    + eexists home, user, proxy, _, _, _.
      split_and!; try reflexivity; cbn [site_profiles];
        apply list_elem_of_In; cbn; tauto.
  - split; [by apply generate_sc_error in Hsc|].
    unfold _generate_sc, environ_get in Hsc. unfold site_variables.
    destruct (environ w !! "HOME") eqn:Hhome.
    2:{ exists "HOME". split; [|done]. apply list_elem_of_In. cbn. tauto. }
    destruct (environ w !! "USER") eqn:Huser.
    2:{ exists "USER". split; [|done]. apply list_elem_of_In. cbn. tauto. }
    destruct (environ w !! "X509_USER_PROXY") eqn:Hproxy; [done|].
    exists "X509_USER_PROXY". split; [|done].
    apply list_elem_of_In. cbn. tauto.
Qed.

Lemma basename_under d1 d2 n :
  Path.no_slash n = true →
  Path.basename (d1 +:+ d2 +:+ "/" +:+ n) = n.
Proof.
  intros Hn. rewrite <-PathFacts.string_app_assoc.
  by apply PathFacts.basename_app_slash.
Qed.

Lemma base_replicas_named self modified :
  Forall named_after_file (base_replicas self modified).
Proof.
  unfold base_replicas. repeat constructor; cbn.
  - by eexists.
  - by eexists.
  - by eexists.
  - eexists. split; [reflexivity|]. symmetry.
    exact (basename_under (top_dir self) "/alea/submitters"
             "run_toymc_wrapper.sh" eq_refl).
  - eexists. split; [reflexivity|]. symmetry.
    exact (basename_under (top_dir self) "/bin" "alea_run_toymc" eq_refl).
  - eexists. split; [reflexivity|]. symmetry.
    exact (basename_under (top_dir self) "/alea/submitters" "combine.sh"
             eq_refl).
Qed.

(** X12: once the model configuration is rewritten, [_generate_rc] returns
    six replicas and leaves six file handles whose names are the logical
    names of the replicas, in order; every replica lies on the submit host
    and is named after the file it points to; the catalog of the submitter
    is not touched.  Before that, it fails with [AttributeError] after it
    has set the handles of the archive and of the running configuration. *)
Theorem generate_rc_outcome self s :
  match modified_statistical_model_config s with
  | Some modified =>
      ∃ s',
        _generate_rc self s = (s', Returns (base_replicas self modified))
        ∧ shared_inputs s' = rep_lfn <$> base_replicas self modified
        ∧ Forall named_after_file (base_replicas self modified)
        ∧ rc s' = rc s ∧ wf s' = wf s ∧ effects s' = effects s
  | None =>
      ∃ s',
        _generate_rc self s = (s', Raises AttributeError)
        ∧ files s'
          = <["f_running_configuration" :=
                Path.basename (config_file_path self)]>
              (<["f_template_tarball" :=
                   Path.basename (template_tarball self)]> (files s))
        ∧ rc s' = rc s ∧ wf s' = wf s ∧ effects s' = effects s
  end.
Proof.
  destruct (modified_statistical_model_config s) as [modified|] eqn:Hmod.
  - eexists. split.
    + unfold _generate_rc, bind, modify, attr, ret, _get_file_name. cbn.
      rewrite Hmod. reflexivity.
    + split_and!; try done; [|apply base_replicas_named].
      unfold shared_inputs, shared_files, base_replicas.
      cbn [files set_file omap list_omap fmap list_fmap rep_lfn].
      by simplify_map_eq.
  - eexists. split.
    + unfold _generate_rc, bind, modify, attr, ret, _get_file_name. cbn.
      rewrite Hmod. reflexivity.
    + done.
Qed.

(** [_correct_paths_args_dict] has no effect on the submitter, whatever
    its outcome, and fails in three ways only. *)
Lemma correct_paths_args_dict_state (args : gmap string pyval) s :
  (_correct_paths_args_dict args s).1 = s
  ∧ ∀ e, (_correct_paths_args_dict args s).2 = Raises e →
      e = KeyError ∨ e = TypeError ∨ e = AttributeError.
Proof.
  unfold _correct_paths_args_dict, bind, lift, attr, ret.
  split.
  - repeat case_match; simplify_eq/=; done.
  - intros e. repeat case_match; simplify_eq/=; intros [= <-];
      repeat match goal with
        | H : getitem _ _ = Raises _ |- _ => apply getitem_error in H as ->
        | H : basename_of _ = Raises _ |- _ =>
            apply basename_of_error in H as ->
        | H : setitem_target _ = Raises _ |- _ =>
            apply setitem_target_error in H as ->
        end; auto.
Qed.

Lemma correct_paths_args_dict_modified (args args' : gmap string pyval) s s' :
  _correct_paths_args_dict args s = (s', Returns args') →
  is_Some (modified_statistical_model_config s).
Proof.
  unfold _correct_paths_args_dict. intros H.
  apply bind_returns in H as (? & v & [-> _]%lift_returns & H).
  apply bind_returns in H as (? & d & [-> _]%lift_returns & H).
  apply bind_returns in H as (s3 & d' & Hthr & H).
  assert (s3 = s) as ->.
  { destruct (_ !! "limit_threshold") as [thr|].
    - apply bind_returns in Hthr as (? & name & [-> _]%lift_returns & Hthr).
      by apply ret_returns in Hthr as [-> _].
    - by apply ret_returns in Hthr as [-> _]. }
  apply bind_returns in H as (? & v1 & [-> _]%lift_returns & H).
  apply bind_returns in H as (? & v2 & [-> _]%lift_returns & H).
  apply bind_returns in H as (? & v3 & [-> _]%lift_returns & H).
  apply bind_returns in H as (? & v4 & [-> _]%lift_returns & H).
  apply bind_returns in H as (? & m & [-> Hm]%attr_returns & _).
  by eexists.
Qed.

(** What the rewriting returned, when it returns. *)
Lemma correct_paths_args_dict_result (args args' : gmap string pyval) s s' :
  _correct_paths_args_dict args s = (s', Returns args') →
  ∃ modified model_args toydata output,
    modified_statistical_model_config s = Some modified
    ∧ args !! "statistical_model_args" = Some (PDict model_args)
    ∧ (∀ v, model_args !! "limit_threshold" = Some v → ∃ p, v = PStr p)
    ∧ args !! "toydata_filename" = Some (PStr toydata)
    ∧ args !! "output_filename" = Some (PStr output)
    ∧ s' = s
    ∧ args' = rewritten_args modified toydata output model_args args.
Proof.
  intros H.
  destruct (correct_paths_args_dict_modified _ _ _ _ H) as [modified Hmod].
  destruct (correct_paths_threshold_text _ _ _ _ H)
    as (model_args & Hargs & Hthr).
  destruct (correct_paths_args_dict_returns _ _ _ _ H)
    as (-> & _ & output & toydata & Hout & Htoy & _).
  exists modified, model_args, toydata, output.
  rewrite (correct_paths_args_dict_runs args model_args s modified toydata
             output) in H by done.
  injection H as <-. by split_and!.
Qed.

Lemma rewritten_model_args_twice (model_args : gmap string pyval) :
  (∀ v, model_args !! "limit_threshold" = Some v → ∃ p, v = PStr p) →
  rewritten_model_args (rewritten_model_args model_args)
  = rewritten_model_args model_args.
Proof.
  intros Hthr. unfold rewritten_model_args.
  destruct (model_args !! "limit_threshold") as [v|] eqn:Hv.
  - destruct (Hthr v eq_refl) as [p ->].
    rewrite lookup_insert_eq.
    rewrite (PathFacts.basename_no_slash (Path.basename p))
      by apply PathFacts.no_slash_basename.
    apply map_eq. intros k.
    destruct (decide (k = "limit_threshold")) as [->|];
      [by rewrite !lookup_insert_eq|].
    rewrite !(lookup_insert_ne _ "limit_threshold") by done.
    destruct (decide (k = "template_path")) as [->|];
      [by rewrite !lookup_insert_eq|].
    by rewrite !lookup_insert_ne by done.
  - rewrite lookup_insert_ne, Hv by done.
    apply map_eq. intros k.
    destruct (decide (k = "template_path")) as [->|];
      [by rewrite !lookup_insert_eq|].
    by rewrite !(lookup_insert_ne _ "template_path") by done.
Qed.

(** X13: rewriting rewritten arguments changes nothing. *)
Theorem correct_paths_args_dict_idempotent
    (args args' : gmap string pyval) s s' :
  _correct_paths_args_dict args s = (s', Returns args') →
  _correct_paths_args_dict args' s' = (s', Returns args').
Proof.
  intros H.
  apply correct_paths_args_dict_result in H
    as (modified & model_args & toydata & output & Hmod & Hargs & Hthr & Htoy
        & Hout & -> & ->).
  rewrite (correct_paths_args_dict_runs _ (rewritten_model_args model_args)
             s modified (Path.basename toydata) (Path.basename output)).
  - f_equal. f_equal. unfold rewritten_args.
    rewrite rewritten_model_args_twice by done.
    rewrite !(PathFacts.basename_no_slash (Path.basename _))
      by apply PathFacts.no_slash_basename.
    apply map_eq. intros k.
    destruct (decide (k = "statistical_model_config")) as [->|];
      [by rewrite !lookup_insert_eq|].
    rewrite !(lookup_insert_ne _ "statistical_model_config") by done.
    destruct (decide (k = "output_filename")) as [->|];
      [by rewrite !lookup_insert_eq|].
    rewrite !(lookup_insert_ne _ "output_filename") by done.
    destruct (decide (k = "toydata_filename")) as [->|];
      [by rewrite !lookup_insert_eq|].
    rewrite !(lookup_insert_ne _ "toydata_filename") by done.
    destruct (decide (k = "statistical_model_args")) as [->|];
      [by rewrite !lookup_insert_eq|].
    rewrite !(lookup_insert_ne _ "statistical_model_args") by done.
    rewrite !lookup_insert_ne by done. done.
  - done.
  - unfold rewritten_args. by simplify_map_eq.
  - intros v. unfold rewritten_model_args.
    destruct (model_args !! "limit_threshold") as [v0|] eqn:Hv.
    + destruct (Hthr v0 eq_refl) as [p ->].
      rewrite lookup_insert_eq. intros [= <-]. by eexists.
    + rewrite lookup_insert_ne, Hv by done. done.
  - unfold rewritten_args. by simplify_map_eq.
  - unfold rewritten_args. by simplify_map_eq.
Qed.

Lemma correct_paths_args_dict_idempotent_witness :
  let args' :=
    rewritten_args "/scratch/user/workflows/generated/lq/model_modified.yaml"
      "/data/toy/r1.h5" "/data/out/r1.h5"
      (Sample.model_args (Some "/lt/thresholds.json"))
      (Sample.kwargs "generate" "r1.h5" (Some "/lt/thresholds.json")) in
  _correct_paths_args_dict args' Sample.prepared
  = (Sample.prepared, Returns args').
Proof.
  intros args'.
  apply (correct_paths_args_dict_idempotent
           (Sample.kwargs "generate" "r1.h5" (Some "/lt/thresholds.json"))
           args' Sample.prepared).
  apply correct_paths_args_dict_runs.
  - vm_compute. reflexivity.
  - vm_compute. reflexivity.
  - intros v Hv. exists "/lt/thresholds.json". vm_compute in Hv. congruence.
  - vm_compute. reflexivity.
  - vm_compute. reflexivity.
Defined.

(** X14: [_correct_paths_args_dict] leaves the submitter as it was,
    whatever its outcome; it fails with [KeyError], [TypeError] or
    [AttributeError] only, and it does fail when the mapping lacks the
    model arguments, the toy data file or the output file, or when the
    model configuration has not been rewritten. *)
Theorem correct_paths_args_dict_frame (args : gmap string pyval) s :
  (_correct_paths_args_dict args s).1 = s
  ∧ (∀ e, (_correct_paths_args_dict args s).2 = Raises e →
       e = KeyError ∨ e = TypeError ∨ e = AttributeError)
  ∧ ((args !! "statistical_model_args" = None
      ∨ args !! "toydata_filename" = None
      ∨ args !! "output_filename" = None) →
     ∃ e, (_correct_paths_args_dict args s).2 = Raises e)
  ∧ (modified_statistical_model_config s = None →
     ∃ e, (_correct_paths_args_dict args s).2 = Raises e).
Proof.
  destruct (correct_paths_args_dict_state args s) as [Hstate Herr].
  split; [done|]. split; [done|].
  destruct (_correct_paths_args_dict args s) as [s' [args'|e]] eqn:Hrun;
    [|by split; eexists].
  apply correct_paths_args_dict_result in Hrun
    as (modified & model_args & toydata & output & Hmod & Hargs & _ & Htoy
        & Hout & _).
  split; [intros [?|[?|?]]|intros ?]; congruence.
Qed.

(** X15: once a threshold is registered, [_reorganize_script] leaves the
    submitter as it was.  Before that, with a catalog to register into and
    thresholds that are text, the state it leaves is the one with the
    threshold of the ticket registered, whether the rewriting of the
    arguments that follows succeeds or not: a ticket that names a threshold
    raises the flag and adds the one replica. *)
Theorem reorganize_script_state t s :
  (added_limit_threshold s = true → (_reorganize_script t s).1 = s)
  ∧ (is_Some (rc s) →
     (∀ v, threshold_of t = Some v → ∃ p, v = PStr p) →
     (_reorganize_script t s).1 = after_reorganize t s
     ∧ (added_limit_threshold s = false →
        ∀ p, threshold_of t = Some (PStr p) →
          added_limit_threshold (_reorganize_script t s).1 = true
          ∧ rc (_reorganize_script t s).1
            = Some (default [] (rc s)
                    ++ [Replica "local" (Path.basename p)
                          ("file://" +:+ p)]))).
Proof.
  assert (∀ s1,
            ((args_dict <- _correct_paths_args_dict (ticket_kwargs t);;
              ret (_get_file_name (ticket_executable t), args_dict)) s1).1
            = s1) as Hrest.
  { intros s1. unfold bind.
    pose proof (correct_paths_args_dict_state (ticket_kwargs t) s1) as [Hs _].
    by destruct (_correct_paths_args_dict (ticket_kwargs t) s1) as [? [|]]. }
  assert (is_Some (rc s) →
          (∀ v, threshold_of t = Some v → ∃ p, v = PStr p) →
          (_reorganize_script t s).1 = after_reorganize t s) as Hstate.
  { intros [c Hc] Htext. unfold _reorganize_script, after_reorganize.
    rewrite (bind_eq_returns _ _ s s (added_limit_threshold s)) by reflexivity.
    cbv beta. destruct (added_limit_threshold s).
    { rewrite (bind_eq_returns _ _ s s tt) by reflexivity. apply Hrest. }
    unfold threshold_of in *.
    destruct (ticket_kwargs t !! "statistical_model_args") as [v|] eqn:Hv.
    2:{ unfold bind at 1 2. unfold lift, getitem. by rewrite Hv. }
    destruct v as [?|?| |d];
      try (unfold bind at 1 2; unfold lift, getitem; by rewrite Hv).
    destruct (d !! "limit_threshold") as [thr|] eqn:Hthr.
    - destruct (Htext thr eq_refl) as [p ->].
      rewrite (bind_eq_returns _ _ s (register_threshold p s) tt);
        [apply Hrest|].
      rewrite (bind_eq_returns _ _ s s (PDict d))
        by (unfold lift, getitem; by rewrite Hv).
      cbv beta.
      rewrite (bind_eq_returns _ _ s s d) by reflexivity.
      cbv beta. rewrite Hthr.
      rewrite (bind_eq_returns _ _ s (set_limit_threshold (PStr p) s) tt)
        by reflexivity.
      cbv beta. rewrite (add_limit_threshold_runs p c) by done.
      unfold register_threshold. by rewrite Hc.
    - rewrite (bind_eq_returns _ _ s s tt); [apply Hrest|].
      rewrite (bind_eq_returns _ _ s s (PDict d))
        by (unfold lift, getitem; by rewrite Hv).
      cbv beta.
      rewrite (bind_eq_returns _ _ s s d) by reflexivity.
      cbv beta. by rewrite Hthr. }
  split.
  - intros Hflag. unfold _reorganize_script.
    rewrite (bind_eq_returns _ _ s s true) by (by rewrite <-Hflag).
    cbv beta. rewrite (bind_eq_returns _ _ s s tt) by reflexivity.
    apply Hrest.
  - intros Hrc Htext. rewrite (Hstate Hrc Htext). split; [done|].
    intros Hflag p Hp. unfold after_reorganize. rewrite Hflag, Hp. done.
Qed.

Lemma reorganize_script_state_witness :
  added_limit_threshold
    (_reorganize_script
       (Ticket "/opt/alea/bin/alea_run_toymc"
          (<["statistical_model_args" :=
               PDict (Sample.model_args (Some "/lt/thresholds.json"))]> ∅))
       (set_rc [] init_state)).1
  = true.
Proof.
  refine (proj1
            (proj2
               (proj2
                  (reorganize_script_state
                     (Ticket "/opt/alea/bin/alea_run_toymc"
                        (<["statistical_model_args" :=
                             PDict
                               (Sample.model_args
                                  (Some "/lt/thresholds.json"))]> ∅))
                     (set_rc [] init_state)) _ _) _
               "/lt/thresholds.json" _)).
  - by eexists.
  - intros v Hv. exists "/lt/thresholds.json". vm_compute in Hv. congruence.
  - reflexivity.
  - vm_compute. reflexivity.
Defined.

(** X16: [_validate_x509_proxy] records the proxy of the environment,
    whatever its outcome.  It returns exactly when the proxy is set and not
    empty, the helper exits with code 0 and prints a number of seconds that
    covers the hours asked for; it fails its assertion exactly when the
    proxy is unset or empty; a proxy good for some hours is good for
    fewer. *)
Theorem validate_x509_proxy_outcome w hours s :
  let result := _validate_x509_proxy w hours s in
  result.1 = set_x509_user_proxy (environ w !! "X509_USER_PROXY") s
  ∧ (result.2 = Returns tt
     ↔ ∃ proxy outerr seconds,
         environ w !! "X509_USER_PROXY" = Some proxy
         ∧ proxy ≠ EmptyString
         ∧ shell_run w ("grid-proxy-info -timeleft -file " +:+ proxy)
           = ShellExit 0 outerr
         ∧ parse_int w outerr = Some seconds
         ∧ (hours * 3600 ≤ seconds)%Z)
  ∧ (result.2 = Raises AssertionError
     ↔ environ w !! "X509_USER_PROXY" = None
       ∨ environ w !! "X509_USER_PROXY" = Some EmptyString)
  ∧ ∀ fewer, (fewer ≤ hours)%Z → result.2 = Returns tt →
      (_validate_x509_proxy w fewer s).2 = Returns tt.
Proof.
  intros result. subst result.
  assert (∀ h,
            (_validate_x509_proxy w h s).1
            = set_x509_user_proxy (environ w !! "X509_USER_PROXY") s
            ∧ ((_validate_x509_proxy w h s).2 = Returns tt
               ↔ ∃ proxy outerr seconds,
                   environ w !! "X509_USER_PROXY" = Some proxy
                   ∧ proxy ≠ EmptyString
                   ∧ shell_run w
                       ("grid-proxy-info -timeleft -file " +:+ proxy)
                     = ShellExit 0 outerr
                   ∧ parse_int w outerr = Some seconds
                   ∧ (h * 3600 ≤ seconds)%Z)
            ∧ ((_validate_x509_proxy w h s).2 = Raises AssertionError
               ↔ environ w !! "X509_USER_PROXY" = None
                 ∨ environ w !! "X509_USER_PROXY" = Some EmptyString))
    as Hall.
  { intros h. unfold _validate_x509_proxy, bind, modify.
    destruct (environ w !! "X509_USER_PROXY") as [proxy|] eqn:Hproxy.
    2:{ split_and!; [done| |]; split; try done; [|by left].
        by intros (? & ? & ? & ? & _). }
    destruct proxy as [|c proxy].
    { split_and!; [done| |]; split; try done; [|by right].
      by intros (? & ? & ? & [= <-] & ? & _). }
    set (p := String c proxy).
    destruct (shell_run w ("grid-proxy-info -timeleft -file " +:+ p))
      as [|code outerr] eqn:Hshell.
    { split_and!; [done| |]; split; try done.
      - intros (? & ? & ? & [= <-] & _ & ? & _). congruence.
      - by intros [|]. }
    case_bool_decide as Hcode.
    { split_and!; [done| |]; split; try done.
      - intros (? & ? & ? & [= <-] & _ & ? & _). congruence.
      - by intros [|]. }
    assert (code = 0%Z) as -> by (by destruct (decide (code = 0%Z))).
    destruct (parse_int w outerr) as [seconds|] eqn:Hparse.
    2:{ split_and!; [done| |]; split; try done.
        - intros (? & ? & ? & [= <-] & _ & ? & ? & _). congruence.
        - by intros [|]. }
    destruct (seconds <? h * 60 * 60)%Z eqn:Hlt.
    - apply Z.ltb_lt in Hlt.
      split_and!; [done| |]; split; try done.
      + intros (? & o & sec & [= <-] & _ & Hs & Hp & Hle).
        fold p in Hs. rewrite Hshell in Hs. injection Hs as <-.
        rewrite Hparse in Hp. injection Hp as <-. lia.
      + by intros [|].
    - apply Z.ltb_ge in Hlt.
      split_and!; [done| |]; split; try done.
      + intros _. exists p, outerr, seconds. split_and!; try done. lia.
      + by intros [|]. }
  destruct (Hall hours) as (Hstate & Hret & Hassert).
  split_and!; try done.
  intros fewer Hfewer Hok. apply Hall. apply Hret in Hok
    as (proxy & outerr & seconds & ? & ? & ? & ? & ?).
  exists proxy, outerr, seconds. split_and!; try done. lia.
Qed.

(** ** The stages of [submit] *)

Module DirFacts.
Import Path PathFacts.

Lemma endswith_app c a b :
  b ≠ EmptyString → endswith c (a +:+ b) = endswith c b.
Proof.
  intros Hb. induction a as [|x r IH]; rewrite ?append_nil_l, ?append_cons;
    [done|].
  cbn [endswith]. destruct (r +:+ b) eqn:Hrb; [|done].
  destruct r; [|done]. by rewrite append_nil_l in Hrb.
Qed.

Lemma str_take_app a b : str_take (String.length a) (a +:+ b) = a.
Proof.
  induction a as [|x r IH]; rewrite ?append_nil_l, ?append_cons.
  - by destruct b.
  - cbn. by rewrite IH.
Qed.

Lemma length_app_string (a b : string) :
  String.length (a +:+ b) = String.length a + String.length b.
Proof.
  induction a as [|x r IH]; rewrite ?append_nil_l, ?append_cons; [done|].
  cbn. by rewrite IH.
Qed.

Lemma all_slashes_false a :
  a ≠ EmptyString → endswith "/" a = false → all_slashes a = false.
Proof.
  induction a as [|x r IH]; [done|]. intros _. cbn [endswith all_slashes].
  destruct r as [|y r'].
  - by intros ->.
  - intros He. rewrite IH by done. apply andb_false_r.
Qed.

Lemma all_slashes_app a b : all_slashes (a +:+ b) = all_slashes a && all_slashes b.
Proof.
  induction a as [|x r IH]; rewrite ?append_nil_l, ?append_cons; [done|].
  cbn [all_slashes]. by rewrite IH, andb_assoc.
Qed.

Lemma rstrip_slashes_app_slash a :
  a ≠ EmptyString → endswith "/" a = false → rstrip_slashes (a +:+ "/") = a.
Proof.
  induction a as [|x r IH]; [done|]. intros _ He.
  rewrite append_cons. cbn [rstrip_slashes].
  rewrite <-append_cons, all_slashes_app, all_slashes_false by done.
  cbn [andb]. f_equal.
  destruct r as [|y r'].
  - by rewrite append_nil_l.
  - by apply IH.
Qed.

(** The directory of [d/n] is [d], when [d] does not end with a
    separator and [n] holds none. *)
Lemma dirname_app_slash d n :
  d ≠ EmptyString → endswith "/" d = false → no_slash n = true →
  dirname (d +:+ String "/" n) = d.
Proof.
  intros Hd He Hn. unfold dirname. rewrite rfind_app_slash by done.
  replace (Z.to_nat (Z.of_nat (String.length d) + 1))
    with (String.length (d +:+ "/")) by (rewrite length_app_string; cbn; lia).
  replace (d +:+ String "/" n) with ((d +:+ "/") +:+ n)
    by (by rewrite string_app_assoc).
  rewrite str_take_app.
  rewrite all_slashes_app, all_slashes_false by done. cbn [andb].
  by apply rstrip_slashes_app_slash.
Qed.

Lemma join_bare a b :
  b ≠ EmptyString → no_slash b = true →
  join a b ≠ EmptyString ∧ endswith "/" (join a b) = false.
Proof.
  intros Hb Hbare.
  assert (endswith "/" b = false) as Hend.
  { clear Hb. induction b as [|x r IH]; [done|].
    cbn in Hbare. apply andb_true_iff in Hbare as [Hx Hr].
    cbn [endswith]. destruct r; [by apply negb_true_iff|by apply IH]. }
  unfold join. rewrite startswith_no_slash by done.
  destruct (bool_decide (a = EmptyString) || endswith "/" a).
  - split; [|by rewrite endswith_app].
    destruct a; [by rewrite append_nil_l|by rewrite append_cons].
  - split; [by destruct a|].
    rewrite endswith_app; [|by destruct b].
    by rewrite (endswith_app "/" "/" b).
Qed.

Lemma join_app_slash a b :
  a ≠ EmptyString → endswith "/" a = false → no_slash b = true →
  join a b = a +:+ String "/" b.
Proof.
  intros Ha He Hb. unfold join. rewrite startswith_no_slash, He by done.
  by rewrite bool_decide_eq_false_2.
Qed.

End DirFacts.

(** The directory the planner works in, joined with the relative
    directory it is given, is the run directory. *)
Lemma plan_dir_runs_dir self :
  workflow_id self ≠ EmptyString →
  Path.no_slash (workflow_id self) = true →
  Path.join (Path.dirname (runs_dir self)) (workflow_id self) = runs_dir self.
Proof.
  intros Hid Hbare. unfold runs_dir.
  destruct (DirFacts.join_bare (work_dir self) "runs") as [Hne He];
    [discriminate|reflexivity|].
  rewrite (DirFacts.join_app_slash (Path.join (work_dir self) "runs")
             (workflow_id self)) by done.
  by rewrite DirFacts.dirname_app_slash, DirFacts.join_app_slash.
Qed.

(** X17: [_plan_and_submit] needs the workflow and fails with
    [AttributeError] without it.  It plans on [condorpool], staging through
    [staging-davs], with outputs on [local], and submits unless debugging.
    For a workflow id that is a plain name, the directory it plans in,
    joined with the relative directory, is the run directory whose absence
    [submit] checked. *)
Theorem plan_and_submit_outcome self s :
  match wf s with
  | Some _ =>
      ∃ p,
        _plan_and_submit self s = (set_planned p s, Returns tt)
        ∧ plan_submit p = negb (debug self)
        ∧ plan_sites p = ["condorpool"]
        ∧ plan_staging_sites p = [("condorpool", "staging-davs")]
        ∧ plan_output_sites p = ["local"]
        ∧ (workflow_id self ≠ EmptyString →
           Path.no_slash (workflow_id self) = true →
           Path.join (plan_dir p) (plan_relative_dir p) = runs_dir self)
  | None => _plan_and_submit self s = (s, Raises AttributeError)
  end.
Proof.
  unfold _plan_and_submit, bind, attr, modify.
  destruct (wf s) as [g|]; [|done].
  eexists. split; [reflexivity|]. split_and!; try done.
  cbn [plan_dir plan_relative_dir]. apply plan_dir_runs_dir.
Qed.

Lemma validate_x509_proxy_state w hours s :
  (_validate_x509_proxy w hours s).1
  = set_x509_user_proxy (environ w !! "X509_USER_PROXY") s.
Proof.
  unfold _validate_x509_proxy, bind, modify, raise, ret.
  repeat case_match; done.
Qed.

Lemma modify_yaml_returns self w s s' u :
  _modify_yaml self w s = (s', Returns u) →
  ∃ data',
    bare_templates data' = true
    ∧ s' = add_effect
             (DumpYaml
                (Path.join (generated_dir self)
                   (Path.replace ".yaml" "_modified.yaml"
                      (Path.basename (statistical_model_config self))))
                data')
             (set_modified_statistical_model_config
                (Path.join (generated_dir self)
                   (Path.replace ".yaml" "_modified.yaml"
                      (Path.basename (statistical_model_config self))))
                s).
Proof.
  unfold _modify_yaml, _get_file_name. intros H.
  apply bind_returns in H as (? & [] & ->%modify_returns & H).
  apply bind_returns in H as (? & data & [-> Hload]%lift_returns & H).
  apply bind_returns in H as (? & data' & [-> Hupd]%lift_returns & H).
  apply modify_returns in H as ->. exists data'. split; [|done].
  by apply (update_template_filenames_bare data).
Qed.

Lemma validate_template_path_returns self w s s' u :
  _validate_template_path self w s = (s', Returns u) →
  s' = s ∧ ∃ p, template_path self = Some p ∧ path_exists w p = true.
Proof.
  unfold _validate_template_path.
  destruct (template_path self) as [p|]; [|done].
  destruct (path_exists w p) eqn:Hp; [|done].
  intros [= <-]. eauto.
Qed.

Lemma make_template_tarball_returns self w s s' u :
  _make_template_tarball self w s = (s', Returns u) →
  ∃ members, s' = add_effect (WriteTar (template_tarball self) members) s.
Proof.
  unfold _make_template_tarball, _tar_h5_files.
  destruct (template_path self); [|done].
  intros [= <-]. eauto.
Qed.

Lemma generate_workflow_effects self w name tickets s s' u :
  _generate_workflow self w name tickets s = (s', Returns u) →
  ∃ g, wf s' = Some g
       ∧ effects s' = effects s ++ [WriteWorkflow (workflow_file self) g]
       ∧ planned s' = planned s
       ∧ x509_user_proxy s' = x509_user_proxy s
       ∧ modified_statistical_model_config s'
         = modified_statistical_model_config s.
Proof.
  intros Hrun.
  pose proof (generate_workflow_triple self w name tickets s s
                (untouched_refl s)) as H.
  rewrite Hrun in H. destruct H as (g & Hg & (_ & ? & ? & ?) & ?).
  by exists g.
Qed.

Lemma submit_returns self w tickets s s' u :
  submit self w tickets s = (s', Returns u) →
  path_exists w (runs_dir self) = false
  ∧ (_validate_x509_proxy w 20 s).2 = Returns tt
  ∧ ∃ p data members g,
      template_path self = Some p
      ∧ path_exists w p = true
      ∧ NoDup (walked_files w p)
      ∧ bare_templates data = true
      ∧ wf s' = Some g
      ∧ planned s' = Some (plan_of self)
      ∧ x509_user_proxy s' = environ w !! "X509_USER_PROXY"
      ∧ effects s'
        = effects s
          ++ submitted_effects self
               (Path.join (generated_dir self)
                  (Path.replace ".yaml" "_modified.yaml"
                     (Path.basename (statistical_model_config self))))
               data members g.
Proof.
  unfold submit. destruct (path_exists w (runs_dir self)); [done|].
  intros H. split; [done|].
  apply bind_returns in H as (s1 & [] & Hproxy & H).
  pose proof (validate_x509_proxy_state w 20 s) as Hs1.
  rewrite Hproxy in Hs1 |- *. cbn [fst snd] in Hs1. split; [done|].
  apply bind_returns in H as (? & [] & ->%modify_returns & H).
  apply bind_returns in H as (? & [] & ->%modify_returns & H).
  apply bind_returns in H as (? & [] & ->%modify_returns & H).
  apply bind_returns in H as (s2 & [] & Hyaml & H).
  apply modify_yaml_returns in Hyaml as (data & Hbare & ->).
  apply bind_returns in H as (s3 & [] & Hpath & H).
  apply validate_template_path_returns in Hpath as (-> & p & Hp & Hex).
  apply bind_returns in H as (s4 & [] & Hcheck & H).
  apply (check_filename_unique_returns _ _ _ _ _ _ Hp) in Hcheck
    as [-> Hnd].
  apply bind_returns in H as (s5 & [] & Htar & H).
  apply make_template_tarball_returns in Htar as (members & ->).
  apply bind_returns in H as (s6 & [] & Hgen & H).
  apply generate_workflow_effects in Hgen
    as (g & Hg & Heff & Hplanned & Hx509 & _).
  apply bind_returns in H as (s7 & [] & Hplan & H).
  unfold _plan_and_submit in Hplan.
  apply bind_returns in Hplan as (? & g' & [-> _]%attr_returns & Hplan).
  apply modify_returns in Hplan as ->.
  exists p, data, members, g.
  assert (wf s' = Some g ∧ planned s' = Some (plan_of self)
          ∧ x509_user_proxy s' = x509_user_proxy s6
          ∧ effects s'
            = effects s6
              ++ (if debug self
                  then [WriteGraph
                          (Path.join (outputs_dir self) "workflow_graph.dot");
                        WriteGraph
                          (Path.join (outputs_dir self) "workflow_graph.svg")]
                  else [])) as (? & ? & Hx & He).
  { destruct (debug self) eqn:Hdebug.
    - apply bind_returns in H as (? & [] & ->%modify_returns & H).
      apply modify_returns in H as ->. cbn.
      unfold plan_of. rewrite Hdebug. by rewrite <-app_assoc.
    - apply ret_returns in H as [-> _]. cbn.
      unfold plan_of. rewrite Hdebug. by rewrite app_nil_r. }
  split_and!; try done.
  - rewrite Hx, Hx509, Hs1. reflexivity.
  - rewrite He, Heff, Hs1. unfold submitted_effects, add_effect.
    cbn [effects set_x509_user_proxy set_modified_statistical_model_config].
    rewrite <-!app_assoc. reflexivity.
Qed.

(** X18: when [submit] returns, every check has passed: the run directory
    was not there, the proxy is good for 20 hours, the template path
    exists and holds no file name twice.  What it has put on disk, in
    order, is the three directories, the rewritten model configuration
    (with bare template names), the archive, the workflow, and the two
    graphs when debugging; the workflow written is the one planned. *)
Theorem submit_success self w tickets s :
  let result := submit self w tickets s in
  result.2 = Returns tt →
  path_exists w (runs_dir self) = false
  ∧ (_validate_x509_proxy w 20 s).2 = Returns tt
  ∧ ∃ p data members g,
      template_path self = Some p
      ∧ path_exists w p = true
      ∧ NoDup (walked_files w p)
      ∧ bare_templates data = true
      ∧ wf result.1 = Some g
      ∧ planned result.1 = Some (plan_of self)
      ∧ x509_user_proxy result.1 = environ w !! "X509_USER_PROXY"
      ∧ effects result.1
        = effects s
          ++ submitted_effects self
               (Path.join (generated_dir self)
                  (Path.replace ".yaml" "_modified.yaml"
                     (Path.basename (statistical_model_config self))))
               data members g.
Proof.
  intros result Hret. subst result.
  destruct (submit self w tickets s) as [s' out] eqn:Hrun.
  cbn [fst snd] in *. subst out. by eapply submit_returns.
Qed.

Lemma submit_success_witness :
  path_exists Sample.w (runs_dir Sample.self) = false
  ∧ (_validate_x509_proxy Sample.w 20 init_state).2 = Returns tt.
Proof.
  destruct (submit_success Sample.self Sample.w Sample.tickets init_state)
    as (Hfresh & Hproxy & _).
  - vm_compute. reflexivity.
  - split; [exact Hfresh|exact Hproxy].
Defined.

Lemma validate_x509_proxy_runs w hours s out :
  (_validate_x509_proxy w hours s).2 = out →
  _validate_x509_proxy w hours s
  = (set_x509_user_proxy (environ w !! "X509_USER_PROXY") s, out).
Proof.
  intros <-. rewrite <-(validate_x509_proxy_state w hours s).
  by destruct (_validate_x509_proxy w hours s).
Qed.

(** [submit] up to the rewriting of the model configuration. *)
Lemma submit_to_modify_yaml self w tickets s :
  path_exists w (runs_dir self) = false →
  (_validate_x509_proxy w 20 s).2 = Returns tt →
  submit self w tickets s
  = (_modify_yaml self w;;
     _validate_template_path self w;;
     _check_filename_unique self w;;
     _make_template_tarball self w;;
     _generate_workflow self w "run_toymc_wrapper" tickets;;
     _plan_and_submit self;;
     if debug self then
       modify (add_effect
                 (WriteGraph
                    (Path.join (outputs_dir self) "workflow_graph.dot")));;
       modify (add_effect
                 (WriteGraph
                    (Path.join (outputs_dir self) "workflow_graph.svg")))
     else ret tt) (directories_made self w s).
Proof.
  intros Hfresh Hproxy. unfold submit. rewrite Hfresh.
  rewrite (bind_eq_returns _ _ _ _ _
             (validate_x509_proxy_runs w 20 s _ Hproxy)).
  reflexivity.
Qed.

(** X19: when the proxy check fails, [submit] fails with the same exception
    and has done nothing but record the proxy: no directory is made. *)
Theorem submit_stops_at_proxy self w tickets s e :
  path_exists w (runs_dir self) = false →
  (_validate_x509_proxy w 20 s).2 = Raises e →
  submit self w tickets s
  = (set_x509_user_proxy (environ w !! "X509_USER_PROXY") s, Raises e).
Proof.
  intros Hfresh Hproxy. unfold submit. rewrite Hfresh.
  by rewrite (bind_eq_raises _ _ _ _ _
                (validate_x509_proxy_runs w 20 s _ Hproxy)).
Qed.

Lemma submit_stops_at_proxy_witness :
  (submit Sample.self
     (World (path_exists Sample.w) ∅ "user" (os_walk Sample.w)
        (shell_run Sample.w) (parse_int Sample.w) (load_yaml Sample.w))
     Sample.tickets init_state).2
  = Raises AssertionError.
Proof.
  rewrite (submit_stops_at_proxy Sample.self
             (World (path_exists Sample.w) ∅ "user" (os_walk Sample.w)
                (shell_run Sample.w) (parse_int Sample.w)
                (load_yaml Sample.w))
             Sample.tickets init_state AssertionError).
  - reflexivity.
  - vm_compute. reflexivity.
  - vm_compute. reflexivity.
Defined.

(** X20: a template path that is not configured, or does not exist, is
    found out only after the directories are made and the model
    configuration is rewritten: [submit] fails with [ValueError], leaving
    these four things on disk, no archive, no workflow and no plan. *)
Theorem submit_stops_at_template_path self w tickets s :
  path_exists w (runs_dir self) = false →
  (_validate_x509_proxy w 20 s).2 = Returns tt →
  (∃ data, load_yaml w (statistical_model_config self) = Returns data
           ∧ text_templates data = true) →
  (∀ p, template_path self = Some p → path_exists w p = false) →
  let result := submit self w tickets s in
  result.2 = Raises ValueError
  ∧ wf result.1 = wf s
  ∧ planned result.1 = planned s
  ∧ ∃ modified data,
      modified_statistical_model_config result.1 = Some modified
      ∧ effects result.1
        = effects s
          ++ [MakeDirs (generated_dir self); MakeDirs (runs_dir self);
              MakeDirs (outputs_dir self); DumpYaml modified data].
Proof.
  intros Hfresh Hproxy (data0 & Hload & Htext) Hpath result. subst result.
  rewrite submit_to_modify_yaml by done.
  pose proof (update_template_filenames_outcome data0) as Hupd.
  destruct (update_template_filenames data0) as [data|e] eqn:Hdata;
    [|destruct Hupd; congruence].
  set (modified := Path.join (generated_dir self)
                     (Path.replace ".yaml" "_modified.yaml"
                        (_get_file_name (statistical_model_config self)))).
  assert (_modify_yaml self w (directories_made self w s)
          = (add_effect (DumpYaml modified data)
               (set_modified_statistical_model_config modified
                  (directories_made self w s)), Returns tt)) as Hyaml.
  { unfold _modify_yaml, bind, modify, lift. by rewrite Hload, Hdata. }
  rewrite (bind_eq_returns _ _ _ _ _ Hyaml). cbv beta.
  assert (∀ s1, _validate_template_path self w s1 = (s1, Raises ValueError))
    as Hvalidate.
  { intros s1. unfold _validate_template_path.
    destruct (template_path self) as [p|]; [|done].
    by rewrite (Hpath p). }
  rewrite (bind_eq_raises _ _ _ _ _ (Hvalidate _)). cbn [fst snd].
  split_and!; try done.
  exists modified, data. split; [done|].
  unfold directories_made, add_effect.
  cbn [effects set_x509_user_proxy set_modified_statistical_model_config].
  rewrite <-!app_assoc. reflexivity.
Qed.

Lemma submit_stops_at_template_path_witness :
  (submit
     (Config false 1 2 1 1 2000 2000000 20000000 "image" "/opt/alea"
        "/scratch/user/workflows" None "/home/user/run.yaml"
        "/home/user/model.yaml" "lq")
     Sample.w Sample.tickets init_state).2
  = Raises ValueError.
Proof.
  apply (submit_stops_at_template_path
           (Config false 1 2 1 1 2000 2000000 20000000 "image" "/opt/alea"
              "/scratch/user/workflows" None "/home/user/run.yaml"
              "/home/user/model.yaml" "lq")
           Sample.w Sample.tickets init_state).
  - vm_compute. reflexivity.
  - vm_compute. reflexivity.
  - exists Sample.model_yaml. split; vm_compute; reflexivity.
  - intros p Hp. discriminate Hp.
Defined.



(** ** The workflow that is written *)

Lemma ticket_step_modified self name job_id t l s s' l' :
  ticket_step self name job_id t l s = (s', Returns l') →
  is_Some (modified_statistical_model_config s).
Proof.
  unfold ticket_step. intros H.
  apply bind_returns in H as (s1 & cj & Hcj & H).
  assert (modified_statistical_model_config s1
          = modified_statistical_model_config s) as <-.
  { destruct (new_to_combine l).
    - apply bind_returns in Hcj as (? & h & Hadd & Hret).
      apply ret_returns in Hret as [-> _].
      by apply add_combine_job_returns in Hadd as (g & _ & _ & ->).
    - by apply ret_returns in Hcj as [-> _]. }
  apply bind_returns in H as (s2 & [exe args'] & Hre & _).
  apply reorganize_script_returns in Hre as (-> & args'' & _ & Hcorr).
  apply correct_paths_args_dict_modified in Hcorr.
  by rewrite modified_after_reorganize in Hcorr.
Qed.

(** The state a returning step leaves, with the compute job it added. *)
Lemma ticket_step_result self name job_id t l s s' l' :
  is_Some (rc s) →
  ticket_step self name job_id t l s = (s', Returns l') →
  ∃ g handle modified model_args toydata output,
    wf s = Some g
    ∧ modified_statistical_model_config s = Some modified
    ∧ ticket_kwargs t !! "statistical_model_args" = Some (PDict model_args)
    ∧ ticket_kwargs t !! "toydata_filename" = Some (PStr toydata)
    ∧ ticket_kwargs t !! "output_filename" = Some (PStr output)
    ∧ s' = set_wf
             (with_jobs g
                (alter (add_inputs (ticket_outputs t)) handle
                   (wf_jobs g ++
                    (if new_to_combine l
                     then [combine_job_of self (combine_i l)] else []))
                 ++ [compute_job_of self name
                       (shared_inputs (after_reorganize t s)
                        ++ threshold_input (after_reorganize t s))
                       (ticket_outputs t)
                       (rewritten_args modified toydata output model_args
                          (ticket_kwargs t))]))
             (after_reorganize t s).
Proof.
  intros Hrc Hstep.
  pose proof (ticket_step_accepted _ _ _ _ _ _ _ _ Hstep)
    as [(model_args & toydata & output & Hargs & Hthr & Htoy & Hout)
        (mode & Hmode & Hsup)].
  pose proof (ticket_step_modified _ _ _ _ _ _ _ _ Hstep) as [modified Hmod].
  pose proof (ticket_step_threshold_file _ _ _ _ _ _ _ _ Hstep) as Hfile.
  pose proof (ticket_step_returns _ _ _ _ _ _ _ _ Hstep)
    as (g & handle & job & Hg & Hhandle & _ & _ & _ & _ & Hlen & HK & _).
  rewrite shared_inputs_after_reorganize in Hlen.
  destruct (ticket_step_runs self name job_id t l s g modified model_args
              toydata output mode) as (handle' & _ & Hruns); try done.
  { destruct (new_to_combine l); [by left|right; by eexists]. }
  rewrite Hstep, bool_decide_eq_false_2 in Hruns by done.
  injection Hruns as -> _.
  by exists g, handle', modified, model_args, toydata, output.
Qed.

Lemma sc_tc_after_reorganize t s :
  sc (after_reorganize t s) = sc s ∧ tc (after_reorganize t s) = tc s.
Proof. unfold after_reorganize. by repeat case_match. Qed.

Lemma replicas_after_reorganize t s base more :
  rc s = Some (base ++ more) →
  Forall named_after_file more →
  ∃ more',
    rc (after_reorganize t s) = Some (base ++ more')
    ∧ Forall named_after_file more'.
Proof.
  intros Hrc Hnamed. unfold after_reorganize, register_threshold.
  destruct (added_limit_threshold s); [by eauto|].
  destruct (threshold_of t) as [[p| | |]|]; try by eauto.
  eexists (more ++ _). split.
  - cbn [rc set_added_limit_threshold set_rc]. rewrite Hrc.
    unfold default. cbn [from_option id]. by rewrite <-app_assoc.
  - apply Forall_app. split; [done|]. repeat constructor. cbn. by eexists.
Qed.

Lemma add_inputs_shaped self name modified inputs j :
  combine_shaped self j ∨ compute_shaped self name modified j →
  combine_shaped self (add_inputs inputs j)
  ∨ compute_shaped self name modified (add_inputs inputs j).
Proof.
  intros [(i & ins & ->)
         |(t & model_args & toydata & output & more & ? & ? & ? & ->)];
    [left|right].
  - exists i, (ins ++ inputs). unfold add_inputs. cbn. by rewrite ?app_assoc.
  - exists t, model_args, toydata, output, (more ++ inputs).
    by split_and!.
Qed.

Lemma built_inv_step self name sites modified job_id t l s s' l' :
  built_inv self name sites modified s →
  ticket_step self name job_id t l s = (s', Returns l') →
  built_inv self name sites modified s'.
Proof.
  intros (Hsc & Htc & Hmod & Hshared & (more & Hrc & Hnamed) & Hjobs) Hstep.
  apply ticket_step_result in Hstep
    as (g & handle & modified' & model_args & toydata & output & Hg & Hmod'
        & Hargs & Htoy & Hout & ->); [|by eexists].
  assert (modified' = modified) as -> by congruence.
  destruct (sc_tc_after_reorganize t s) as [Hsc' Htc'].
  unfold built_inv, jobs_of in *. rewrite Hg in Hjobs.
  cbn [sc tc rc wf set_wf with_jobs wf_jobs].
  change (shared_inputs (set_wf ?g' ?s0)) with (shared_inputs s0).
  change (modified_statistical_model_config (set_wf ?g' ?s0))
    with (modified_statistical_model_config s0).
  rewrite Hsc', Htc', modified_after_reorganize,
    shared_inputs_after_reorganize.
  split_and!; try done.
  { by apply (replicas_after_reorganize t s _ more). }
  apply Forall_app. split.
  - apply Forall_alter; [|intros j _; apply add_inputs_shaped].
    apply Forall_app. split; [done|].
    destruct (new_to_combine l); [|done].
    constructor; [|done]. left. exists (combine_i l), [].
    unfold add_inputs. cbn. done.
  - constructor; [|done]. right.
    exists t, model_args, toydata, output,
      (threshold_input (after_reorganize t s)).
    by rewrite Hshared.
Qed.

Lemma built_inv_start self name sites modified s :
  modified_statistical_model_config s = Some modified →
  built_inv self name sites modified (loop_start self sites modified s).
Proof.
  intros Hmod. unfold built_inv. rewrite shared_inputs_loop_start.
  split_and!; try done.
  exists []. by rewrite app_nil_r.
Qed.

(** The invariant holds of what [_generate_workflow] leaves. *)
Lemma generate_workflow_built self w name tickets s s' u :
  _generate_workflow self w name tickets s = (s', Returns u) →
  ∃ sites modified sl g,
    _generate_sc self w = Returns sites
    ∧ modified_statistical_model_config s = Some modified
    ∧ built_inv self name sites modified sl
    ∧ wf s' = Some g
    ∧ g = finished_workflow sl
    ∧ rc s' = rc sl
    ∧ jobs_of s' = jobs_of sl.
Proof.
  intros Hrun.
  apply generate_workflow_returns in Hrun
    as (_ & sites & modified & sl & l & Hsc & Hmod & Hloop & _ & ->).
  exists sites, modified, sl, (finished_workflow sl).
  split; [done|]. split; [done|]. split; [|done].
  apply (tickets_loop_invariant self name
           (λ _ s _, built_inv self name sites modified s)
           (λ ts t s0 l0 s1 l1 Hinv,
              built_inv_step self name sites modified _ t l0 s0 s1 l1 Hinv)
           tickets [] (loop_start self sites modified s)
           (Locals 0 true None) sl l); [|exact Hloop].
  by apply built_inv_start.
Qed.



(** X23: the workflow [_generate_workflow] writes carries its three
    catalogs, and they fit together: the sites are [local], [staging-davs]
    and [condorpool]; every transformation and every replica lives on one
    of them, every replica being named after its file; every job is named
    [name] or [combine], which are the transformations of the catalog when
    [name] is [run_toymc_wrapper], as [submit] has it; the sites the plan
    names are sites of the catalog. *)
Theorem generate_workflow_catalogs self w name tickets s :
  let result := _generate_workflow self w name tickets s in
  result.2 = Returns tt →
  ∃ g sites replicas,
    wf result.1 = Some g
    ∧ wf_site_catalog g = Some sites
    ∧ wf_transformation_catalog g = Some (_generate_tc self)
    ∧ wf_replica_catalog g = Some replicas
    ∧ site_name <$> sites = ["local"; "staging-davs"; "condorpool"]
    ∧ Forall (λ t, tr_site t ∈ site_name <$> sites) (_generate_tc self)
    ∧ Forall (λ r, rep_site r ∈ site_name <$> sites ∧ named_after_file r)
        replicas
    ∧ Forall (λ j, job_name j = name ∨ job_name j = "combine") (wf_jobs g)
    ∧ (name = "run_toymc_wrapper" →
       Forall (λ j, job_name j ∈ tr_name <$> _generate_tc self) (wf_jobs g))
    ∧ Forall (λ site, site ∈ site_name <$> sites)
        (plan_sites (plan_of self) ++ plan_output_sites (plan_of self)
         ++ (plan_staging_sites (plan_of self)).*1
         ++ (plan_staging_sites (plan_of self)).*2).
Proof.
  intros result Hret. subst result.
  destruct (_generate_workflow self w name tickets s) as [s' out] eqn:Hrun.
  cbn [fst snd] in *. subst out.
  apply generate_workflow_built in Hrun
    as (sites & modified & sl & g & Hsc & _
        & (Hsites & Htc & _ & _ & (more & Hrc & Hmore) & Hjobs) & Hg & ->
        & _).
  apply generate_sc_returns in Hsc as [_ Hnames].
  assert (Forall (λ j, job_name j = name ∨ job_name j = "combine")
            (jobs_of sl)) as Hjobnames.
  { eapply Forall_impl; [exact Hjobs|].
    intros j [(i & inputs & ->)
             |(t & model_args & toydata & output & ? & _ & _ & _ & ->)];
      [by right|by left]. }
  assert (Forall named_after_file (base_replicas self modified ++ more))
    as Hnamed.
  { apply Forall_app. split; [apply base_replicas_named|done]. }
  exists (finished_workflow sl), sites, (base_replicas self modified ++ more).
  unfold finished_workflow. cbn [wf_site_catalog wf_transformation_catalog
    wf_replica_catalog wf_jobs].
  rewrite Hnames. split_and!; try done.
  - repeat constructor; apply list_elem_of_In; cbn; tauto.
  - eapply Forall_impl; [exact Hnamed|]. intros r Hr. split; [|done].
    destruct Hr as [-> _]. apply list_elem_of_In. cbn. tauto.
  - intros ->. eapply Forall_impl; [exact Hjobnames|].
    intros j [->| ->]; apply list_elem_of_In; cbn; tauto.
  - repeat constructor; apply list_elem_of_In; cbn; tauto.
Qed.

Lemma generate_workflow_catalogs_witness :
  ∃ g, wf (_generate_workflow Sample.self Sample.w "run_toymc_wrapper"
             Sample.tickets Sample.prepared).1
       = Some g
       ∧ wf_transformation_catalog g = Some (_generate_tc Sample.self).
Proof.
  destruct (generate_workflow_catalogs Sample.self Sample.w
              "run_toymc_wrapper" Sample.tickets Sample.prepared)
    as (g & sites & replicas & Hg & _ & Htc & _).
  - vm_compute. reflexivity.
  - exists g. split; [exact Hg|exact Htc].
Defined.

(** What the loop invariants say of a workflow [_generate_workflow] has
    built from a state without a registered threshold, for cohorts that
    are not empty. *)
Lemma generate_workflow_invariants self w name tickets s s' u :
  _generate_workflow self w name tickets s = (s', Returns u) →
  added_limit_threshold s = false →
  (0 < combine_n_outputs self)%Z →
  name ≠ "combine" →
  ∃ sites modified sl l,
    cohort_inv self name (Z.to_nat (combine_n_outputs self)) tickets sl l
    ∧ registration_inv (base_replicas self modified)
        (base_inputs self modified) tickets sl
    ∧ inputs_inv name (base_inputs self modified) tickets sl
    ∧ built_inv self name sites modified sl
    ∧ jobs_of s' = jobs_of sl
    ∧ rc s' = rc sl.
Proof.
  intros Hrun Hflag HK Hname.
  apply generate_workflow_returns in Hrun
    as (_ & sites & modified & sl & l & _ & Hmod & Hloop & _ & ->).
  exists sites, modified, sl, l.
  set (k := Z.to_nat (combine_n_outputs self)).
  set (base := base_replicas self modified).
  set (shared := base_inputs self modified).
  assert (cohort_inv self name k ([] ++ tickets) sl l
          ∧ registration_inv base shared ([] ++ tickets) sl
          ∧ inputs_inv name shared ([] ++ tickets) sl
          ∧ built_inv self name sites modified sl) as (? & ? & ? & ?);
    [|by split_and!].
  apply (tickets_loop_invariant self name
           (λ ts s l, cohort_inv self name k ts s l
                      ∧ registration_inv base shared ts s
                      ∧ inputs_inv name shared ts s
                      ∧ built_inv self name sites modified s))
    with (s := loop_start self sites modified s) (l := Locals 0 true None).
  - intros ts t s0 l0 s1 l1 (Hc & Hr & Hi & Hb) Hstep. split_and!.
    + eapply cohort_inv_step; eauto; lia.
    + by eapply registration_inv_step.
    + eapply (inputs_inv_step self name k); eauto; lia.
    + by eapply built_inv_step.
  - split_and!.
    + eapply cohort_inv_start; first [reflexivity|lia].
    + by apply registration_inv_start.
    + by split.
    + by apply built_inv_start.
  - exact Hloop.
Qed.

Lemma first_threshold_prefix ts n p :
  first_threshold (take n ts) = Some p → first_threshold ts = Some p.
Proof.
  intros Hp. rewrite <-(take_drop n ts), first_threshold_app. by rewrite Hp.
Qed.

Lemma base_inputs_replicas self modified :
  base_inputs self modified = rep_lfn <$> base_replicas self modified.
Proof. reflexivity. Qed.

(** A position splits into a cohort and a place in it. *)
Lemma cohort_of_position (n k : nat) :
  0 < k → ∃ i m, n = i * k + m ∧ m < k.
Proof.
  intros Hk. induction n as [|n (i & m & -> & Hm)].
  - exists 0, 0. lia.
  - destruct (decide (S m = k)) as [Heq|Hne].
    + exists (S i), 0. lia.
    + exists i, (S m). lia.
Qed.

(** X24: a generated workflow is closed.  Every input of a compute job has
    a replica in the catalog; every input of a combine job is an output of
    a compute job; every output of a compute job is an input of a combine
    job (build started with the flag down, cohorts not empty). *)
Theorem generate_workflow_closed self w name tickets s :
  let result := _generate_workflow self w name tickets s in
  let computes := jobs_named name (jobs_of result.1) in
  let combines := jobs_named "combine" (jobs_of result.1) in
  result.2 = Returns tt →
  added_limit_threshold s = false →
  (0 < combine_n_outputs self)%Z →
  name ≠ "combine" →
  ∃ replicas,
    rc result.1 = Some replicas
    ∧ (∀ job f, job ∈ computes → f ∈ job_inputs job →
         f ∈ rep_lfn <$> replicas)
    ∧ (∀ c f, c ∈ combines → f ∈ job_inputs c →
         ∃ job, job ∈ computes ∧ f ∈ output_names job)
    ∧ (∀ job f, job ∈ computes → f ∈ output_names job →
         ∃ c, c ∈ combines ∧ f ∈ job_inputs c).
Proof.
  intros result computes combines Hret Hflag HK Hname.
  subst computes combines result.
  destruct (_generate_workflow self w name tickets s) as [s' out] eqn:Hrun.
  cbn [fst snd] in *. subst out.
  apply generate_workflow_invariants in Hrun
    as (sites & modified & sl & l
        & (q & r & Hn & Hr & Hcomp & Hlen & Hcomb & _)
        & (_ & _ & Hrc & _) & (Hlenc & Hinputs) & _ & -> & ->); try done.
  set (k := Z.to_nat (combine_n_outputs self)) in *.
  eexists. split; [exact Hrc|]. split_and!.
  - intros job f [j Hj]%list_elem_of_lookup Hf.
    rewrite (Hinputs j job Hj) in Hf.
    rewrite fmap_app, <-base_inputs_replicas.
    apply elem_of_app in Hf as [Hf|Hf]; apply elem_of_app; [by left|right].
    destruct (first_threshold (take (S j) tickets)) as [p|] eqn:Hp;
      [|by apply elem_of_nil in Hf].
    by rewrite (first_threshold_prefix _ _ _ Hp).
  - intros c f [i Hi]%list_elem_of_lookup Hf.
    destruct (Hcomb i c Hi) as [Hin _]. rewrite Hin in Hf.
    apply list_elem_of_In, in_concat in Hf as (outs & Houts & Hf).
    apply list_elem_of_In, list_elem_of_fmap in Houts as (t & -> & Ht).
    apply list_elem_of_lookup in Ht as [m Ht].
    apply lookup_take_Some in Ht as [Ht _].
    rewrite lookup_drop in Ht.
    assert ((output_names <$> jobs_named name (jobs_of sl)) !! (i * k + m)
            = Some (ticket_outputs t)) as Hjob.
    { by rewrite Hcomp, list_lookup_fmap, Ht. }
    rewrite list_lookup_fmap in Hjob.
    destruct (jobs_named name (jobs_of sl) !! (i * k + m)) as [job|] eqn:Hjb;
      [|done].
    injection Hjob as Hjob. exists job. split.
    + by eapply list_elem_of_lookup_2.
    + rewrite Hjob. by apply list_elem_of_In.
  - intros job f [n Hjob]%list_elem_of_lookup Hf.
    assert (∃ t, tickets !! n = Some t ∧ output_names job = ticket_outputs t)
      as (t & Ht & Hout).
    { assert ((ticket_outputs <$> tickets) !! n = Some (output_names job))
        as Hlook by (by rewrite <-Hcomp, list_lookup_fmap, Hjob).
      rewrite list_lookup_fmap in Hlook.
      destruct (tickets !! n) as [t|]; [|done].
      injection Hlook as Hlook. by exists t. }
    destruct (cohort_of_position n k) as (i & m & -> & Hm); [lia|].
    assert (i < length (jobs_named "combine" (jobs_of sl))) as Hi.
    { apply lookup_lt_Some in Ht. rewrite Hlen.
      destruct (decide (r = 0)); nia. }
    apply lookup_lt_is_Some_2 in Hi as [c Hc].
    exists c. split; [by eapply list_elem_of_lookup_2|].
    destruct (Hcomb i c Hc) as [-> _].
    apply list_elem_of_In, in_concat. exists (ticket_outputs t).
    split; [|by rewrite <-Hout; apply list_elem_of_In].
    apply list_elem_of_In, list_elem_of_fmap. exists t. split; [done|].
    apply (list_elem_of_lookup_2 _ m).
    rewrite lookup_take_lt by done. by rewrite lookup_drop.
Qed.

Lemma generate_workflow_closed_witness :
  ∃ replicas,
    rc (_generate_workflow Sample.self Sample.w "run_toymc_wrapper"
          Sample.tickets Sample.prepared).1
    = Some replicas
    ∧ ∀ job f,
        job ∈ jobs_named "run_toymc_wrapper"
                (jobs_of
                   (_generate_workflow Sample.self Sample.w
                      "run_toymc_wrapper" Sample.tickets Sample.prepared).1) →
        f ∈ job_inputs job → f ∈ rep_lfn <$> replicas.
Proof.
  destruct (generate_workflow_closed Sample.self Sample.w
              "run_toymc_wrapper" Sample.tickets Sample.prepared)
    as (replicas & Hrc & Hinputs & _).
  - vm_compute. reflexivity.
  - vm_compute. reflexivity.
  - vm_compute. reflexivity.
  - discriminate.
  - exists replicas. split; [exact Hrc|exact Hinputs].
Defined.

Lemma string_app_inv_tail (a b c : string) : a +:+ c = b +:+ c → a = b.
Proof.
  revert b. induction a as [|x a IH]; intros [|y b];
    rewrite ?PathFacts.append_nil_l, ?PathFacts.append_cons.
  - done.
  - intros H. apply (f_equal String.length) in H. cbn in H.
    rewrite DirFacts.length_app_string in H. lia.
  - intros H. apply (f_equal String.length) in H. cbn in H.
    rewrite DirFacts.length_app_string in H. lia.
  - intros [= -> H]. f_equal. by apply IH.
Qed.

(** The archive of a cohort tells which cohort it is. *)
Lemma archive_name_inj self (i j : Z) :
  workflow_id self +:+ "-" +:+ pretty i +:+ "-combined_output.tar.gz"
  = workflow_id self +:+ "-" +:+ pretty j +:+ "-combined_output.tar.gz" →
  i = j.
Proof.
  intros H. apply String.app_inj in H. apply (String.app_inj "-") in H.
  apply string_app_inv_tail in H. by apply pretty_Z_inj in H.
Qed.

Lemma combine_name_inj self (i j : Z) :
  workflow_id self +:+ "-" +:+ pretty i = workflow_id self +:+ "-" +:+ pretty j →
  i = j.
Proof.
  intros H. apply String.app_inj in H. apply (String.app_inj "-") in H.
  by apply pretty_Z_inj in H.
Qed.

(** Jobs with one output each, named by position. *)
Lemma single_outputs_concat (jobs : list job) (name_of : nat → string) :
  (∀ i c, jobs !! i = Some c → output_names c = [name_of i]) →
  concat (output_names <$> jobs) = name_of <$> seq 0 (length jobs).
Proof.
  induction jobs as [|c rest IH] using rev_ind; intros Houts; [done|].
  rewrite fmap_app, concat_app, length_app. cbn [length].
  rewrite Nat.add_1_r, seq_S, fmap_app. cbn.
  rewrite (Houts (length rest) c) by (by rewrite list_lookup_middle).
  rewrite IH; [done|].
  intros i c' Hi. apply Houts. by apply lookup_app_l_Some.
Qed.

(** X25: the combine job of the cohort [i] has one output, staged out,
    named after the workflow and [i]; no two combine jobs write the same
    archive. *)
Theorem combine_archives_distinct self w name tickets s :
  let result := _generate_workflow self w name tickets s in
  let combines := jobs_named "combine" (jobs_of result.1) in
  result.2 = Returns tt →
  added_limit_threshold s = false →
  (0 < combine_n_outputs self)%Z →
  name ≠ "combine" →
  (∀ i c, combines !! i = Some c →
     job_outputs c
     = [(workflow_id self +:+ "-" +:+ pretty (Z.of_nat i)
           +:+ "-combined_output.tar.gz", true)])
  ∧ NoDup (concat (output_names <$> combines)).
Proof.
  intros result combines Hret Hflag HK Hname. subst combines result.
  destruct (_generate_workflow self w name tickets s) as [s' out] eqn:Hrun.
  cbn [fst snd] in *. subst out.
  apply generate_workflow_invariants in Hrun
    as (sites & modified & sl & l
        & (q & r & _ & _ & _ & _ & Hcomb & _)
        & _ & _ & (_ & _ & _ & _ & _ & Hjobs) & -> & _); try done.
  assert (∀ i c, jobs_named "combine" (jobs_of sl) !! i = Some c →
            job_outputs c
            = [(workflow_id self +:+ "-" +:+ pretty (Z.of_nat i)
                  +:+ "-combined_output.tar.gz", true)]) as Houts.
  { intros i c Hi. destruct (Hcomb i c Hi) as [_ Harg].
    apply list_elem_of_lookup_2 in Hi.
    apply list_elem_of_filter in Hi as [Hcname Hin].
    eapply Forall_forall in Hjobs; [|exact Hin].
    destruct Hjobs
      as [(i' & inputs & ->)
         |(t & model_args & toydata & output & more & _ & _ & _ & ->)];
      [|done].
    cbn in Harg. injection Harg as Harg.
    apply combine_name_inj in Harg as ->. done. }
  split; [exact Houts|].
  rewrite (single_outputs_concat _
             (λ i, workflow_id self +:+ "-" +:+ pretty (Z.of_nat i)
                     +:+ "-combined_output.tar.gz")).
  - apply NoDup_fmap_2_strong; [|apply NoDup_seq].
    intros i j _ _ Heq. apply archive_name_inj in Heq. lia.
  - intros i c Hi. unfold output_names. by rewrite (Houts i c Hi).
Qed.

Lemma combine_archives_distinct_witness :
  NoDup
    (concat
       (output_names <$>
          jobs_named "combine"
            (jobs_of
               (_generate_workflow Sample.self Sample.w "run_toymc_wrapper"
                  Sample.tickets Sample.prepared).1))).
Proof.
  apply (combine_archives_distinct Sample.self Sample.w "run_toymc_wrapper"
           Sample.tickets Sample.prepared).
  - vm_compute. reflexivity.
  - vm_compute. reflexivity.
  - vm_compute. reflexivity.
  - discriminate.
Defined.



(** ** The sign of the cohort size

    The cohort size enters the loop only through the test that closes a
    cohort. *)

Lemma bind_ext {S A B} (m : M S A) (k k' : A → M S B) s :
  (∀ a s', k a s' = k' a s') → bind m k s = bind m k' s.
Proof.
  intros Hk. unfold bind. destruct (m s) as [s1 [a|e]]; [apply Hk|done].
Qed.

Lemma mod_opp_zero (a k : Z) :
  bool_decide ((a `mod` (- k))%Z = 0%Z) = bool_decide ((a `mod` k)%Z = 0%Z).
Proof.
  apply bool_decide_ext.
  destruct (decide (k = 0%Z)) as [->|Hk]; [done|].
  rewrite !Z.mod_divide by lia.
  split; intros [c ->]; exists (- c)%Z; lia.
Qed.

Lemma ticket_step_opp self name job_id t l s :
  ticket_step (with_combine_n_outputs (- combine_n_outputs self) self) name
    job_id t l s
  = ticket_step self name job_id t l s.
Proof.
  unfold ticket_step.
  apply bind_ext. intros cj s1.
  apply bind_ext. intros [exe args] s2.
  apply bind_ext. intros mode s3.
  destruct (negb (supported_toydata_mode mode)); [done|].
  do 6 (apply bind_ext; intros ? ?).
  apply bind_ext. intros added s4.
  apply bind_ext. intros job s5.
  do 2 (apply bind_ext; intros ? ?).
  apply bind_ext. intros handle s6.
  apply bind_ext. intros [] s7.
  apply bind_ext. intros job' s8.
  apply bind_ext. intros h s9.
  cbn [combine_n_outputs with_combine_n_outputs].
  rewrite mod_opp_zero.
  assert (bool_decide ((- combine_n_outputs self)%Z = 0%Z)
          = bool_decide (combine_n_outputs self = 0%Z)) as ->
    by (apply bool_decide_ext; lia).
  done.
Qed.

Lemma tickets_loop_opp self name tickets job_id l s :
  tickets_loop (with_combine_n_outputs (- combine_n_outputs self) self) name
    job_id tickets l s
  = tickets_loop self name job_id tickets l s.
Proof.
  revert job_id l s. induction tickets as [|t rest IH]; intros job_id l s;
    [done|].
  cbn [tickets_loop]. unfold bind. rewrite ticket_step_opp.
  destruct (ticket_step self name job_id t l s) as [s1 [l1|e]]; [|done].
  apply IH.
Qed.

(** X27: [_generate_workflow] never looks at the sign of
    [combine_n_outputs]: with [- K] in place of [K] it ends in the same state
    with the same outcome, whatever the input.  Python's
    [(job_id + 1) % K == 0] holds for [K] exactly when it holds for [- K],
    and both divide by zero when [K] is [0]; a negative cohort size is
    accepted and acts as its absolute value. *)
Theorem combine_n_outputs_sign self w name tickets s :
  _generate_workflow (with_combine_n_outputs (- combine_n_outputs self) self)
    w name tickets s
  = _generate_workflow self w name tickets s.
Proof.
  unfold _generate_workflow.
  change (combine_n_jobs (with_combine_n_outputs _ self))
    with (combine_n_jobs self).
  case_bool_decide; [done|].
  apply bind_ext. intros _ s1.
  apply bind_ext. intros sites s2.
  apply bind_ext. intros _ s3.
  apply bind_ext. intros _ s4.
  apply bind_ext. intros replicas s5.
  apply bind_ext. intros _ s6.
  unfold bind at 1 3. rewrite tickets_loop_opp.
  done.
Qed.
